(** * GLQueueRunner: the deferred OpenGL step interpreter of ext/native/thin3d

    A shallow embedding of [GLQueueRunner.cpp].  The interpreter is stateful
    C++ that talks to an OpenGL device, so the embedding threads an explicit
    world (the runner's members, the externally owned resource records, the
    device's name counter and the trace of calls issued so far) through a
    small state-and-failure monad.  What the device answers (generated names,
    compile and link status, uniform locations) is an oracle record. *)

From Stdlib Require Import ZArith List Bool Lia.
From Stdlib Require Import Floats.SpecFloat.
From stdpp Require Import base gmap list strings pretty.

Local Open Scope Z_scope.

(** ** Machine integers and floats *)

Definition GLuint := Z.
Definition GLint := Z.
Definition GLenum := Z.
Definition GLsizei := Z.
Definition GLboolean := Z.

(** [int] arithmetic, two's complement on 32 bits. *)
Definition wrap_int (z : Z) : Z := (z + 2 ^ 31) mod 2 ^ 32 - 2 ^ 31.
(** [GLuint]/[GLenum] arithmetic, modulo 2^32. *)
Definition wrap_uint (z : Z) : Z := z mod 2 ^ 32.

(** C [float] is IEEE binary32: 24 bits of precision, emax 128. *)
Definition float := spec_float.
Definition f32_prec : Z := 24.
Definition f32_emax : Z := 128.
Definition f32_sub (a b : float) : float := SFsub f32_prec f32_emax a b.
(** [(float)i] for an [int] i: round to nearest even. *)
Definition f32_of_int (i : Z) : float := binary_normalize f32_prec f32_emax i 0 false.
(** [(GLint)f]: truncation toward zero; undefined for NaN, infinities and
    values outside the range of [int]. *)
Definition f32_to_int (f : float) : option Z :=
  match f with
  | S754_zero _ => Some 0
  | S754_finite s m e =>
      let mag := if (0 <=? e) then Z.pos m * 2 ^ e else Z.pos m / 2 ^ (- e) in
      let v := if s then - mag else mag in
      if (- 2 ^ 31 <=? v) && (v <? 2 ^ 31) then Some v else None
  | S754_infinity _ => None
  | S754_nan => None
  end.
Definition f32_is_zero (f : float) : bool :=
  match f with S754_zero _ => true | _ => false end.

(** ** OpenGL constants used by the runner (gfx/gl_common.h) *)

Module GL.
Definition GL_FALSE : Z := 0.
Definition GL_TRUE : Z := 1.
Definition GL_DEPTH_BUFFER_BIT : Z := 0x100.
Definition GL_STENCIL_BUFFER_BIT : Z := 0x400.
Definition GL_COLOR_BUFFER_BIT : Z := 0x4000.
Definition GL_CULL_FACE : Z := 0x0B44.
Definition GL_DEPTH_TEST : Z := 0x0B71.
Definition GL_STENCIL_TEST : Z := 0x0B90.
Definition GL_DITHER : Z := 0x0BD0.
Definition GL_BLEND : Z := 0x0BE2.
Definition GL_SCISSOR_TEST : Z := 0x0C11.
Definition GL_TEXTURE_2D : Z := 0x0DE1.
Definition GL_NEAREST : Z := 0x2600.
Definition GL_LINEAR : Z := 0x2601.
Definition GL_TEXTURE_MAG_FILTER : Z := 0x2800.
Definition GL_TEXTURE_MIN_FILTER : Z := 0x2801.
Definition GL_TEXTURE_WRAP_S : Z := 0x2802.
Definition GL_TEXTURE_WRAP_T : Z := 0x2803.
Definition GL_CLAMP_TO_EDGE : Z := 0x812F.
Definition GL_TEXTURE0 : Z := 0x84C0.
Definition GL_TEXTURE_MAX_ANISOTROPY_EXT : Z := 0x84FE.
Definition GL_MAX_TEXTURE_MAX_ANISOTROPY_EXT : Z := 0x84FF.
Definition GL_ARRAY_BUFFER : Z := 0x8892.
Definition GL_ELEMENT_ARRAY_BUFFER : Z := 0x8893.
Definition GL_FRAGMENT_SHADER : Z := 0x8B30.
Definition GL_COMPILE_STATUS : Z := 0x8B81.
Definition GL_LINK_STATUS : Z := 0x8B82.
Definition GL_INFO_LOG_LENGTH : Z := 0x8B84.
Definition GL_RENDERBUFFER : Z := 0x8D41.
End GL.
Import GL.

Definition TEXCACHE_NAME_CACHE_SIZE : nat := 16.
Definition MAX_INFO_LOG_SIZE : Z := 2048.
(** The bound of the attribute-slot loops (the source's comment: SEM_MAX). *)
Definition SEM_MAX : nat := 7.

(** ** Pointers and resource records

    A pointer is an address or [nullptr].  The records the steps point to are
    owned by the recorder; they live in the [Heap] below, one map per record
    type, so that two steps naming the same address share the record. *)

Definition loc := nat.
Definition ptr := option loc.
Definition nullptr : ptr := None.

Module GLRTexture.
Record t := mk { texture : GLuint; target : GLenum }.
End GLRTexture.

Module GLRBuffer.
Record t := mk { buffer : GLuint; target_ : GLenum }.
End GLRBuffer.

Module GLRShader.
Record t := mk { shader : GLuint; valid : bool }.
End GLRShader.

Module Semantic.
Record t := mk { location : Z; attrib : string }.
End Semantic.

Module UniformLocQuery.
(** [dest] points to the [GLint] that receives the location. *)
Record t := mk { dest : ptr; name : string }.
End UniformLocQuery.

Module Initializer.
Record t := mk { uniform : ptr; type : Z; value : Z }.
End Initializer.

Module GLRProgram.
Record t := mk {
  program : GLuint;
  semantics_ : list Semantic.t;
  queries_ : list UniformLocQuery.t;
  initialize_ : list Initializer.t }.
End GLRProgram.

Module Entry.
Record t := mk {
  location : Z; count : Z; type : GLenum; normalized : GLboolean;
  stride : Z; offset : Z }.
End Entry.

Module GLRInputLayout.
Record t := mk { semanticsMask_ : Z; entries : list Entry.t }.
End GLRInputLayout.

Module GLRFramebuffer.
(** [color_texture] is [color.texture], [depth_texture] is [depth.texture]. *)
Record t := mk {
  width : Z; height : Z; color_texture : GLuint; depth_texture : GLuint }.
End GLRFramebuffer.

Module GLRViewport.
Record t := mk { x : float; y : float; w : float; h : float; minZ : float; maxZ : float }.
End GLRViewport.

Module GLRect2D.
Record t := mk { x : Z; y : Z; w : Z; h : Z }.
End GLRect2D.

Module GLOffset2D.
Record t := mk { x : Z; y : Z }.
End GLOffset2D.

Record Heap := mkHeap {
  textures : gmap loc GLRTexture.t;
  buffers : gmap loc GLRBuffer.t;
  shaders : gmap loc GLRShader.t;
  programs : gmap loc GLRProgram.t;
  inputLayouts : gmap loc GLRInputLayout.t;
  framebuffers : gmap loc GLRFramebuffer.t;
  (** the [GLint] cells that uniform queries write and uniform uploads read *)
  ints : gmap loc GLint }.

(** ** Steps and commands *)

Inductive GLRInitStep :=
| CREATE_TEXTURE (texture : ptr)
| CREATE_BUFFER (buffer : ptr) (size : Z) (usage : GLenum)
| BUFFER_SUBDATA (buffer : ptr) (offset size : Z) (data : ptr) (deleteData : bool)
    (** [shaders] is the array [shaders[0 .. num_shaders-1]] *)
| CREATE_PROGRAM (program : ptr) (shaders : list ptr) (support_dual_source : bool)
| CREATE_SHADER (shader : ptr) (stage : GLenum) (code : ptr)
| CREATE_INPUT_LAYOUT (inputLayout : ptr)
| CREATE_FRAMEBUFFER
| TEXTURE_SUBDATA
| TEXTURE_IMAGE (texture : ptr) (level : Z) (internalFormat : GLenum)
    (width height : Z) (format type : GLenum) (data : ptr) (linearFilter : bool)
    (** a [stepType] outside the enumeration *)
| UNKNOWN_INIT_STEP (tag : Z).

Inductive GLRRenderData :=
| DEPTH (enabled : bool) (write : GLboolean) (func : GLenum)
| BLEND (enabled : bool) (funcColor funcAlpha srcColor dstColor srcAlpha dstAlpha : GLenum)
    (mask : Z)
| CLEAR (clearMask : Z) (clearColor : Z) (clearZ : float) (clearStencil : Z)
| BLENDCOLOR (color : list float)
| VIEWPORT (vp : GLRViewport.t)
| SCISSOR (rc : GLRect2D.t)
    (** [v] is the four 32-bit words of [uniform4.v] *)
| UNIFORM4F (name : option string) (loc : ptr) (count : Z) (v : list Z)
| UNIFORM4I (name : option string) (loc : ptr) (count : Z) (v : list Z)
| UNIFORMMATRIX (name : option string) (loc : ptr) (m : list float)
| STENCILFUNC (enabled : bool) (func : GLenum) (ref : Z) (compareMask : Z)
| STENCILOP (sFail zFail pass : GLenum) (writeMask : Z)
| BINDTEXTURE (slot : Z) (texture : ptr)
| BINDPROGRAM (program : ptr)
| BIND_INPUT_LAYOUT (inputLayout : ptr) (offset : Z)
| BIND_VERTEX_BUFFER (buffer : ptr)
| BIND_INDEX_BUFFER (buffer : ptr)
| GENMIPS
| DRAW (mode : GLenum) (first count : Z)
| DRAW_INDEXED (mode : GLenum) (count : Z) (indexType : GLenum) (indices : Z) (instances : Z)
| TEXTURESAMPLER (wrapS wrapT magFilter minFilter : GLenum) (anisotropy : float)
| RASTER (cullEnable : bool) (frontFace cullFace : GLenum) (ditherEnable : bool)
    (** a [cmd] outside the enumeration *)
| UNKNOWN_COMMAND (tag : Z).

Inductive GLRStep :=
| RENDER (framebuffer : ptr) (commands : list GLRRenderData)
| COPY (src dst : ptr) (srcRect : GLRect2D.t) (dstPos : GLOffset2D.t) (aspectMask : Z)
| BLIT
| READBACK
| READBACK_IMAGE
| UNKNOWN_STEP (tag : Z).

(** ** The trace: device calls and the host-side effects the runner has *)

Inductive Event :=
| glGetFloatv (pname : GLenum)
| glGenVertexArrays (n : Z)
| glDeleteVertexArrays (arrays : list GLuint)
| glGenTextures (n : Z)
| glDeleteTextures (names : list GLuint)
| glBindTexture (target : GLenum) (texture : GLuint)
| glGenBuffers (n : Z)
| glBindBuffer (target : GLenum) (buffer : GLuint)
| glBufferData (target : GLenum) (size : Z) (data : ptr) (usage : GLenum)
| glBufferSubData (target : GLenum) (offset size : Z) (data : ptr)
| glCreateProgram
| glAttachShader (program shader : GLuint)
| glBindAttribLocation (program : GLuint) (index : Z) (name : string)
| glBindFragDataLocationIndexed (program : GLuint) (colorNumber index : Z) (name : string)
| glBindFragDataLocation (program : GLuint) (colorNumber : Z) (name : string)
| glBindFragDataLocationIndexedEXT (program : GLuint) (colorNumber index : Z) (name : string)
| glLinkProgram (program : GLuint)
| glGetProgramiv (program : GLuint) (pname : GLenum)
| glGetProgramInfoLog (program : GLuint) (bufSize : Z)
| glUseProgram (program : GLuint)
| glGetUniformLocation (program : GLuint) (name : string)
| glUniform1i (location : GLint) (v0 : Z)
| glCreateShader (stage : GLenum)
| glShaderSource (shader : GLuint) (code : ptr)
| glCompileShader (shader : GLuint)
| glGetShaderiv (shader : GLuint) (pname : GLenum)
| glGetShaderInfoLog (shader : GLuint) (bufSize : Z)
| glDeleteShader (shader : GLuint)
| glTexImage2D (target : GLenum) (level : Z) (internalFormat : GLenum) (width height : Z)
    (border : Z) (format type : GLenum) (data : ptr)
| glTexParameteri (target pname : GLenum) (param : Z)
| glTexParameterf (target pname : GLenum) (param : float)
| glEnable (cap : GLenum)
| glDisable (cap : GLenum)
| glDepthMask (flag : GLboolean)
| glDepthFunc (func : GLenum)
| glBlendEquationSeparate (modeRGB modeAlpha : GLenum)
| glBlendFuncSeparate (srcRGB dstRGB srcAlpha dstAlpha : GLenum)
| glColorMask (r g b a : Z)
| glClearColor (rgba : list float)
| glClearDepth (z : float)
| glClearDepthf (z : float)
| glClearStencil (s : Z)
| glClear (mask : Z)
| glBlendColor (r g b a : float)
| glViewport (x y : GLint) (w h : GLsizei)
| glDepthRange (n f : float)
| glScissor (x y : GLint) (w h : GLsizei)
| glUniform1f (location : GLint) (v0 : Z)
| glUniform2fv (location : GLint) (count : Z) (v : list Z)
| glUniform3fv (location : GLint) (count : Z) (v : list Z)
| glUniform4fv (location : GLint) (count : Z) (v : list Z)
| glUniform1iv (location : GLint) (count : Z) (v : list Z)
| glUniform2iv (location : GLint) (count : Z) (v : list Z)
| glUniform3iv (location : GLint) (count : Z) (v : list Z)
| glUniform4iv (location : GLint) (count : Z) (v : list Z)
| glUniformMatrix4fv (location : GLint) (count : Z) (transpose : bool) (m : list float)
| glStencilFunc (func : GLenum) (ref : Z) (mask : Z)
| glStencilOp (sfail dpfail dppass : GLenum)
| glStencilMask (mask : Z)
| glActiveTexture (texture : GLenum)
| glEnableVertexAttribArray (index : Z)
| glDisableVertexAttribArray (index : Z)
| glVertexAttribPointer (index : Z) (size : Z) (type : GLenum) (normalized : GLboolean)
    (stride : Z) (pointer : Z)
| glBindVertexArray (array : GLuint)
| glFrontFace (mode : GLenum)
| glCullFace (mode : GLenum)
| glGenerateMipmap (target : GLenum)
| glDrawArrays (mode : GLenum) (first count : Z)
| glDrawElements (mode : GLenum) (count : Z) (type : GLenum) (indices : Z)
| glCopyImageSubData (srcName : GLuint) (srcTarget : GLenum) (srcLevel srcX srcY srcZ : Z)
    (dstName : GLuint) (dstTarget : GLenum) (dstLevel dstX dstY dstZ : Z)
    (srcWidth srcHeight srcDepth : Z)
| glCopyImageSubDataNV (srcName : GLuint) (srcTarget : GLenum) (srcLevel srcX srcY srcZ : Z)
    (dstName : GLuint) (dstTarget : GLenum) (dstLevel dstX dstY dstZ : Z)
    (srcWidth srcHeight srcDepth : Z)
| glCopyImageSubDataOES (srcName : GLuint) (srcTarget : GLenum) (srcLevel srcX srcY srcZ : Z)
    (dstName : GLuint) (dstTarget : GLenum) (dstLevel dstX dstY dstZ : Z)
    (srcWidth srcHeight srcDepth : Z)
    (** [delete[] p] on a CPU-side payload *)
| delete_array (p : ptr)
    (** [delete steps[i]] in RunSteps *)
| delete_step (i : nat)
| ELOG (msg : string)
| ILOG (msg : string)
| OutputDebugStringUTF8 (msg : string).

(** ** The runner, the device and the world *)

(** The members of GLQueueRunner this file uses.  Their declarations are in
    GLQueueRunner.h; the types are those their uses in the file require. *)
Record GLQueueRunner := mkRunner {
  maxAnisotropyLevel_ : float;
  globalVAO_ : GLuint;
  (** [std::vector<GLuint>]; [back()] is the last element of the list *)
  nameCache_ : list GLuint;
  curFBWidth_ : Z;
  curFBHeight_ : Z;
  targetWidth_ : Z;
  targetHeight_ : Z;
  curFramebuffer_ : ptr }.

(** What the device answers.  [genName k] is the k-th object name the device
    hands out (textures, buffers, vertex arrays, shaders, programs). *)
Record Device := mkDevice {
  genName : nat -> GLuint;
  maxTextureMaxAnisotropy : float;
  compileStatus : GLuint -> GLint;
  shaderInfoLog : GLuint -> string;
  linkStatus : GLuint -> GLint;
  programInfoLogLength : GLuint -> GLint;
  programInfoLog : GLuint -> string;
  uniformLocation : GLuint -> string -> GLint }.

(** Build configuration (preprocessor symbols) and the capability flags of
    [gl_extensions] and [gstate_c] the runner reads. *)
Record Config := mkConfig {
  USING_GLES2 : bool;
  IOS : bool;
  _WIN32 : bool;
  VersionGEThan_3_3_0 : bool;
  GLES3 : bool;
  GPU_SUPPORTS_DUALSOURCE_BLEND : bool;
  ARB_copy_image : bool;
  NV_copy_image : bool }.

Record World := mkWorld {
  runner : GLQueueRunner;
  heap : Heap;
  (** how many names the device has handed out *)
  generated : nat;
  (** everything issued so far, newest first *)
  trace : list Event }.

(** ** The monad: state, plus the three ways a run stops early *)

Inductive Outcome (A : Type) :=
| Ok (a : A) (w : World)
    (** [Crash()] was called *)
| Crashed (w : World)
    (** [_assert_msg_] failed *)
| AssertFailed (msg : string) (w : World)
    (** undefined behaviour: a null or dangling pointer was dereferenced, or
        a float outside the range of [int] was converted *)
| Undefined.
Arguments Ok {A} a w.
Arguments Crashed {A} w.
Arguments AssertFailed {A} msg w.
Arguments Undefined {A}.

Definition M (A : Type) : Type := World -> Outcome A.

Definition ret {A} (a : A) : M A := fun w => Ok a w.
Definition bind {A B} (m : M A) (k : A -> M B) : M B :=
  fun w =>
    match m w with
    | Ok a w' => k a w'
    | Crashed w' => Crashed w'
    | AssertFailed msg w' => AssertFailed msg w'
    | Undefined => Undefined
    end.

Declare Scope runner_scope.
Delimit Scope runner_scope with run.
Notation "x ← y ; z" := (bind y (fun x => z))
  (at level 20, y at level 100, z at level 200, only parsing) : runner_scope.
Notation "' x ← y ; z" := (bind y (fun x => z))
  (at level 20, x pattern, y at level 100, z at level 200, only parsing) : runner_scope.
Notation "x ;; z" := (bind x (fun _ => z))
  (at level 100, z at level 200, only parsing, right associativity) : runner_scope.
Local Open Scope runner_scope.

(** Modelled from the spec: [Crash] is declared in base/logging.h, which is
    not among the sources; the spec has an unrecognized tag abort the
    process, so the run stops there. *)
Definition Crash {A} : M A := fun w => Crashed w.
(** Modelled from the spec: [_assert_msg_] is a macro of base/logging.h,
    which is not among the sources; the spec calls a violated precondition a
    caller contract error, so a failed assertion stops the run. *)
Definition _assert_msg_ (cond : bool) (msg : string) : M unit :=
  fun w => if cond then Ok tt w else AssertFailed msg w.
Definition undefined {A} : M A := fun _ => Undefined.
(** The world after the events [es] have been issued, in order. *)
Definition issue (es : list Event) (w : World) : World :=
  mkWorld (runner w) (heap w) (generated w) (rev_append es (trace w)).
(** The events of a world in the order they were issued. *)
Definition issued (w : World) : list Event := rev (trace w).
Definition emit (e : Event) : M unit := fun w => Ok tt (issue [e] w).
Definition get_runner : M GLQueueRunner := fun w => Ok (runner w) w.
Definition put_runner (r : GLQueueRunner) : M unit :=
  fun w => Ok tt (mkWorld r (heap w) (generated w) (trace w)).
Definition get_heap : M Heap := fun w => Ok (heap w) w.
Definition put_heap (h : Heap) : M unit :=
  fun w => Ok tt (mkWorld (runner w) h (generated w) (trace w)).
Definition when (b : bool) (m : M unit) : M unit := if b then m else ret tt.

(** A [for] loop over a list, front to back. *)
Fixpoint for_each {A} (l : list A) (body : A -> M unit) : M unit :=
  match l with
  | [] => ret tt
  | a :: l' => body a ;; for_each l' body
  end.

(** [p->...]: reading through a pointer. *)
Definition deref {A} (sel : Heap -> gmap loc A) (p : ptr) : M A :=
  fun w =>
    match p with
    | Some a => match sel (heap w) !! a with Some r => Ok r w | None => Undefined end
    | None => Undefined
    end.

(** Field updates of the world's records. *)
Definition set_maxAnisotropyLevel_ (v : float) (r : GLQueueRunner) : GLQueueRunner :=
  mkRunner v (globalVAO_ r) (nameCache_ r) (curFBWidth_ r) (curFBHeight_ r)
    (targetWidth_ r) (targetHeight_ r) (curFramebuffer_ r).
Definition set_globalVAO_ (v : GLuint) (r : GLQueueRunner) : GLQueueRunner :=
  mkRunner (maxAnisotropyLevel_ r) v (nameCache_ r) (curFBWidth_ r) (curFBHeight_ r)
    (targetWidth_ r) (targetHeight_ r) (curFramebuffer_ r).
Definition set_nameCache_ (v : list GLuint) (r : GLQueueRunner) : GLQueueRunner :=
  mkRunner (maxAnisotropyLevel_ r) (globalVAO_ r) v (curFBWidth_ r) (curFBHeight_ r)
    (targetWidth_ r) (targetHeight_ r) (curFramebuffer_ r).
Definition set_curFB (width height : Z) (r : GLQueueRunner) : GLQueueRunner :=
  mkRunner (maxAnisotropyLevel_ r) (globalVAO_ r) (nameCache_ r) width height
    (targetWidth_ r) (targetHeight_ r) (curFramebuffer_ r).

Definition store_texture (a : loc) (t : GLRTexture.t) (h : Heap) : Heap :=
  mkHeap (<[a:=t]> (textures h)) (buffers h) (shaders h) (programs h)
    (inputLayouts h) (framebuffers h) (ints h).
Definition store_buffer (a : loc) (b : GLRBuffer.t) (h : Heap) : Heap :=
  mkHeap (textures h) (<[a:=b]> (buffers h)) (shaders h) (programs h)
    (inputLayouts h) (framebuffers h) (ints h).
Definition store_shader (a : loc) (s : GLRShader.t) (h : Heap) : Heap :=
  mkHeap (textures h) (buffers h) (<[a:=s]> (shaders h)) (programs h)
    (inputLayouts h) (framebuffers h) (ints h).
Definition store_program (a : loc) (p : GLRProgram.t) (h : Heap) : Heap :=
  mkHeap (textures h) (buffers h) (shaders h) (<[a:=p]> (programs h))
    (inputLayouts h) (framebuffers h) (ints h).
Definition store_int (a : loc) (v : GLint) (h : Heap) : Heap :=
  mkHeap (textures h) (buffers h) (shaders h) (programs h)
    (inputLayouts h) (framebuffers h) (<[a:=v]> (ints h)).

(** [p->field = v]: writing through a pointer; the record must exist. *)
Definition update {A} (sel : Heap -> gmap loc A) (store : loc -> A -> Heap -> Heap)
    (p : ptr) (f : A -> A) : M unit :=
  r ← deref sel p;
  match p with
  | Some a => h ← get_heap; put_heap (store a (f r) h)
  | None => undefined
  end.

Definition nl : string := String (Ascii.ascii_of_nat 10) EmptyString.

(** Everything the runner takes from outside this file. *)
Record Env := mkEnv {
  device : Device;
  config : Config;
  (** [GLRProgram::GetUniformLoc] lives in GLRenderManager.h: the location of
      a named uniform of a program, taken as given. *)
  GetUniformLoc : GLRProgram.t -> string -> GLint;
  (** [Uint8x4ToFloat4] lives in math/dataconv.h: the four float channels of
      a packed 32-bit colour, taken as given. *)
  Uint8x4ToFloat4 : Z -> list float }.

Section Runner.
Variable env : Env.
Local Abbreviation dev := (device env).
Local Abbreviation cfg := (config env).

(** The device hands out the next [n] names. *)
Definition gen_names (n : nat) : M (list GLuint) :=
  fun w =>
    Ok (map (genName dev) (seq (generated w) n))
       (mkWorld (runner w) (heap w) (generated w + n)%nat (trace w)).
Definition gen_name : M GLuint :=
  names ← gen_names 1; ret (hd 0 names).

Definition CreateDeviceObjects : M unit :=
  emit (glGetFloatv GL_MAX_TEXTURE_MAX_ANISOTROPY_EXT) ;;
  r ← get_runner;
  put_runner (set_maxAnisotropyLevel_ (maxTextureMaxAnisotropy dev) r) ;;
  emit (glGenVertexArrays 1) ;;
  vao ← gen_name;
  r ← get_runner;
  put_runner (set_globalVAO_ vao r).

Definition DestroyDeviceObjects : M unit :=
  r ← get_runner;
  when (negb (bool_decide (nameCache_ r = [])))
    (emit (glDeleteTextures (nameCache_ r)) ;;
     put_runner (set_nameCache_ [] r)) ;;
  r ← get_runner;
  emit (glDeleteVertexArrays [globalVAO_ r]).

(** *** RunInitSteps *)

Definition link_failed (program : GLuint) (num_shaders : Z) : M unit :=
  emit (glGetProgramiv program GL_INFO_LOG_LENGTH) ;;
  let bufLength := programInfoLogLength dev program in
  if negb (bufLength =? 0) then
    emit (glGetProgramInfoLog program bufLength) ;;
    let buf := programInfoLog dev program in
    emit (ELOG ("Could not link program:" +:+ nl +:+ " " +:+ buf)) ;;
    when (_WIN32 cfg) (emit (OutputDebugStringUTF8 buf))
  else
    emit (ELOG ("Could not link program with " +:+ pretty num_shaders
                +:+ " shaders for unknown reason:")).

Definition bind_frag_data (support_dual_source : bool) (program : GLuint) : M unit :=
  if negb (USING_GLES2 cfg) then
    if support_dual_source then
      emit (glBindFragDataLocationIndexed program 0 0 "fragColor0") ;;
      emit (glBindFragDataLocationIndexed program 0 1 "fragColor1")
    else
      when (VersionGEThan_3_3_0 cfg)
        (emit (glBindFragDataLocation program 0 "fragColor0"))
  else if negb (IOS cfg) then
    when (GLES3 cfg && GPU_SUPPORTS_DUALSOURCE_BLEND cfg)
      (emit (glBindFragDataLocationIndexedEXT program 0 0 "fragColor0") ;;
       emit (glBindFragDataLocationIndexedEXT program 0 1 "fragColor1"))
  else ret tt.

Definition run_query (program : GLuint) (x : UniformLocQuery.t) : M unit :=
  emit (glGetUniformLocation program (UniformLocQuery.name x)) ;;
  update ints store_int (UniformLocQuery.dest x)
    (fun _ => uniformLocation dev program (UniformLocQuery.name x)).

Definition run_initializer (init : Initializer.t) : M unit :=
  uniform ← deref ints (Initializer.uniform init);
  when (negb (uniform =? -1))
    (if Initializer.type init =? 0
     then emit (glUniform1i uniform (Initializer.value init))
     else ret tt).

(** One trip through the loop of RunInitSteps.  The debug-only macros
    ([_dbg_assert_msg_], [CHECK_GL_ERROR_IF_DEBUG]) expand to nothing in a
    release build and are left out. *)
Definition RunInitStep (step : GLRInitStep) : M unit :=
  match step with
  | CREATE_TEXTURE texture =>
      tex ← deref textures texture;
      emit (glGenTextures 1) ;;
      name ← gen_name;
      update textures store_texture texture
        (fun t => GLRTexture.mk name (GLRTexture.target t)) ;;
      emit (glBindTexture (GLRTexture.target tex) name)
  | CREATE_BUFFER buffer size usage =>
      buf ← deref buffers buffer;
      emit (glGenBuffers 1) ;;
      name ← gen_name;
      update buffers store_buffer buffer
        (fun b => GLRBuffer.mk name (GLRBuffer.target_ b)) ;;
      emit (glBindBuffer (GLRBuffer.target_ buf) name) ;;
      emit (glBufferData (GLRBuffer.target_ buf) size nullptr usage)
  | BUFFER_SUBDATA buffer offset size data deleteData =>
      buf ← deref buffers buffer;
      emit (glBindBuffer GL_ARRAY_BUFFER (GLRBuffer.buffer buf)) ;;
      emit (glBufferSubData GL_ARRAY_BUFFER offset size data) ;;
      when deleteData (emit (delete_array data))
  | CREATE_PROGRAM program step_shaders support_dual_source =>
      prog ← deref programs program;
      emit glCreateProgram ;;
      name ← gen_name;
      update programs store_program program
        (fun p => GLRProgram.mk name (GLRProgram.semantics_ p)
                    (GLRProgram.queries_ p) (GLRProgram.initialize_ p)) ;;
      let num_shaders := Z.of_nat (length step_shaders) in
      _assert_msg_ (0 <? num_shaders) "Can't create a program with zero shaders" ;;
      for_each step_shaders (fun s =>
        sh ← deref shaders s;
        emit (glAttachShader name (GLRShader.shader sh))) ;;
      for_each (GLRProgram.semantics_ prog) (fun iter =>
        emit (glBindAttribLocation name (Semantic.location iter) (Semantic.attrib iter))) ;;
      bind_frag_data support_dual_source name ;;
      emit (glLinkProgram name) ;;
      emit (glGetProgramiv name GL_LINK_STATUS) ;;
      if negb (linkStatus dev name =? GL_TRUE) then
        link_failed name num_shaders
      else
        emit (glUseProgram name) ;;
        for_each (GLRProgram.queries_ prog) (run_query name) ;;
        for_each (GLRProgram.initialize_ prog) run_initializer
  | CREATE_SHADER shader stage code =>
      emit (glCreateShader stage) ;;
      name ← gen_name;
      update shaders store_shader shader
        (fun s => GLRShader.mk name (GLRShader.valid s)) ;;
      emit (glShaderSource name code) ;;
      emit (delete_array code) ;;
      emit (glCompileShader name) ;;
      emit (glGetShaderiv name GL_COMPILE_STATUS) ;;
      let success := compileStatus dev name in
      when (success =? 0)
        (emit (glGetShaderInfoLog name MAX_INFO_LOG_SIZE) ;;
         let infoLog := shaderInfoLog dev name in
         emit (glDeleteShader name) ;;
         emit (ILOG ((if stage =? GL_FRAGMENT_SHADER then "Fragment" else "Vertex")
                     +:+ " Shader compile error:" +:+ nl +:+ infoLog)) ;;
         update shaders store_shader shader
           (fun s => GLRShader.mk (GLRShader.shader s) false)) ;;
      update shaders store_shader shader
        (fun s => GLRShader.mk (GLRShader.shader s) true)
  | CREATE_INPUT_LAYOUT inputLayout => ret tt
  | CREATE_FRAMEBUFFER => ret tt
  | TEXTURE_SUBDATA => ret tt
  | TEXTURE_IMAGE texture level internalFormat width height format type data linearFilter =>
      tex ← deref textures texture;
      emit (glTexImage2D (GLRTexture.target tex) level internalFormat width height 0
              format type data) ;;
      emit (delete_array data) ;;
      emit (glTexParameteri GL_TEXTURE_2D GL_TEXTURE_WRAP_S GL_CLAMP_TO_EDGE) ;;
      emit (glTexParameteri GL_TEXTURE_2D GL_TEXTURE_WRAP_T GL_CLAMP_TO_EDGE) ;;
      emit (glTexParameteri GL_TEXTURE_2D GL_TEXTURE_MAG_FILTER
              (if linearFilter then GL_LINEAR else GL_NEAREST)) ;;
      emit (glTexParameteri GL_TEXTURE_2D GL_TEXTURE_MIN_FILTER
              (if linearFilter then GL_LINEAR else GL_NEAREST))
  | UNKNOWN_INIT_STEP _ => Crash
  end.

Definition RunInitSteps (steps : list GLRInitStep) : M unit :=
  for_each steps RunInitStep.

(** *** PerformRenderPass *)

Definition PerformBindFramebufferAsRenderTarget (framebuffer : ptr) : M unit :=
  r ← get_runner;
  match framebuffer with
  | Some _ =>
      fb ← deref framebuffers framebuffer;
      put_runner (set_curFB (GLRFramebuffer.width fb) (GLRFramebuffer.height fb) r)
  | None =>
      put_runner (set_curFB (targetWidth_ r) (targetHeight_ r) r)
  end.

(** The locals of PerformRenderPass that the command loop reads and writes. *)
Record Shadow := mkShadow {
  curProgram : ptr;
  activeTexture : GLint;
  attrMask : Z }.

Definition cast_int (f : float) : M Z :=
  match f32_to_int f with Some z => ret z | None => undefined end.

Definition nonzero (z : Z) : bool := negb (z =? 0).

(** [int loc = c.uniform4.loc ? *c.uniform4.loc : -1; if (c.uniform4.name)
    loc = curProgram->GetUniformLoc(c.uniform4.name);] *)
Definition resolve_loc (sh : Shadow) (name : option string) (loc : ptr) : M GLint :=
  loc0 ← match loc with
         | Some _ => deref ints loc
         | None => ret (-1)
         end;
  match name with
  | Some n => p ← deref programs (curProgram sh); ret (GetUniformLoc env p n)
  | None => ret loc0
  end.

Definition zero_f : float := S754_zero false.

Definition attr_loop (enable disable : Z) : M unit :=
  for_each (seq 0 SEM_MAX) (fun i =>
    when (nonzero (Z.land enable (Z.shiftl 1 (Z.of_nat i))))
      (emit (glEnableVertexAttribArray (Z.of_nat i))) ;;
    when (nonzero (Z.land disable (Z.shiftl 1 (Z.of_nat i))))
      (emit (glDisableVertexAttribArray (Z.of_nat i)))).

Definition PerformCommand (c : GLRRenderData) (sh : Shadow) : M Shadow :=
  match c with
  | DEPTH enabled write func =>
      (if enabled then
         emit (glEnable GL_DEPTH_TEST) ;;
         emit (glDepthMask write) ;;
         emit (glDepthFunc func)
       else emit (glDisable GL_DEPTH_TEST)) ;;
      ret sh
  | BLEND enabled funcColor funcAlpha srcColor dstColor srcAlpha dstAlpha mask =>
      (if enabled then
         emit (glEnable GL_BLEND) ;;
         emit (glBlendEquationSeparate funcColor funcAlpha) ;;
         emit (glBlendFuncSeparate srcColor dstColor srcAlpha dstAlpha)
       else emit (glDisable GL_BLEND)) ;;
      emit (glColorMask (Z.land mask 1) (Z.land (Z.shiftr mask 1) 1)
              (Z.land (Z.shiftr mask 2) 1) (Z.land (Z.shiftr mask 3) 1)) ;;
      ret sh
  | CLEAR clearMask clearColor clearZ clearStencil =>
      emit (glDisable GL_SCISSOR_TEST) ;;
      emit (glColorMask GL_TRUE GL_TRUE GL_TRUE GL_TRUE) ;;
      when (nonzero (Z.land clearMask GL_COLOR_BUFFER_BIT))
        (emit (glClearColor (Uint8x4ToFloat4 env clearColor))) ;;
      when (nonzero (Z.land clearMask GL_DEPTH_BUFFER_BIT))
        (if USING_GLES2 cfg then emit (glClearDepthf clearZ)
         else emit (glClearDepth clearZ)) ;;
      when (nonzero (Z.land clearMask GL_STENCIL_BUFFER_BIT))
        (emit (glClearStencil clearStencil)) ;;
      emit (glClear clearMask) ;;
      emit (glEnable GL_SCISSOR_TEST) ;;
      ret sh
  | BLENDCOLOR color =>
      emit (glBlendColor (nth 0 color zero_f) (nth 1 color zero_f)
              (nth 2 color zero_f) (nth 3 color zero_f)) ;;
      ret sh
  | VIEWPORT vp =>
      r ← get_runner;
      let y := GLRViewport.y vp in
      let y := if curFramebuffer_ r is None
               then f32_sub (f32_sub (f32_of_int (curFBHeight_ r)) y) (GLRViewport.h vp)
               else y in
      vx ← cast_int (GLRViewport.x vp);
      vy ← cast_int y;
      vw ← cast_int (GLRViewport.w vp);
      vh ← cast_int (GLRViewport.h vp);
      emit (glViewport vx vy vw vh) ;;
      emit (glDepthRange (GLRViewport.minZ vp) (GLRViewport.maxZ vp)) ;;
      ret sh
  | SCISSOR rc =>
      r ← get_runner;
      let y := GLRect2D.y rc in
      let y := if curFramebuffer_ r is None
               then wrap_int (wrap_int (curFBHeight_ r - y) - GLRect2D.h rc)
               else y in
      emit (glScissor (GLRect2D.x rc) y (GLRect2D.w rc) (GLRect2D.h rc)) ;;
      ret sh
  | UNIFORM4F name loc count v =>
      l ← resolve_loc sh name loc;
      when (0 <=? l)
        (if count =? 1 then emit (glUniform1f l (nth 0 v 0))
         else if count =? 2 then emit (glUniform2fv l 1 (firstn 2 v))
         else if count =? 3 then emit (glUniform3fv l 1 (firstn 3 v))
         else if count =? 4 then emit (glUniform4fv l 1 (firstn 4 v))
         else ret tt) ;;
      ret sh
  | UNIFORM4I name loc count v =>
      l ← resolve_loc sh name loc;
      when (0 <=? l)
        (if count =? 1 then emit (glUniform1iv l 1 (firstn 1 v))
         else if count =? 2 then emit (glUniform2iv l 1 (firstn 2 v))
         else if count =? 3 then emit (glUniform3iv l 1 (firstn 3 v))
         else if count =? 4 then emit (glUniform4iv l 1 (firstn 4 v))
         else ret tt) ;;
      ret sh
  | UNIFORMMATRIX name loc m =>
      l ← resolve_loc sh name loc;
      when (0 <=? l) (emit (glUniformMatrix4fv l 1 false m)) ;;
      ret sh
  | STENCILFUNC enabled func ref compareMask =>
      (if enabled then
         emit (glEnable GL_STENCIL_TEST) ;;
         emit (glStencilFunc func ref compareMask)
       else emit (glDisable GL_STENCIL_TEST)) ;;
      ret sh
  | STENCILOP sFail zFail pass writeMask =>
      emit (glStencilOp sFail zFail pass) ;;
      emit (glStencilMask writeMask) ;;
      ret sh
  | BINDTEXTURE slot texture =>
      sh' ← (if negb (slot =? activeTexture sh) then
               emit (glActiveTexture (wrap_uint (GL_TEXTURE0 + slot))) ;;
               ret (mkShadow (curProgram sh) slot (attrMask sh))
             else ret sh);
      match texture with
      | Some _ =>
          tex ← deref textures texture;
          emit (glBindTexture (GLRTexture.target tex) (GLRTexture.texture tex))
      | None => emit (glBindTexture GL_TEXTURE_2D 0)
      end ;;
      ret sh'
  | BINDPROGRAM program =>
      p ← deref programs program;
      emit (glUseProgram (GLRProgram.program p)) ;;
      ret (mkShadow program (activeTexture sh) (attrMask sh))
  | BIND_INPUT_LAYOUT inputLayout offset =>
      layout ← deref inputLayouts inputLayout;
      let enable := Z.land (GLRInputLayout.semanticsMask_ layout) (Z.lnot (attrMask sh)) in
      let disable := Z.land (Z.lnot (GLRInputLayout.semanticsMask_ layout)) (attrMask sh) in
      attr_loop enable disable ;;
      for_each (GLRInputLayout.entries layout) (fun entry =>
        emit (glVertexAttribPointer (Entry.location entry) (Entry.count entry)
                (Entry.type entry) (Entry.normalized entry) (Entry.stride entry)
                (offset + Entry.offset entry))) ;;
      ret (mkShadow (curProgram sh) (activeTexture sh)
             (GLRInputLayout.semanticsMask_ layout))
  | BIND_VERTEX_BUFFER buffer =>
      buf ← match buffer with
            | Some _ => b ← deref buffers buffer; ret (GLRBuffer.buffer b)
            | None => ret 0
            end;
      emit (glBindBuffer GL_ARRAY_BUFFER buf) ;;
      ret sh
  | BIND_INDEX_BUFFER buffer =>
      buf ← match buffer with
            | Some _ => b ← deref buffers buffer; ret (GLRBuffer.buffer b)
            | None => ret 0
            end;
      emit (glBindBuffer GL_ELEMENT_ARRAY_BUFFER buf) ;;
      ret sh
  | GENMIPS =>
      emit (glGenerateMipmap GL_TEXTURE_2D) ;;
      ret sh
  | DRAW mode first count =>
      emit (glDrawArrays mode first count) ;;
      ret sh
  | DRAW_INDEXED mode count indexType indices instances =>
      when (instances =? 1) (emit (glDrawElements mode count indexType indices)) ;;
      ret sh
  | TEXTURESAMPLER wrapS wrapT magFilter minFilter anisotropy =>
      emit (glTexParameteri GL_TEXTURE_2D GL_TEXTURE_WRAP_S wrapS) ;;
      emit (glTexParameteri GL_TEXTURE_2D GL_TEXTURE_WRAP_T wrapT) ;;
      emit (glTexParameteri GL_TEXTURE_2D GL_TEXTURE_MAG_FILTER magFilter) ;;
      emit (glTexParameteri GL_TEXTURE_2D GL_TEXTURE_MIN_FILTER minFilter) ;;
      when (negb (f32_is_zero anisotropy))
        (emit (glTexParameterf GL_TEXTURE_2D GL_TEXTURE_MAX_ANISOTROPY_EXT anisotropy)) ;;
      ret sh
  | RASTER cullEnable frontFace cullFace ditherEnable =>
      (if cullEnable then
         emit (glEnable GL_CULL_FACE) ;;
         emit (glFrontFace frontFace) ;;
         emit (glCullFace cullFace)
       else emit (glDisable GL_CULL_FACE)) ;;
      (if ditherEnable then emit (glEnable GL_DITHER)
       else emit (glDisable GL_DITHER)) ;;
      ret sh
  | UNKNOWN_COMMAND _ => Crash
  end.

(** The [for (const auto &c : commands)] loop, threading the locals. *)
Fixpoint PerformCommands (commands : list GLRRenderData) (sh : Shadow) : M Shadow :=
  match commands with
  | [] => ret sh
  | c :: rest => sh' ← PerformCommand c sh; PerformCommands rest sh'
  end.

Definition PerformRenderPass (framebuffer : ptr) (commands : list GLRRenderData) : M unit :=
  match commands with
  | [] => ret tt
  | _ =>
      PerformBindFramebufferAsRenderTarget framebuffer ;;
      emit (glEnable GL_SCISSOR_TEST) ;;
      r ← get_runner;
      emit (glBindVertexArray (globalVAO_ r)) ;;
      emit (glBindBuffer GL_ARRAY_BUFFER 0) ;;
      emit (glBindBuffer GL_ELEMENT_ARRAY_BUFFER 0) ;;
      sh ← PerformCommands commands (mkShadow nullptr GL_TEXTURE0 0);
      for_each (seq 0 SEM_MAX) (fun i =>
        when (nonzero (Z.land (attrMask sh) (Z.shiftl 1 (Z.of_nat i))))
          (emit (glDisableVertexAttribArray (Z.of_nat i)))) ;;
      when (negb (activeTexture sh =? GL_TEXTURE0))
        (emit (glActiveTexture GL_TEXTURE0)) ;;
      emit (glBindBuffer GL_ARRAY_BUFFER 0) ;;
      emit (glBindBuffer GL_ELEMENT_ARRAY_BUFFER 0) ;;
      emit (glBindVertexArray 0) ;;
      emit (glDisable GL_SCISSOR_TEST)
  end.

(** *** PerformCopy and the stubs *)

Definition PerformCopy (copy_src copy_dst : ptr) (srcRect : GLRect2D.t)
    (dstPos : GLOffset2D.t) (aspectMask : Z) : M unit :=
  let src := copy_src in
  let dst := copy_src in
  let srcLevel := 0 in
  let dstLevel := 0 in
  let srcZ := 0 in
  let dstZ := 0 in
  let depth := 1 in
  '(srcTex, dstTex, target) ←
    (if aspectMask =? GL_COLOR_BUFFER_BIT then
       s ← deref framebuffers src;
       d ← deref framebuffers dst;
       ret (GLRFramebuffer.color_texture s, GLRFramebuffer.color_texture d, GL_TEXTURE_2D)
     else if aspectMask =? GL_DEPTH_BUFFER_BIT then
       s ← deref framebuffers src;
       ret (GLRFramebuffer.depth_texture s, GLRFramebuffer.depth_texture s, GL_RENDERBUFFER)
     else ret (0, 0, GL_TEXTURE_2D));
  if USING_GLES2 cfg then
    when (negb (IOS cfg))
      (emit (glCopyImageSubDataOES
               srcTex target srcLevel (GLRect2D.x srcRect) (GLRect2D.y srcRect) srcZ
               dstTex target dstLevel (GLOffset2D.x dstPos) (GLOffset2D.y dstPos) dstZ
               (GLRect2D.w srcRect) (GLRect2D.h srcRect) depth))
  else if ARB_copy_image cfg then
    emit (glCopyImageSubData
            srcTex target srcLevel (GLRect2D.x srcRect) (GLRect2D.y srcRect) srcZ
            dstTex target dstLevel (GLOffset2D.x dstPos) (GLOffset2D.y dstPos) dstZ
            (GLRect2D.w srcRect) (GLRect2D.h srcRect) depth)
  else if NV_copy_image cfg then
    emit (glCopyImageSubDataNV
            srcTex target srcLevel (GLRect2D.x srcRect) (GLRect2D.y srcRect) srcZ
            dstTex target dstLevel (GLOffset2D.x dstPos) (GLOffset2D.y dstPos) dstZ
            (GLRect2D.w srcRect) (GLRect2D.h srcRect) depth)
  else ret tt.

Definition PerformBlit : M unit := ret tt.
Definition PerformReadback : M unit := ret tt.
Definition PerformReadbackImage : M unit := ret tt.
Definition LogSteps (steps : list GLRStep) : M unit := ret tt.
Definition CopyReadbackBuffer (width height : Z) (srcFormat destFormat : Z)
    (pixelStride : Z) (pixels : ptr) : M unit := ret tt.

(** *** RunSteps *)

Definition RunStep (step : GLRStep) : M unit :=
  match step with
  | RENDER framebuffer commands => PerformRenderPass framebuffer commands
  | COPY src dst srcRect dstPos aspectMask => PerformCopy src dst srcRect dstPos aspectMask
  | BLIT => PerformBlit
  | READBACK => PerformReadback
  | READBACK_IMAGE => PerformReadbackImage
  | UNKNOWN_STEP _ => Crash
  end.

(** [i] is the index of the first step of [steps] in the vector. *)
Fixpoint RunSteps_from (i : nat) (steps : list GLRStep) : M unit :=
  match steps with
  | [] => ret tt
  | step :: rest => RunStep step ;; emit (delete_step i) ;; RunSteps_from (S i) rest
  end.

Definition RunSteps (steps : list GLRStep) : M unit := RunSteps_from 0 steps.

(** *** AllocTextureName *)

Definition AllocTextureName : M GLuint :=
  r ← get_runner;
  when (bool_decide (nameCache_ r = []))
    (emit (glGenTextures (Z.of_nat TEXCACHE_NAME_CACHE_SIZE)) ;;
     names ← gen_names TEXCACHE_NAME_CACHE_SIZE;
     put_runner (set_nameCache_ names r)) ;;
  r ← get_runner;
  match last (nameCache_ r) with
  | Some name =>
      put_runner (set_nameCache_ (removelast (nameCache_ r)) r) ;;
      ret name
  | None => undefined
  end.

End Runner.


(** * Vocabulary of the statements *)

Definition is_upload (e : Event) : bool :=
  match e with glBufferSubData _ _ _ _ => true | _ => false end.
Definition is_delete_array (e : Event) : bool :=
  match e with delete_array _ => true | _ => false end.
Fixpoint count_events (f : Event -> bool) (es : list Event) : nat :=
  match es with
  | [] => 0%nat
  | e :: es' => ((if f e then 1 else 0) + count_events f es')%nat
  end.

(** The destination texture name of a region-copy call. *)
Definition copy_dstName (e : Event) : option GLuint :=
  match e with
  | glCopyImageSubData _ _ _ _ _ _ dstName _ _ _ _ _ _ _ _
  | glCopyImageSubDataNV _ _ _ _ _ _ dstName _ _ _ _ _ _ _ _
  | glCopyImageSubDataOES _ _ _ _ _ _ dstName _ _ _ _ _ _ _ _ => Some dstName
  | _ => None
  end.

(** Some region-copy entry point is compiled in and available. *)
Definition copy_capable (cfg : Config) : bool :=
  if USING_GLES2 cfg then negb (IOS cfg)
  else ARB_copy_image cfg || NV_copy_image cfg.

(** The calls the capability cascade at the end of PerformCopy issues. *)
Definition region_copy_calls (cfg : Config) (srcTex dstTex : GLuint) (target : GLenum)
    (srcRect : GLRect2D.t) (dstPos : GLOffset2D.t) : list Event :=
  let args (call : GLuint -> GLenum -> Z -> Z -> Z -> Z ->
                   GLuint -> GLenum -> Z -> Z -> Z -> Z -> Z -> Z -> Z -> Event) :=
    call srcTex target 0 (GLRect2D.x srcRect) (GLRect2D.y srcRect) 0
         dstTex target 0 (GLOffset2D.x dstPos) (GLOffset2D.y dstPos) 0
         (GLRect2D.w srcRect) (GLRect2D.h srcRect) 1 in
  if USING_GLES2 cfg then
    if IOS cfg then [] else [args glCopyImageSubDataOES]
  else if ARB_copy_image cfg then [args glCopyImageSubData]
  else if NV_copy_image cfg then [args glCopyImageSubDataNV]
  else [].

(** The enable and disable calls of one trip through the slot loop. *)
Definition slot_events (en dis : nat -> bool) (i : nat) : list Event :=
  (if en i then [glEnableVertexAttribArray (Z.of_nat i)] else [])
  ++ (if dis i then [glDisableVertexAttribArray (Z.of_nat i)] else []).

Definition mask_bit (mask : Z) (i : nat) : bool :=
  nonzero (Z.land mask (Z.shiftl 1 (Z.of_nat i))).

Definition is_enable (i : nat) (e : Event) : bool :=
  match e with glEnableVertexAttribArray k => k =? Z.of_nat i | _ => false end.
Definition is_disable (i : nat) (e : Event) : bool :=
  match e with glDisableVertexAttribArray k => k =? Z.of_nat i | _ => false end.

Definition pointer_event (offset : Z) (entry : Entry.t) : Event :=
  glVertexAttribPointer (Entry.location entry) (Entry.count entry) (Entry.type entry)
    (Entry.normalized entry) (Entry.stride entry) (offset + Entry.offset entry).

(** The claim as worded: every slot of N that is not in M gets one enable. *)
Definition enables_every_new_slot : Prop :=
  forall (env : Env) (a : loc) (layout : GLRInputLayout.t) (offset : Z)
         (sh sh' : Shadow) (w : World) (es : list Event),
    inputLayouts (heap w) !! a = Some layout ->
    PerformCommand env (BIND_INPUT_LAYOUT (Some a) offset) sh w = Ok sh' (issue es w) ->
    forall i : nat,
      Z.testbit (GLRInputLayout.semanticsMask_ layout) (Z.of_nat i) = true ->
      Z.testbit (attrMask sh) (Z.of_nat i) = false ->
      count_events (is_enable i) es = 1%nat.

(** [n] consecutive calls of AllocTextureName; the names in call order. *)
Fixpoint AllocTextureNames (env : Env) (n : nat) : M (list GLuint) :=
  match n with
  | O => ret []
  | S n' =>
      name ← AllocTextureName env;
      rest ← AllocTextureNames env n';
      ret (name :: rest)
  end.

Definition is_glGenTextures (e : Event) : bool :=
  match e with glGenTextures _ => true | _ => false end.

Definition steps {A} (R : World -> World -> Prop) (m : M A) : Prop :=
  forall w a w', m w = Ok a w' -> R w w'.

Class Observation (R : World -> World -> Prop) (P : Event -> Prop) : Prop := {
  obs_preorder :: PreOrder R;
  obs_issue : forall e w, P e -> R w (issue [e] w) }.

(** The relation does not look at the device counter, nor at the records
    init steps write: textures, buffers, shaders, programs, location cells. *)
Class HeapBlind (R : World -> World -> Prop) : Prop :=
  heap_blind : forall w w',
    runner w' = runner w -> trace w' = trace w ->
    inputLayouts (heap w') = inputLayouts (heap w) ->
    framebuffers (heap w') = framebuffers (heap w) ->
    R w w'.

(** The relation does not look at the current framebuffer dimensions. *)
Class DimsBlind (R : World -> World -> Prop) : Prop :=
  dims_blind : forall width height w,
    R w (mkWorld (set_curFB width height (runner w)) (heap w) (generated w) (trace w)).

(** The runner's [curFramebuffer_] is what it was. *)
Definition same_curFramebuffer_ (w w' : World) : Prop :=
  curFramebuffer_ (runner w') = curFramebuffer_ (runner w).

(** The trace grew by events that all satisfy [P]. *)
Definition extends_trace (P : Event -> Prop) (w w' : World) : Prop :=
  exists es, issued w' = issued w ++ es /\ Forall P es.

Definition is_draw_elements (e : Event) : bool :=
  match e with glDrawElements _ _ _ _ => true | _ => false end.

(** The indexed draws of a command list that ask for one instance. *)
Fixpoint single_instance_draws (commands : list GLRRenderData) : nat :=
  match commands with
  | [] => 0%nat
  | DRAW_INDEXED _ _ _ _ instances :: rest =>
      ((if (instances =? 1)%Z then 1 else 0) + single_instance_draws rest)%nat
  | _ :: rest => single_instance_draws rest
  end.

(** A device call, as opposed to what the runner does on the host side
    (releasing payloads and steps, logging). *)
Definition is_gl_call (e : Event) : bool :=
  match e with
  | delete_array _ | delete_step _ | ELOG _ | ILOG _ | OutputDebugStringUTF8 _ => false
  | _ => true
  end.

(** The index of the step a [delete steps[i]] releases. *)
Definition deleted_step (e : Event) : option nat :=
  match e with delete_step i => Some i | _ => None end.

(** The runner, the input layouts and the framebuffers are what they were. *)
Definition init_untouched (w w' : World) : Prop :=
  runner w' = runner w /\
  inputLayouts (heap w') = inputLayouts (heap w) /\
  framebuffers (heap w') = framebuffers (heap w).

(** Nothing but the trace and the current framebuffer dimensions changed. *)
Definition only_dims_and_trace (w w' : World) : Prop :=
  heap w' = heap w /\ generated w' = generated w /\
  exists width height, runner w' = set_curFB width height (runner w).

(** [returns Q m]: whatever a completed run of [m] returns satisfies [Q]. *)
Definition returns {A} (Q : A -> Prop) (m : M A) : Prop :=
  forall w a w', m w = Ok a w' -> Q a.

Definition is_bind_program (c : GLRRenderData) : bool :=
  match c with BINDPROGRAM _ => true | _ => false end.
Definition is_bind_texture (c : GLRRenderData) : bool :=
  match c with BINDTEXTURE _ _ => true | _ => false end.
Definition is_bind_input_layout (c : GLRRenderData) : bool :=
  match c with BIND_INPUT_LAYOUT _ _ => true | _ => false end.

(** A uniform upload that names its uniform instead of carrying a location. *)
Definition uniform_by_name (c : GLRRenderData) : bool :=
  match c with
  | UNIFORM4F (Some _) _ _ _ | UNIFORM4I (Some _) _ _ _ | UNIFORMMATRIX (Some _) _ _ => true
  | _ => false
  end.

Definition is_attr_toggle (e : Event) : bool :=
  match e with
  | glEnableVertexAttribArray _ | glDisableVertexAttribArray _ => true
  | _ => false
  end.

(** 1 when the pass holds attribute slot [i] enabled under shadow mask
    [mask]: the slot is one the loops visit and its bit is set. *)
Definition tracked (i : nat) (mask : Z) : nat :=
  if (i <? SEM_MAX)%nat && mask_bit mask i then 1%nat else 0%nat.

(** The texture unit a call selects. *)
Definition selected_unit (e : Event) : option GLenum :=
  match e with glActiveTexture u => Some u | _ => None end.

(** The slot indices a command list binds textures to. *)
Definition texture_slots (commands : list GLRRenderData) : list Z :=
  flat_map (fun c => match c with BINDTEXTURE slot _ => [slot] | _ => [] end) commands.

(** Replays the calls [es] against the device's scissor-test switch, [on]
    at the start: [None] when a clear runs with the test on or a draw with it
    off, otherwise the switch at the end. *)
Fixpoint scissor_run (on : bool) (es : list Event) : option bool :=
  match es with
  | [] => Some on
  | e :: es =>
      match e with
      | glEnable cap => scissor_run (if cap =? GL_SCISSOR_TEST then true else on) es
      | glDisable cap => scissor_run (if cap =? GL_SCISSOR_TEST then false else on) es
      | glClear _ => if on then None else scissor_run on es
      | glDrawArrays _ _ _ | glDrawElements _ _ _ _ => if on then scissor_run on es else None
      | _ => scissor_run on es
      end
  end.

(** Calls that neither move the scissor switch nor depend on it. *)
Definition scissor_neutral (e : Event) : bool :=
  match e with
  | glEnable cap | glDisable cap => negb (cap =? GL_SCISSOR_TEST)
  | glClear _ | glDrawArrays _ _ _ | glDrawElements _ _ _ _ => false
  | _ => true
  end.

Definition is_clear (c : GLRRenderData) : bool :=
  match c with CLEAR _ _ _ _ => true | _ => false end.

(** The calls from [w] to [w'] take the scissor switch from [a] to [b],
    with every clear under a switched-off test and every draw under a
    switched-on one. *)
Definition scissor_moves (a b : bool) (w w' : World) : Prop :=
  exists es, issued w' = issued w ++ es /\ scissor_run a es = Some b.

(** The array a call frees. *)
Definition freed (e : Event) : option ptr :=
  match e with delete_array p => Some p | _ => None end.

(** The arrays the init steps of a batch own, in step order: the code of
    every CREATE_SHADER, the pixels of every TEXTURE_IMAGE, the data of each
    BUFFER_SUBDATA that says [deleteData]. *)
Definition payloads (steps_ : list GLRInitStep) : list ptr :=
  flat_map (fun step =>
    match step with
    | BUFFER_SUBDATA _ _ _ data true => [data]
    | CREATE_SHADER _ _ code => [code]
    | TEXTURE_IMAGE _ _ _ _ _ _ _ data _ => [data]
    | _ => []
    end) steps_.

(** The texture names the calls [es] delete. *)
Definition deleted_textures (es : list Event) : list GLuint :=
  flat_map (fun e => match e with glDeleteTextures names => names | _ => [] end) es.

(** The location cells after the uniform queries of a program have run, in
    order, on the cells [cells]. *)
Definition query_locations (dev : Device) (program : GLuint)
    (queries : list UniformLocQuery.t) (cells : gmap loc GLint) : gmap loc GLint :=
  foldl (fun m q =>
           match UniformLocQuery.dest q with
           | Some c => <[c := uniformLocation dev program (UniformLocQuery.name q)]> m
           | None => m
           end) cells queries.

(** The calls the initializers of a program issue when the location cells
    hold [cells]. *)
Definition initializer_calls (cells : gmap loc GLint) (inits : list Initializer.t)
    : list Event :=
  flat_map (fun init =>
              match Initializer.uniform init with
              | Some c =>
                  match (cells !! c : option GLint) with
                  | Some u =>
                      if negb (u =? -1) && (Initializer.type init =? 0)
                      then [glUniform1i u (Initializer.value init)] else []
                  | None => []
                  end
              | None => []
              end) inits.

(** The fragment-output bindings CREATE_PROGRAM issues before linking. *)
Definition frag_data_calls (cfg : Config) (support_dual_source : bool) (program : GLuint)
    : list Event :=
  if negb (USING_GLES2 cfg) then
    if support_dual_source then
      [glBindFragDataLocationIndexed program 0 0 "fragColor0";
       glBindFragDataLocationIndexed program 0 1 "fragColor1"]
    else if VersionGEThan_3_3_0 cfg then [glBindFragDataLocation program 0 "fragColor0"]
    else []
  else if negb (IOS cfg) then
    if GLES3 cfg && GPU_SUPPORTS_DUALSOURCE_BLEND cfg then
      [glBindFragDataLocationIndexedEXT program 0 0 "fragColor0";
       glBindFragDataLocationIndexedEXT program 0 1 "fragColor1"]
    else []
  else [].

(** The calls of CREATE_PROGRAM up to and including the link-status query. *)
Definition program_setup_calls (cfg : Config) (support_dual_source : bool)
    (program : GLuint) (shader_records : list GLRShader.t) (semantics : list Semantic.t)
    : list Event :=
  [glCreateProgram]
  ++ map (fun sh => glAttachShader program (GLRShader.shader sh)) shader_records
  ++ map (fun iter => glBindAttribLocation program (Semantic.location iter)
                        (Semantic.attrib iter)) semantics
  ++ frag_data_calls cfg support_dual_source program
  ++ [glLinkProgram program; glGetProgramiv program GL_LINK_STATUS].

(** [p] points to a location cell that exists. *)
Definition cell_is_live (cells : gmap loc GLint) (p : ptr) : Prop :=
  exists c, p = Some c /\ is_Some (cells !! c).

(** The render targets of the passes of a run that have commands. *)
Definition render_targets (steps_ : list GLRStep) : list ptr :=
  flat_map (fun step =>
    match step with
    | RENDER framebuffer (_ :: _) => [framebuffer]
    | _ => []
    end) steps_.

(** The current framebuffer dimensions. *)
Definition cur_dims (w : World) : Z * Z :=
  (curFBWidth_ (runner w), curFBHeight_ (runner w)).

(** The dimensions of a render target: those of the framebuffer record, or
    the runner's target dimensions for the default target. *)
Definition target_dims (framebuffer : ptr) (w : World) : option (Z * Z) :=
  match framebuffer with
  | Some a =>
      match framebuffers (heap w) !! a with
      | Some fb => Some (GLRFramebuffer.width fb, GLRFramebuffer.height fb)
      | None => None
      end
  | None => Some (targetWidth_ (runner w), targetHeight_ (runner w))
  end.

(** The vertex array object a call binds. *)
Definition bound_vao (e : Event) : option GLuint :=
  match e with glBindVertexArray v => Some v | _ => None end.

(** The vertex array bindings of a run on a runner whose object is [vao]:
    every pass with commands binds it and unbinds it. *)
Definition vao_binds (vao : GLuint) (steps_ : list GLRStep) : list GLuint :=
  flat_map (fun step =>
    match step with
    | RENDER _ (_ :: _) => [vao; 0]
    | _ => []
    end) steps_.

(** The runner's vertex array object is what it was, and no vertex array
    was bound on the way. *)
Definition vao_quiet (w w' : World) : Prop :=
  globalVAO_ (runner w') = globalVAO_ (runner w) /\
  omap bound_vao (issued w') = omap bound_vao (issued w).

(** * Concrete inputs used by the examples and witnesses *)

Definition dev0 : Device :=
  mkDevice (fun k => Z.of_nat k + 1) (S754_zero false)
    (fun _ => 1) (fun _ => "") (fun _ => GL_TRUE) (fun _ => 0) (fun _ => "")
    (fun _ _ => 0).
(** A desktop GL build with ARB_copy_image. *)
Definition cfg0 : Config := mkConfig false false false true false false true false.
Definition env0 : Env := mkEnv dev0 cfg0 (fun _ _ => 0) (fun _ => []).
(** A freshly constructed runner: empty name cache, no current framebuffer,
    a 480x200 backbuffer. *)
Definition runner0 : GLQueueRunner :=
  mkRunner (S754_zero false) 0 [] 0 0 480 200 nullptr.
Definition heap0 : Heap := mkHeap ∅ ∅ ∅ ∅ ∅ ∅ ∅.
Definition world0 : World := mkWorld runner0 heap0 0 [].
Definition shadow0 : Shadow := mkShadow nullptr GL_TEXTURE0 0.

Definition heap_buf : Heap :=
  mkHeap ∅ {[1%nat := GLRBuffer.mk 7 GL_ARRAY_BUFFER]} ∅ ∅ ∅ ∅ ∅.
Definition world_buf : World := mkWorld runner0 heap_buf 0 [].

(** A device on which every compile fails. *)
Definition dev_compile_fails : Device :=
  mkDevice (fun k => Z.of_nat k + 1) (S754_zero false)
    (fun _ => 0) (fun _ => "syntax error") (fun _ => GL_TRUE) (fun _ => 0)
    (fun _ => "") (fun _ _ => 0).
Definition env_compile_fails : Env :=
  mkEnv dev_compile_fails cfg0 (fun _ _ => 0) (fun _ => []).
Definition heap_shader : Heap :=
  mkHeap ∅ ∅ {[1%nat := GLRShader.mk 0 false]} ∅ ∅ ∅ ∅.
Definition world_shader : World := mkWorld runner0 heap_shader 0 [].

Definition vp_0_10_100_50 : GLRViewport.t :=
  GLRViewport.mk (f32_of_int 0) (f32_of_int 10) (f32_of_int 100) (f32_of_int 50)
    (f32_of_int 0) (f32_of_int 1).
Definition rc_0_10_100_50 : GLRect2D.t := GLRect2D.mk 0 10 100 50.
(** An offscreen framebuffer of height 200 at address 2. *)
Definition heap_fb : Heap :=
  mkHeap ∅ ∅ ∅ ∅ ∅ {[2%nat := GLRFramebuffer.mk 300 200 5 6]} ∅.
Definition world_fb : World := mkWorld runner0 heap_fb 0 [].

(** Source framebuffer at address 2 (colour 5, depth 6), destination
    framebuffer at address 3 (colour 8, depth 9). *)
Definition heap_copy : Heap :=
  mkHeap ∅ ∅ ∅ ∅ ∅
    (<[2%nat := GLRFramebuffer.mk 300 200 5 6]> {[3%nat := GLRFramebuffer.mk 30 20 8 9]}) ∅.
Definition world_copy : World := mkWorld runner0 heap_copy 0 [].
Definition rect0 : GLRect2D.t := GLRect2D.mk 0 0 16 16.
Definition pos0 : GLOffset2D.t := GLOffset2D.mk 4 4.

(** The same source, and a destination framebuffer at address 3 with other
    textures (colour 11, depth 12). *)
Definition heap_copy_other : Heap :=
  mkHeap ∅ ∅ ∅ ∅ ∅
    (<[2%nat := GLRFramebuffer.mk 300 200 5 6]> {[3%nat := GLRFramebuffer.mk 30 20 11 12]}) ∅.
Definition world_copy_other : World := mkWorld runner0 heap_copy_other 0 [].

(** A layout with mask 0b0110 at address 1. *)
Definition heap_layout6 : Heap :=
  mkHeap ∅ ∅ ∅ ∅ {[1%nat := GLRInputLayout.mk 6 []]} ∅ ∅.
Definition world_layout6 : World := mkWorld runner0 heap_layout6 0 [].

(** A layout with mask 0b10000000 at address 1. *)
Definition heap_layout128 : Heap :=
  mkHeap ∅ ∅ ∅ ∅ {[1%nat := GLRInputLayout.mk 128 []]} ∅ ∅.
Definition world_layout128 : World := mkWorld runner0 heap_layout128 0 [].

(** Two render steps, and the world a fresh runner is in after them. *)
Definition steps_two : list GLRStep := [RENDER nullptr [GENMIPS]; BLIT].
Definition world_after_two : World :=
  issue [glEnable GL_SCISSOR_TEST; glBindVertexArray 0;
         glBindBuffer GL_ARRAY_BUFFER 0; glBindBuffer GL_ELEMENT_ARRAY_BUFFER 0;
         glGenerateMipmap GL_TEXTURE_2D;
         glBindBuffer GL_ARRAY_BUFFER 0; glBindBuffer GL_ELEMENT_ARRAY_BUFFER 0;
         glBindVertexArray 0; glDisable GL_SCISSOR_TEST;
         delete_step 0; delete_step 1]
    (mkWorld (set_curFB 480 200 runner0) heap_copy 0 []).

(** Two init steps on the buffer at address 1, and the world after them. *)
Definition init_two : list GLRInitStep :=
  [BUFFER_SUBDATA (Some 1%nat) 0 64 (Some 9%nat) true; CREATE_BUFFER (Some 1%nat) 128 0x88E4].
Definition world_after_init_two : World :=
  issue [glBindBuffer GL_ARRAY_BUFFER 7;
         glBufferSubData GL_ARRAY_BUFFER 0 64 (Some 9%nat);
         delete_array (Some 9%nat);
         glGenBuffers 1; glBindBuffer GL_ARRAY_BUFFER 1;
         glBufferData GL_ARRAY_BUFFER 128 nullptr 0x88E4]
    (mkWorld runner0 (store_buffer 1%nat (GLRBuffer.mk 1 GL_ARRAY_BUFFER) heap_buf) 1 []).

Definition pass_bind_draw : list GLRRenderData :=
  [BIND_INPUT_LAYOUT (Some 1%nat) 0; BINDTEXTURE 1 nullptr; CLEAR 16384 0 (S754_zero false) 0;
   DRAW 4 0 3].

(** The world a fresh runner is in after the pass [pass_bind_draw]. *)
Definition world_after_pass : World :=
  issue [glEnable GL_SCISSOR_TEST; glBindVertexArray 0;
         glBindBuffer GL_ARRAY_BUFFER 0; glBindBuffer GL_ELEMENT_ARRAY_BUFFER 0;
         glEnableVertexAttribArray 1; glEnableVertexAttribArray 2;
         glActiveTexture (GL_TEXTURE0 + 1); glBindTexture GL_TEXTURE_2D 0;
         glDisable GL_SCISSOR_TEST; glColorMask 1 1 1 1; glClearColor [];
         glClear 16384; glEnable GL_SCISSOR_TEST;
         glDrawArrays 4 0 3;
         glDisableVertexAttribArray 1; glDisableVertexAttribArray 2;
         glActiveTexture GL_TEXTURE0;
         glBindBuffer GL_ARRAY_BUFFER 0; glBindBuffer GL_ELEMENT_ARRAY_BUFFER 0;
         glBindVertexArray 0; glDisable GL_SCISSOR_TEST]
    (mkWorld (set_curFB 480 200 runner0) heap_layout6 0 []).

(** Three draws, two of them indexed, and the world a fresh runner is in
    after a pass made of them. *)
Definition pass_three_draws : list GLRRenderData :=
  [DRAW_INDEXED 4 6 5123 0 1; DRAW_INDEXED 4 6 5123 0 2; DRAW 4 0 3].
Definition world_after_three_draws : World :=
  issue [glEnable GL_SCISSOR_TEST; glBindVertexArray 0;
         glBindBuffer GL_ARRAY_BUFFER 0; glBindBuffer GL_ELEMENT_ARRAY_BUFFER 0;
         glDrawElements 4 6 5123 0; glDrawArrays 4 0 3;
         glBindBuffer GL_ARRAY_BUFFER 0; glBindBuffer GL_ELEMENT_ARRAY_BUFFER 0;
         glBindVertexArray 0; glDisable GL_SCISSOR_TEST]
    (mkWorld (set_curFB 480 200 runner0) heap0 0 []).

(** A device on which every link fails, and a program record at address 2
    with one live shader at address 1. *)
Definition dev_link_fails : Device :=
  mkDevice (fun k => Z.of_nat k + 1) (S754_zero false)
    (fun _ => 1) (fun _ => "") (fun _ => 0) (fun _ => 0)
    (fun _ => "") (fun _ _ => 0).
Definition env_link_fails : Env :=
  mkEnv dev_link_fails cfg0 (fun _ _ => 0) (fun _ => []).
Definition heap_program : Heap :=
  mkHeap ∅ ∅ {[1%nat := GLRShader.mk 7 true]} {[2%nat := GLRProgram.mk 0 [] [] []]} ∅ ∅ ∅.
Definition world_program : World := mkWorld runner0 heap_program 0 [].

(** A device that knows the uniform [u_tex], at location 4, and a program
    record at address 2 that queries two uniforms into the cells at 5 and 6
    and has three initializers. *)
Definition dev_uniforms : Device :=
  mkDevice (fun k => Z.of_nat k + 1) (S754_zero false)
    (fun _ => 1) (fun _ => "") (fun _ => GL_TRUE) (fun _ => 0)
    (fun _ => "") (fun _ n => if String.eqb n "u_tex" then 4 else -1).
Definition env_uniforms : Env :=
  mkEnv dev_uniforms cfg0 (fun _ _ => 0) (fun _ => []).
Definition prog_tex : GLRProgram.t :=
  GLRProgram.mk 0 [Semantic.mk 0 "a_position"]
    [UniformLocQuery.mk (Some 5%nat) "u_tex"; UniformLocQuery.mk (Some 6%nat) "u_missing"]
    [Initializer.mk (Some 5%nat) 0 3; Initializer.mk (Some 6%nat) 0 1;
     Initializer.mk (Some 5%nat) 1 9].
Definition heap_program_tex : Heap :=
  mkHeap ∅ ∅ {[1%nat := GLRShader.mk 7 true]} {[2%nat := prog_tex]} ∅ ∅
    (<[5%nat := -1]> {[6%nat := 0]}).
Definition world_program_tex : World := mkWorld runner0 heap_program_tex 0 [].

(** Three steps, the first a pass on the framebuffer at address 2, and the
    world a fresh runner is in after them. *)
Definition steps_three : list GLRStep :=
  [RENDER (Some 2%nat) [GENMIPS]; RENDER nullptr []; BLIT].
Definition world_after_three : World :=
  issue [glEnable GL_SCISSOR_TEST; glBindVertexArray 0;
         glBindBuffer GL_ARRAY_BUFFER 0; glBindBuffer GL_ELEMENT_ARRAY_BUFFER 0;
         glGenerateMipmap GL_TEXTURE_2D;
         glBindBuffer GL_ARRAY_BUFFER 0; glBindBuffer GL_ELEMENT_ARRAY_BUFFER 0;
         glBindVertexArray 0; glDisable GL_SCISSOR_TEST;
         delete_step 0; delete_step 1; delete_step 2]
    (mkWorld (set_curFB 300 200 runner0) heap_copy 0 []).

(** The world a fresh runner with the buffer at address 1 is in after its
    whole life: CreateDeviceObjects, the batch [init_two], the run
    [steps_two], DestroyDeviceObjects. *)
Definition world_after_life : World :=
  issue [glGetFloatv GL_MAX_TEXTURE_MAX_ANISOTROPY_EXT; glGenVertexArrays 1;
         glBindBuffer GL_ARRAY_BUFFER 7;
         glBufferSubData GL_ARRAY_BUFFER 0 64 (Some 9%nat);
         delete_array (Some 9%nat);
         glGenBuffers 1; glBindBuffer GL_ARRAY_BUFFER 2;
         glBufferData GL_ARRAY_BUFFER 128 nullptr 0x88E4;
         glEnable GL_SCISSOR_TEST; glBindVertexArray 1;
         glBindBuffer GL_ARRAY_BUFFER 0; glBindBuffer GL_ELEMENT_ARRAY_BUFFER 0;
         glGenerateMipmap GL_TEXTURE_2D;
         glBindBuffer GL_ARRAY_BUFFER 0; glBindBuffer GL_ELEMENT_ARRAY_BUFFER 0;
         glBindVertexArray 0; glDisable GL_SCISSOR_TEST;
         delete_step 0; delete_step 1;
         glDeleteVertexArrays [1]]
    (mkWorld (mkRunner (S754_zero false) 1 [] 480 200 480 200 nullptr)
       (store_buffer 1%nat (GLRBuffer.mk 2 GL_ARRAY_BUFFER) heap_buf) 2 []).

(** * Properties *)

(** ** Traces, counting and loops *)

Lemma issue_nil (w : World) : issue [] w = w.
Proof. by destruct w. Qed.

Lemma rev_append_app {A} (l1 l2 acc : list A) :
  rev_append (l1 ++ l2) acc = rev_append l2 (rev_append l1 acc).
Proof. revert acc; induction l1 as [|a l1 IH]; intros acc; simpl; [done|apply IH]. Qed.

Lemma issue_issue (es1 es2 : list Event) (w : World) :
  issue es2 (issue es1 w) = issue (es1 ++ es2) w.
Proof. unfold issue; simpl. by rewrite rev_append_app. Qed.

Lemma issued_issue (es : list Event) (w : World) : issued (issue es w) = issued w ++ es.
Proof.
  unfold issued, issue; simpl. rewrite rev_append_rev, rev_app_distr.
  by rewrite rev_involutive.
Qed.

Lemma runner_issue es w : runner (issue es w) = runner w.
Proof. reflexivity. Qed.
Lemma heap_issue es w : heap (issue es w) = heap w.
Proof. reflexivity. Qed.
Lemma generated_issue es w : generated (issue es w) = generated w.
Proof. reflexivity. Qed.

Lemma count_events_app f es1 es2 :
  count_events f (es1 ++ es2) = (count_events f es1 + count_events f es2)%nat.
Proof. induction es1 as [|e es1 IH]; simpl; [done|rewrite IH; lia]. Qed.

Lemma count_events_none (f : Event -> bool) (es : list Event) :
  Forall (fun e => f e = false) es -> count_events f es = 0%nat.
Proof. induction 1 as [|e es He _ IH]; simpl; [done|]. by rewrite He, IH. Qed.

Lemma bind_Ok {A B} (m : M A) (k : A -> M B) (w : World) (b : B) (w' : World) :
  bind m k w = Ok b w' -> exists a w1, m w = Ok a w1 /\ k a w1 = Ok b w'.
Proof.
  unfold bind. destruct (m w) as [a w1| | |]; try discriminate.
  intros Hk. by exists a, w1.
Qed.

(** A [for] loop whose body only issues events issues their concatenation. *)
Lemma for_each_issue {A} (body : A -> M unit) (ev : A -> list Event) (l : list A) (w : World) :
  (forall a w', body a w' = Ok tt (issue (ev a) w')) ->
  for_each l body w = Ok tt (issue (flat_map ev l) w).
Proof.
  intros Hbody. revert w. induction l as [|a l IH]; intros w; simpl.
  - unfold ret. by rewrite issue_nil.
  - unfold bind. rewrite Hbody, IH. by rewrite issue_issue.
Qed.

(** A loop whose body, on every element of the list and in every world with
    the heap of the start, only issues events. *)
Lemma for_each_issue_in {A} (body : A -> M unit) (ev : A -> list Event)
    (l : list A) (w : World) :
  (forall a w', a ∈ l -> heap w' = heap w -> body a w' = Ok tt (issue (ev a) w')) ->
  for_each l body w = Ok tt (issue (flat_map ev l) w).
Proof.
  revert w. induction l as [|a l IH]; intros w Hbody; simpl.
  - unfold ret. by rewrite issue_nil.
  - unfold bind. rewrite Hbody by (done || apply list_elem_of_here).
    rewrite IH, issue_issue; [done|].
    intros a' w' Hin Hheap. apply Hbody; [by apply list_elem_of_further|exact Hheap].
Qed.

(** Symbolic execution of a monadic run: unfold the monad's operations,
    compute, and let [tac] rewrite the heap lookups that block computation. *)
Ltac run_with tac :=
  repeat (cbn -[genName];
          unfold bind, ret, emit, when, update, deref, get_heap, put_heap,
            get_runner, put_runner, undefined, Crash, issue;
          cbn; try tac).
Ltac run := run_with idtac.

(** ** What a run may change: a small logic of observations *)

(** [steps R m] says that every completed run of [m] relates the world it
    started in to the world it ends in by [R].  An [Observation] is a
    preorder that accepts every issued event that satisfies [P]; it is
    [HeapBlind] when it ignores the heap and the device counter, [DimsBlind]
    when it accepts the update of the current framebuffer dimensions.  Every
    operation a step is made of respects such relations. *)

#[global] Instance same_curFramebuffer_observation :
  Observation same_curFramebuffer_ (fun _ => True).
Proof.
  split.
  - split.
    + intros w. reflexivity.
    + intros w1 w2 w3 H12 H23. unfold same_curFramebuffer_ in *. congruence.
  - reflexivity.
Qed.

#[global] Instance same_curFramebuffer_heap_blind : HeapBlind same_curFramebuffer_.
Proof. intros w w' Hr _ _ _. unfold same_curFramebuffer_. by rewrite Hr. Qed.

#[global] Instance same_curFramebuffer_dims_blind : DimsBlind same_curFramebuffer_.
Proof. intros width height w. reflexivity. Qed.

#[global] Instance extends_trace_observation (P : Event -> Prop) :
  Observation (extends_trace P) P.
Proof.
  split.
  - split.
    + intros w. exists []. by rewrite app_nil_r.
    + intros w1 w2 w3 (es1 & H1 & HP1) (es2 & H2 & HP2).
      exists (es1 ++ es2). rewrite H2, H1, app_assoc. split; [done|by apply Forall_app].
  - intros e w He. exists [e]. rewrite issued_issue. split; [done|by constructor].
Qed.

#[global] Instance extends_trace_heap_blind (P : Event -> Prop) : HeapBlind (extends_trace P).
Proof. intros w w' _ Ht _ _. exists []. unfold issued. by rewrite Ht, app_nil_r. Qed.

#[global] Instance extends_trace_dims_blind (P : Event -> Prop) : DimsBlind (extends_trace P).
Proof. intros width height w. exists []. unfold issued; simpl. by rewrite app_nil_r. Qed.

Section Steps.
Context (R : World -> World -> Prop) (P : Event -> Prop) `{!Observation R P}.
Context `{!HeapBlind R} `{!DimsBlind R}.

Lemma steps_ret {A} (a : A) : steps R (ret a).
Proof. intros w a' w' [= <- <-]. reflexivity. Qed.

Lemma steps_bind {A B} (m : M A) (k : A -> M B) :
  steps R m -> (forall a, steps R (k a)) -> steps R (bind m k).
Proof.
  intros Hm Hk w b w'. unfold bind.
  destruct (m w) as [a w1| | |] eqn:Hrun; try discriminate.
  intros Hrun'. transitivity w1; [exact (Hm _ _ _ Hrun)|exact (Hk _ _ _ _ Hrun')].
Qed.

Lemma steps_emit (e : Event) : P e -> steps R (emit e).
Proof. intros He w a w' [= <- <-]. by apply obs_issue. Qed.

Lemma steps_when (b : bool) (m : M unit) : steps R m -> steps R (when b m).
Proof. destruct b; [done|intros _; apply steps_ret]. Qed.

Lemma steps_for_each {A} (l : list A) (body : A -> M unit) :
  (forall a, steps R (body a)) -> steps R (for_each l body).
Proof.
  intros Hbody. induction l as [|a l IH]; simpl.
  - apply steps_ret.
  - apply steps_bind; [apply Hbody|intros _; apply IH].
Qed.

Lemma steps_deref {A} (sel : Heap -> gmap loc A) (p : ptr) : steps R (deref sel p).
Proof.
  intros w a w'. unfold deref. destruct p as [l|]; [|discriminate].
  destruct (sel (heap w) !! l); [|discriminate].
  intros [= <- <-]. reflexivity.
Qed.

Lemma steps_get_runner : steps R get_runner.
Proof. intros w a w' [= <- <-]. reflexivity. Qed.

Lemma steps_undefined {A} : steps R (@undefined A).
Proof. intros w a w'. discriminate. Qed.

Lemma steps_Crash {A} : steps R (@Crash A).
Proof. intros w a w'. discriminate. Qed.

Lemma steps_assert_msg (cond : bool) (msg : string) : steps R (_assert_msg_ cond msg).
Proof.
  intros w a w'. unfold _assert_msg_. destruct cond; [|discriminate].
  intros [= <- <-]. reflexivity.
Qed.

Lemma steps_cast_int (f : float) : steps R (cast_int f).
Proof. unfold cast_int. destruct (f32_to_int f); [apply steps_ret|apply steps_undefined]. Qed.

Lemma steps_update {A} (sel : Heap -> gmap loc A) (store : loc -> A -> Heap -> Heap)
    (p : ptr) (f : A -> A) :
  (forall a x h, inputLayouts (store a x h) = inputLayouts h /\
                 framebuffers (store a x h) = framebuffers h) ->
  steps R (update sel store p f).
Proof.
  intros Hstore w a w'. unfold update, bind, deref, get_heap, put_heap.
  destruct p as [l|]; [|discriminate].
  destruct (sel (heap w) !! l) as [x|]; [|discriminate].
  intros [= <- <-]. apply heap_blind; try done; apply Hstore.
Qed.

Lemma steps_gen_name (env : Env) : steps R (gen_name env).
Proof. intros w a w' [= <- <-]. by apply heap_blind. Qed.

Lemma steps_PerformBindFramebufferAsRenderTarget (framebuffer : ptr) :
  steps R (PerformBindFramebufferAsRenderTarget framebuffer).
Proof.
  intros w a w'. unfold PerformBindFramebufferAsRenderTarget, bind, get_runner, put_runner, deref.
  destruct framebuffer as [l|].
  - destruct (framebuffers (heap w) !! l); [|discriminate].
    intros [= <- <-]. apply dims_blind.
  - intros [= <- <-]. apply dims_blind.
Qed.

End Steps.

(** Walk an operation along its structure; the goals left are the [P e] of
    the events it can issue. *)
Ltac steps_walk :=
  repeat lazymatch goal with
    | |- forall _, _ => intro
    | |- steps _ (if ?b then _ else _) => destruct b
    | |- steps _ (match ?x with _ => _ end) => destruct x
    | |- steps _ (bind _ _) => eapply steps_bind; [typeclasses eauto| |]
    | |- steps _ (when _ _) => eapply steps_when; [typeclasses eauto|]
    | |- steps _ (for_each _ _) => eapply steps_for_each; [typeclasses eauto|]
    | |- steps _ (emit _) => eapply steps_emit; [typeclasses eauto|]
    | |- steps _ (ret _) => eapply steps_ret; typeclasses eauto
    | |- steps _ (deref _ _) => eapply steps_deref; typeclasses eauto
    | |- steps _ get_runner => eapply steps_get_runner; typeclasses eauto
    | |- steps _ undefined => eapply steps_undefined
    | |- steps _ Crash => eapply steps_Crash
    | |- steps _ (_assert_msg_ _ _) => eapply steps_assert_msg; typeclasses eauto
    | |- steps _ (cast_int _) => eapply steps_cast_int; typeclasses eauto
    | |- steps _ (update _ _ _ _) =>
        eapply steps_update; [typeclasses eauto..|by intros]
    | |- steps _ (gen_name _) => eapply steps_gen_name; typeclasses eauto
    | |- steps _ (PerformBindFramebufferAsRenderTarget _) =>
        eapply steps_PerformBindFramebufferAsRenderTarget; typeclasses eauto
    end.

(** Every command respects every observation that accepts all events. *)
Lemma PerformCommand_steps R P `{!Observation R P}
    (env : Env) (c : GLRRenderData) (sh : Shadow) :
  (forall e, P e) -> steps R (PerformCommand env c sh).
Proof.
  intros HP.
  destruct c; unfold PerformCommand, resolve_loc, attr_loop; steps_walk; apply HP.
Qed.

Lemma PerformCommands_steps R P `{!Observation R P}
    (env : Env) (commands : list GLRRenderData) (sh : Shadow) :
  (forall e, P e) -> steps R (PerformCommands env commands sh).
Proof.
  intros HP. revert sh. induction commands as [|c rest IH]; intros sh; simpl.
  - steps_walk.
  - steps_walk; [by apply (PerformCommand_steps R P)|apply IH].
Qed.

Lemma PerformRenderPass_steps R P `{!Observation R P} `{!DimsBlind R}
    (env : Env) (framebuffer : ptr) (commands : list GLRRenderData) :
  (forall e, P e) -> steps R (PerformRenderPass env framebuffer commands).
Proof.
  intros HP. unfold PerformRenderPass. destruct commands as [|c rest]; [steps_walk|].
  steps_walk; try apply HP.
  by apply (PerformCommands_steps R P).
Qed.

Lemma PerformCopy_steps R P `{!Observation R P}
    (env : Env) (src dst : ptr) (srcRect : GLRect2D.t) (dstPos : GLOffset2D.t)
    (aspectMask : Z) :
  (forall e, P e) -> steps R (PerformCopy env src dst srcRect dstPos aspectMask).
Proof. intros HP. unfold PerformCopy. steps_walk; apply HP. Qed.

Lemma RunSteps_from_steps R P `{!Observation R P} `{!DimsBlind R}
    (env : Env) (i : nat) (steps_ : list GLRStep) :
  (forall e, P e) -> steps R (RunSteps_from env i steps_).
Proof.
  intros HP. revert i. induction steps_ as [|step rest IH]; intros i; simpl.
  - steps_walk.
  - steps_walk; [|apply HP|apply IH].
    destruct step; unfold RunStep, PerformBlit, PerformReadback, PerformReadbackImage;
      steps_walk.
    + by apply (PerformRenderPass_steps R P).
    + by apply (PerformCopy_steps R P).
Qed.

Lemma RunInitStep_steps R P `{!Observation R P} `{!HeapBlind R}
    (env : Env) (step : GLRInitStep) :
  (forall e, P e) -> steps R (RunInitStep env step).
Proof.
  intros HP.
  destruct step;
    unfold RunInitStep, link_failed, bind_frag_data, run_query, run_initializer;
    steps_walk; apply HP.
Qed.

Lemma no_draw_count {A} (m : M A) (w : World) (a : A) (w' : World) :
  steps (extends_trace (fun e => is_draw_elements e = false)) m ->
  m w = Ok a w' ->
  count_events is_draw_elements (issued w') = count_events is_draw_elements (issued w).
Proof.
  intros Hm Hrun. destruct (Hm _ _ _ Hrun) as (es & -> & Hes).
  rewrite count_events_app, (count_events_none _ es Hes). lia.
Qed.

(** ** Render passes *)

(** C6. A render pass whose command list is empty returns at once: the
    world it leaves is the world it found, so no device call is issued and no
    runner member (current framebuffer dimensions included), heap record or
    device counter changes; the per-pass shadow locals are not even created. *)
Theorem empty_render_pass_is_noop (env : Env) (framebuffer : ptr) (w : World) :
  PerformRenderPass env framebuffer [] w = Ok tt w.
Proof. reflexivity. Qed.

(** *** Indexed draws *)

(** What one DRAW_INDEXED command does. *)
Lemma draw_indexed_command
    (env : Env) (mode : GLenum) (count : Z) (indexType : GLenum) (indices instances : Z)
    (sh : Shadow) (w : World) :
  PerformCommand env (DRAW_INDEXED mode count indexType indices instances) sh w
  = Ok sh (issue (if instances =? 1 then [glDrawElements mode count indexType indices]
                  else []) w).
Proof.
  cbn; unfold when, bind. destruct (instances =? 1); cbn; [reflexivity|].
  by rewrite issue_nil.
Qed.

(** C8. An indexed-draw command issues exactly one [glDrawElements] when its
    instance count is 1; for every other instance count it issues nothing and
    still completes normally (no crash, no change of the world or of the
    shadow locals). *)
Theorem draw_indexed_only_single_instance
    (env : Env) (mode : GLenum) (count : Z) (indexType : GLenum) (indices instances : Z)
    (sh : Shadow) (w : World) :
  (instances = 1 ->
     PerformCommand env (DRAW_INDEXED mode count indexType indices instances) sh w
     = Ok sh (issue [glDrawElements mode count indexType indices] w)) /\
  (instances <> 1 ->
     PerformCommand env (DRAW_INDEXED mode count indexType indices instances) sh w
     = Ok sh w).
Proof.
  split; intros Hi; cbn; unfold when, bind.
  - subst instances. reflexivity.
  - destruct (Z.eqb_spec instances 1) as [->|_]; [contradiction|reflexivity].
Qed.

Lemma draw_indexed_only_single_instance_witness :
  PerformCommand env0 (DRAW_INDEXED 4 6 0x1403 0 1) shadow0 world0
    = Ok shadow0 (issue [glDrawElements 4 6 0x1403 0] world0) /\
  PerformCommand env0 (DRAW_INDEXED 4 6 0x1403 0 2) shadow0 world0
    = Ok shadow0 world0.
Proof.
  split.
  - apply (proj1 (draw_indexed_only_single_instance env0 4 6 0x1403 0 1 shadow0 world0)).
    reflexivity.
  - apply (proj2 (draw_indexed_only_single_instance env0 4 6 0x1403 0 2 shadow0 world0)).
    lia.
Defined.

(** No command other than DRAW_INDEXED issues an indexed draw. *)
Lemma PerformCommand_no_draw (env : Env) (c : GLRRenderData) (sh : Shadow) :
  (forall mode count indexType indices instances,
     c <> DRAW_INDEXED mode count indexType indices instances) ->
  steps (extends_trace (fun e => is_draw_elements e = false)) (PerformCommand env c sh).
Proof.
  intros Hc.
  destruct c; unfold PerformCommand, resolve_loc, attr_loop; steps_walk; try reflexivity.
  exfalso. by eapply Hc.
Qed.

Lemma PerformCommands_draw_count (env : Env) (commands : list GLRRenderData) :
  forall (sh : Shadow) (w : World) (sh' : Shadow) (w' : World),
    PerformCommands env commands sh w = Ok sh' w' ->
    count_events is_draw_elements (issued w')
    = (count_events is_draw_elements (issued w) + single_instance_draws commands)%nat.
Proof.
  induction commands as [|c rest IH]; intros sh w sh' w' Hrun; simpl in Hrun.
  - injection Hrun as <- <-. simpl. lia.
  - apply bind_Ok in Hrun. destruct Hrun as (sh1 & w1 & Hc & Hrest).
    apply IH in Hrest. rewrite Hrest. clear Hrest IH.
    assert (Hother :
      (forall mode count indexType indices instances,
         c <> DRAW_INDEXED mode count indexType indices instances) ->
      count_events is_draw_elements (issued w1) = count_events is_draw_elements (issued w)).
    { intros Hne. exact (no_draw_count _ _ _ _ (PerformCommand_no_draw env c sh Hne) Hc). }
    destruct c; try (simpl; rewrite Hother by discriminate; reflexivity).
    rewrite draw_indexed_command in Hc. injection Hc as _ <-.
    rewrite issued_issue, count_events_app. simpl.
    destruct (instances =? 1); simpl; lia.
Qed.

(** X9. Indexed draws over a whole pass.  Over a render pass that
    completes, the number of [glDrawElements] calls issued is the number of
    DRAW_INDEXED commands whose instance count is 1: indexed draws asking for
    any other number of instances are dropped, and no other command draws
    indexed. *)
Lemma PerformRenderPass_draw_count
    (env : Env) (framebuffer : ptr) (commands : list GLRRenderData) (w w' : World) :
  PerformRenderPass env framebuffer commands w = Ok tt w' ->
  count_events is_draw_elements (issued w')
  = (count_events is_draw_elements (issued w) + single_instance_draws commands)%nat.
Proof.
  unfold PerformRenderPass. destruct commands as [|c rest].
  - intros [= <-]. simpl. lia.
  - generalize (c :: rest); clear c rest; intros commands Hrun.
    repeat (apply bind_Ok in Hrun; destruct Hrun as (? & ? & ? & Hrun)).
    repeat match goal with
      | H : PerformCommands _ _ _ _ = Ok _ _ |- _ =>
          apply PerformCommands_draw_count in H
      | H : _ _ = Ok _ _ |- _ =>
          apply no_draw_count in H; [|by steps_walk]
      end.
    lia.
Qed.

Lemma PerformRenderPass_draw_count_witness :
  count_events is_draw_elements (issued world_after_three_draws)
  = (count_events is_draw_elements (issued world0)
     + single_instance_draws pass_three_draws)%nat.
Proof.
  apply (PerformRenderPass_draw_count env0 nullptr pass_three_draws
           world0 world_after_three_draws).
  vm_compute. reflexivity.
Defined.

(** *** Texture binds *)

(** What one BINDTEXTURE command does, in terms of the loop's local
    [activeTexture]: the slot call is issued exactly when [slot] differs from
    the local, and a bind call always follows. *)
Lemma bind_null_texture_command (env : Env) (slot : Z) (sh : Shadow) (w : World) :
  PerformCommand env (BINDTEXTURE slot nullptr) sh w =
  Ok (mkShadow (curProgram sh) slot (attrMask sh))
     (issue ((if slot =? activeTexture sh then []
              else [glActiveTexture (wrap_uint (GL_TEXTURE0 + slot))])
             ++ [glBindTexture GL_TEXTURE_2D 0]) w).
Proof.
  cbn; unfold bind. destruct (Z.eqb_spec slot (activeTexture sh)) as [->|_]; cbn.
  - destruct sh; reflexivity.
  - reflexivity.
Qed.

(** A BINDTEXTURE command with a live texture: same slot test, and the bind
    uses the texture's own target and name. *)
Lemma bind_live_texture_command
    (env : Env) (slot : Z) (a : loc) (tex : GLRTexture.t) (sh : Shadow) (w : World) :
  textures (heap w) !! a = Some tex ->
  PerformCommand env (BINDTEXTURE slot (Some a)) sh w =
  Ok (mkShadow (curProgram sh) slot (attrMask sh))
     (issue ((if slot =? activeTexture sh then []
              else [glActiveTexture (wrap_uint (GL_TEXTURE0 + slot))])
             ++ [glBindTexture (GLRTexture.target tex) (GLRTexture.texture tex)]) w).
Proof.
  intros Htex. cbn; unfold bind.
  destruct (Z.eqb_spec slot (activeTexture sh)) as [->|_]; cbn;
    unfold deref; cbn; rewrite Htex; [by destruct sh|reflexivity].
Qed.

(** In a pass whose only command binds slot [slot] with a null texture, for
    every slot index that is not the number 0x84C0 itself: the slot call is
    issued before the bind, and the end of the pass restores slot 0 with a
    second slot call. *)
Lemma first_bind_always_issues_slot_call (env : Env) (slot : Z) (w : World) :
  slot <> GL_TEXTURE0 ->
  PerformRenderPass env nullptr [BINDTEXTURE slot nullptr] w =
  Ok tt (issue [glEnable GL_SCISSOR_TEST;
                glBindVertexArray (globalVAO_ (runner w));
                glBindBuffer GL_ARRAY_BUFFER 0;
                glBindBuffer GL_ELEMENT_ARRAY_BUFFER 0;
                glActiveTexture (wrap_uint (GL_TEXTURE0 + slot));
                glBindTexture GL_TEXTURE_2D 0;
                glActiveTexture GL_TEXTURE0;
                glBindBuffer GL_ARRAY_BUFFER 0;
                glBindBuffer GL_ELEMENT_ARRAY_BUFFER 0;
                glBindVertexArray 0;
                glDisable GL_SCISSOR_TEST]
           (mkWorld (set_curFB (targetWidth_ (runner w)) (targetHeight_ (runner w))
                       (runner w))
              (heap w) (generated w) (trace w))).
Proof.
  intros Hslot. apply Z.eqb_neq in Hslot.
  destruct w as [r h g t]; destruct r; cbn in *.
  unfold PerformRenderPass, PerformBindFramebufferAsRenderTarget.
  run_with ltac:(rewrite ?Hslot). reflexivity.
Qed.

(** C3 (the code at the failing input).  A pass whose only command binds
    slot 0: the local starts as the enumerator [GL_TEXTURE0] (0x84C0), the
    command's slot is the index 0, so the test [slot != activeTexture]
    succeeds and [glActiveTexture(GL_TEXTURE0)] is issued although slot 0 is
    the slot already active; the bind follows; and because the local now
    holds 0, the end of the pass issues [glActiveTexture(GL_TEXTURE0)]
    once more. *)
Theorem first_bind_of_slot0_issues_slot_call (env : Env) (w : World) :
  PerformRenderPass env nullptr [BINDTEXTURE 0 nullptr] w =
  Ok tt (issue [glEnable GL_SCISSOR_TEST;
                glBindVertexArray (globalVAO_ (runner w));
                glBindBuffer GL_ARRAY_BUFFER 0;
                glBindBuffer GL_ELEMENT_ARRAY_BUFFER 0;
                glActiveTexture GL_TEXTURE0;
                glBindTexture GL_TEXTURE_2D 0;
                glActiveTexture GL_TEXTURE0;
                glBindBuffer GL_ARRAY_BUFFER 0;
                glBindBuffer GL_ELEMENT_ARRAY_BUFFER 0;
                glBindVertexArray 0;
                glDisable GL_SCISSOR_TEST]
           (mkWorld (set_curFB (targetWidth_ (runner w)) (targetHeight_ (runner w))
                       (runner w))
              (heap w) (generated w) (trace w))).
Proof. reflexivity. Qed.

(** *** Viewport and scissor *)

(** What one SCISSOR command does: the flip is decided by the runner member
    [curFramebuffer_], and uses the current framebuffer height. *)
Lemma scissor_command (env : Env) (rc : GLRect2D.t) (sh : Shadow) (w : World) :
  PerformCommand env (SCISSOR rc) sh w =
  Ok sh (issue [glScissor (GLRect2D.x rc)
                  (if curFramebuffer_ (runner w) is None
                   then wrap_int (wrap_int (curFBHeight_ (runner w) - GLRect2D.y rc)
                                  - GLRect2D.h rc)
                   else GLRect2D.y rc)
                  (GLRect2D.w rc) (GLRect2D.h rc)] w).
Proof. reflexivity. Qed.

(** Binding the pass's target records its dimensions and nothing else:
    [curFramebuffer_] keeps the value it had. *)
Lemma bind_target_keeps_curFramebuffer_ (framebuffer : ptr) (w w' : World) :
  PerformBindFramebufferAsRenderTarget framebuffer w = Ok tt w' ->
  curFramebuffer_ (runner w') = curFramebuffer_ (runner w).
Proof.
  unfold PerformBindFramebufferAsRenderTarget.
  destruct framebuffer as [a|]; run.
  - destruct (framebuffers (heap w) !! a); [|discriminate].
    intros [= <-]. reflexivity.
  - intros [= <-]. reflexivity.
Qed.

(** No entry point of the file assigns [curFramebuffer_]: whatever steps are
    run, the member has the value it had before. *)
Lemma RunSteps_keeps_curFramebuffer_ (env : Env) (steps_ : list GLRStep) (w w' : World) :
  RunSteps env steps_ w = Ok tt w' ->
  curFramebuffer_ (runner w') = curFramebuffer_ (runner w).
Proof.
  intros Hrun.
  exact (RunSteps_from_steps same_curFramebuffer_ (fun _ => True) env 0 steps_
           (fun _ => I) w tt w' Hrun).
Qed.

Lemma RunInitSteps_keeps_curFramebuffer_
    (env : Env) (steps_ : list GLRInitStep) (w w' : World) :
  RunInitSteps env steps_ w = Ok tt w' ->
  curFramebuffer_ (runner w') = curFramebuffer_ (runner w).
Proof.
  intros Hrun.
  refine (steps_for_each same_curFramebuffer_ (fun _ => True) steps_ (RunInitStep env)
            _ w tt w' Hrun).
  intros step. by apply (RunInitStep_steps same_curFramebuffer_ (fun _ => True)).
Qed.

Lemma AllocTextureName_keeps_curFramebuffer_ (env : Env) (w w' : World) (name : GLuint) :
  AllocTextureName env w = Ok name w' ->
  curFramebuffer_ (runner w') = curFramebuffer_ (runner w).
Proof.
  unfold AllocTextureName, gen_names, bind, when, get_runner, put_runner, emit, ret.
  destruct (bool_decide (nameCache_ (runner w) = [])); simpl.
  - intros [= _ <-]. reflexivity.
  - destruct (last (nameCache_ (runner w))); [|discriminate].
    intros [= _ <-]. reflexivity.
Qed.

Lemma CreateDeviceObjects_keeps_curFramebuffer_ (env : Env) (w w' : World) :
  CreateDeviceObjects env w = Ok tt w' ->
  curFramebuffer_ (runner w') = curFramebuffer_ (runner w).
Proof. intros [= <-]. reflexivity. Qed.

Lemma DestroyDeviceObjects_keeps_curFramebuffer_ (w w' : World) :
  DestroyDeviceObjects w = Ok tt w' ->
  curFramebuffer_ (runner w') = curFramebuffer_ (runner w).
Proof.
  unfold DestroyDeviceObjects, bind, when, get_runner, put_runner, emit, ret.
  destruct (negb _); intros [= <-]; reflexivity.
Qed.

(** Any pass that targets a live offscreen framebuffer while the runner's
    [curFramebuffer_] is null issues its scissor with the flipped Y, computed
    from the offscreen framebuffer's height. *)
Lemma offscreen_scissor_is_flipped
    (env : Env) (a : loc) (fb : GLRFramebuffer.t) (rc : GLRect2D.t) (w : World) :
  framebuffers (heap w) !! a = Some fb ->
  curFramebuffer_ (runner w) = nullptr ->
  PerformRenderPass env (Some a) [SCISSOR rc] w =
  Ok tt (issue [glEnable GL_SCISSOR_TEST;
                glBindVertexArray (globalVAO_ (runner w));
                glBindBuffer GL_ARRAY_BUFFER 0;
                glBindBuffer GL_ELEMENT_ARRAY_BUFFER 0;
                glScissor (GLRect2D.x rc)
                  (wrap_int (wrap_int (GLRFramebuffer.height fb - GLRect2D.y rc)
                             - GLRect2D.h rc))
                  (GLRect2D.w rc) (GLRect2D.h rc);
                glBindBuffer GL_ARRAY_BUFFER 0;
                glBindBuffer GL_ELEMENT_ARRAY_BUFFER 0;
                glBindVertexArray 0;
                glDisable GL_SCISSOR_TEST]
           (mkWorld (set_curFB (GLRFramebuffer.width fb) (GLRFramebuffer.height fb)
                       (runner w))
              (heap w) (generated w) (trace w))).
Proof.
  intros Hfb Hcur. destruct w as [r h g t]; destruct r; cbn in *. subst.
  unfold PerformRenderPass, PerformBindFramebufferAsRenderTarget.
  run_with ltac:(rewrite ?Hfb). reflexivity.
Qed.

(** C2 (the code at the failing input).  A pass that targets the offscreen
    framebuffer of height 200, run by a runner whose [curFramebuffer_] is
    null (nothing in the file assigns it), with the viewport and the scissor
    (x=0, y=10, w=100, h=50): both are issued with Y = 200 - 10 - 50 = 140,
    not with Y = 10. *)
Theorem offscreen_pass_flips_viewport_y (env : Env) :
  PerformRenderPass env (Some 2%nat)
    [VIEWPORT vp_0_10_100_50; SCISSOR rc_0_10_100_50] world_fb =
  Ok tt (issue [glEnable GL_SCISSOR_TEST;
                glBindVertexArray 0;
                glBindBuffer GL_ARRAY_BUFFER 0;
                glBindBuffer GL_ELEMENT_ARRAY_BUFFER 0;
                glViewport 0 140 100 50;
                glDepthRange (f32_of_int 0) (f32_of_int 1);
                glScissor 0 140 100 50;
                glBindBuffer GL_ARRAY_BUFFER 0;
                glBindBuffer GL_ELEMENT_ARRAY_BUFFER 0;
                glBindVertexArray 0;
                glDisable GL_SCISSOR_TEST]
           (mkWorld (set_curFB 300 200 runner0) heap_fb 0 [])).
Proof. vm_compute. reflexivity. Qed.

(** The same commands against the default target of height 200 (same
    runner): Y = 140 as well. *)
Example onscreen_pass_flips_viewport_y (env : Env) :
  PerformRenderPass env nullptr
    [VIEWPORT vp_0_10_100_50; SCISSOR rc_0_10_100_50] world_fb =
  Ok tt (issue [glEnable GL_SCISSOR_TEST;
                glBindVertexArray 0;
                glBindBuffer GL_ARRAY_BUFFER 0;
                glBindBuffer GL_ELEMENT_ARRAY_BUFFER 0;
                glViewport 0 140 100 50;
                glDepthRange (f32_of_int 0) (f32_of_int 1);
                glScissor 0 140 100 50;
                glBindBuffer GL_ARRAY_BUFFER 0;
                glBindBuffer GL_ELEMENT_ARRAY_BUFFER 0;
                glBindVertexArray 0;
                glDisable GL_SCISSOR_TEST]
           (mkWorld (set_curFB 480 200 runner0) heap_fb 0 [])).
Proof. vm_compute. reflexivity. Qed.

(** *** Input layouts *)

Lemma attr_loop_issue (enable disable : Z) (w : World) :
  attr_loop enable disable w
  = Ok tt (issue (flat_map (slot_events (mask_bit enable) (mask_bit disable))
                    (seq 0 SEM_MAX)) w).
Proof.
  unfold attr_loop. apply for_each_issue. intros i w'.
  unfold slot_events, mask_bit, bind, when.
  destruct (nonzero (Z.land enable _)), (nonzero (Z.land disable _));
    simpl; unfold ret, emit; rewrite ?issue_issue, ?issue_nil; reflexivity.
Qed.

(** [mask & (1 << i)] is non-zero exactly when bit [i] of [mask] is set. *)
Lemma mask_bit_testbit (mask : Z) (i : nat) :
  mask_bit mask i = Z.testbit mask (Z.of_nat i).
Proof.
  unfold mask_bit, nonzero. rewrite Z.shiftl_1_l.
  assert (Hland : Z.land mask (2 ^ Z.of_nat i)
                  = if Z.testbit mask (Z.of_nat i) then 2 ^ Z.of_nat i else 0).
  { apply Z.bits_inj'. intros m Hm.
    rewrite Z.land_spec, Z.pow2_bits_eqb by lia.
    destruct (Z.eqb_spec (Z.of_nat i) m) as [<-|Hne].
    - rewrite andb_true_r. destruct (Z.testbit mask (Z.of_nat i)).
      + by rewrite Z.pow2_bits_true by lia.
      + by rewrite Z.bits_0.
    - rewrite andb_false_r. destruct (Z.testbit mask (Z.of_nat i)).
      + by rewrite Z.pow2_bits_false by lia.
      + by rewrite Z.bits_0. }
  rewrite Hland. destruct (Z.testbit mask (Z.of_nat i)); [|reflexivity].
  destruct (Z.eqb_spec (2 ^ Z.of_nat i) 0) as [H0|_]; [|reflexivity].
  pose proof (Z.pow_pos_nonneg 2 (Z.of_nat i)); lia.
Qed.

(** Counting the calls for slot [i] over a loop that visits each slot of
    [l] once. *)
Lemma count_enable_slot_events (en dis : nat -> bool) (i : nat) (l : list nat) :
  NoDup l ->
  count_events (is_enable i) (flat_map (slot_events en dis) l)
  = (if bool_decide (i ∈ l) && en i then 1 else 0)%nat.
Proof.
  induction 1 as [|k l Hk Hl IH]; simpl; [done|].
  rewrite count_events_app, IH. unfold slot_events.
  destruct (decide (i = k)) as [->|Hne].
  - rewrite (bool_decide_eq_true_2 (k ∈ k :: l)) by apply list_elem_of_here.
    rewrite (bool_decide_eq_false_2 (k ∈ l)) by done.
    destruct (en k), (dis k); simpl; rewrite ?Z.eqb_refl; reflexivity.
  - assert (Hz : (Z.of_nat k =? Z.of_nat i) = false) by (apply Z.eqb_neq; lia).
    rewrite (bool_decide_ext (i ∈ k :: l) (i ∈ l)) by (rewrite elem_of_cons; tauto).
    destruct (en k), (dis k); simpl; rewrite ?Hz; reflexivity.
Qed.

Lemma count_disable_slot_events (en dis : nat -> bool) (i : nat) (l : list nat) :
  NoDup l ->
  count_events (is_disable i) (flat_map (slot_events en dis) l)
  = (if bool_decide (i ∈ l) && dis i then 1 else 0)%nat.
Proof.
  induction 1 as [|k l Hk Hl IH]; simpl; [done|].
  rewrite count_events_app, IH. unfold slot_events.
  destruct (decide (i = k)) as [->|Hne].
  - rewrite (bool_decide_eq_true_2 (k ∈ k :: l)) by apply list_elem_of_here.
    rewrite (bool_decide_eq_false_2 (k ∈ l)) by done.
    destruct (en k), (dis k); simpl; rewrite ?Z.eqb_refl; reflexivity.
  - assert (Hz : (Z.of_nat k =? Z.of_nat i) = false) by (apply Z.eqb_neq; lia).
    rewrite (bool_decide_ext (i ∈ k :: l) (i ∈ l)) by (rewrite elem_of_cons; tauto).
    destruct (en k), (dis k); simpl; rewrite ?Hz; reflexivity.
Qed.

Lemma count_pointer_events f (offset : Z) (entries : list Entry.t) :
  (forall e, f (pointer_event offset e) = false) ->
  count_events f (flat_map (fun e => [pointer_event offset e]) entries) = 0%nat.
Proof. intros Hf. induction entries as [|e l IH]; simpl; [done|]. by rewrite Hf, IH. Qed.

(** What one BIND_INPUT_LAYOUT command does. *)
Lemma bind_input_layout_command
    (env : Env) (a : loc) (layout : GLRInputLayout.t) (offset : Z) (sh : Shadow) (w : World) :
  inputLayouts (heap w) !! a = Some layout ->
  let N := GLRInputLayout.semanticsMask_ layout in
  PerformCommand env (BIND_INPUT_LAYOUT (Some a) offset) sh w
  = Ok (mkShadow (curProgram sh) (activeTexture sh) N)
       (issue (flat_map (slot_events (mask_bit (Z.land N (Z.lnot (attrMask sh))))
                           (mask_bit (Z.land (Z.lnot N) (attrMask sh))))
                 (seq 0 SEM_MAX)
               ++ flat_map (fun e => [pointer_event offset e])
                    (GLRInputLayout.entries layout)) w).
Proof.
  intros Hl N. unfold PerformCommand, bind, deref. rewrite Hl.
  rewrite attr_loop_issue.
  rewrite (for_each_issue _ (fun e => [pointer_event offset e])) by reflexivity.
  unfold ret. by rewrite issue_issue.
Qed.

(** C5, as the code has it.  A BIND_INPUT_LAYOUT command on an existing
    layout, with shadow mask M and layout mask N: the command completes and
    leaves the shadow mask equal to N; among the attribute slots the loop
    visits (0 to SEM_MAX-1 = 6) it issues exactly one enable for each slot in
    N and not in M, exactly one disable for each slot in M and not in N, and
    none for slots in both or in neither; for slots from 7 up it issues no
    enable and no disable, whatever the masks say. *)
Theorem bind_input_layout_switches_loop_slots
    (env : Env) (a : loc) (layout : GLRInputLayout.t) (offset : Z) (sh : Shadow) (w : World) :
  inputLayouts (heap w) !! a = Some layout ->
  let M := attrMask sh in
  let N := GLRInputLayout.semanticsMask_ layout in
  exists es,
    PerformCommand env (BIND_INPUT_LAYOUT (Some a) offset) sh w
      = Ok (mkShadow (curProgram sh) (activeTexture sh) N) (issue es w) /\
    forall i : nat,
      count_events (is_enable i) es
        = (if (i <? SEM_MAX)%nat && Z.testbit N (Z.of_nat i) && negb (Z.testbit M (Z.of_nat i))
           then 1 else 0)%nat /\
      count_events (is_disable i) es
        = (if (i <? SEM_MAX)%nat && Z.testbit M (Z.of_nat i) && negb (Z.testbit N (Z.of_nat i))
           then 1 else 0)%nat.
Proof.
  intros Hl M N. eexists. split.
  - exact (bind_input_layout_command env a layout offset sh w Hl).
  - intros i.
    assert (Hin : bool_decide (i ∈ seq 0 SEM_MAX) = (i <? SEM_MAX)%nat).
    { destruct (Nat.ltb_spec i SEM_MAX).
      - apply bool_decide_eq_true_2, elem_of_seq. lia.
      - apply bool_decide_eq_false_2. rewrite elem_of_seq. lia. }
    rewrite !count_events_app.
    rewrite count_enable_slot_events, count_disable_slot_events by apply NoDup_seq.
    rewrite !count_pointer_events by reflexivity.
    rewrite Hin, !mask_bit_testbit, !Z.land_spec, !Z.lnot_spec by lia.
    fold M N. rewrite !Nat.add_0_r, <- !andb_assoc.
    rewrite (andb_comm (negb (Z.testbit N (Z.of_nat i))) (Z.testbit M (Z.of_nat i))).
    split; reflexivity.
Qed.

(** The spec's example: from mask 0b0011 to mask 0b0110. *)
Example switch_0011_to_0110 :
  PerformCommand env0 (BIND_INPUT_LAYOUT (Some 1%nat) 0)
    (mkShadow nullptr GL_TEXTURE0 3) world_layout6
  = Ok (mkShadow nullptr GL_TEXTURE0 6)
       (issue [glDisableVertexAttribArray 0; glEnableVertexAttribArray 2] world_layout6).
Proof. vm_compute. reflexivity. Qed.

Lemma bind_input_layout_switches_loop_slots_witness :
  exists es,
    PerformCommand env0 (BIND_INPUT_LAYOUT (Some 1%nat) 0)
      (mkShadow nullptr GL_TEXTURE0 3) world_layout6
      = Ok (mkShadow nullptr GL_TEXTURE0 6) (issue es world_layout6) /\
    forall i : nat,
      count_events (is_enable i) es
        = (if (i <? SEM_MAX)%nat && Z.testbit 6 (Z.of_nat i) && negb (Z.testbit 3 (Z.of_nat i))
           then 1 else 0)%nat /\
      count_events (is_disable i) es
        = (if (i <? SEM_MAX)%nat && Z.testbit 3 (Z.of_nat i) && negb (Z.testbit 6 (Z.of_nat i))
           then 1 else 0)%nat.
Proof.
  apply (bind_input_layout_switches_loop_slots env0 1%nat (GLRInputLayout.mk 6 []) 0
           (mkShadow nullptr GL_TEXTURE0 3) world_layout6).
  reflexivity.
Defined.

(** C5 as stated fails.  With shadow mask 0 and layout mask 0b10000000,
    slot 7 is in the new mask and not in the old one, yet the command issues
    nothing at all: the loop stops at slot 6. *)
Example slot7_in_new_mask_issues_nothing :
  PerformCommand env0 (BIND_INPUT_LAYOUT (Some 1%nat) 0)
    (mkShadow nullptr GL_TEXTURE0 0) world_layout128
  = Ok (mkShadow nullptr GL_TEXTURE0 128) world_layout128.
Proof. vm_compute. reflexivity. Qed.

(** C5, counterexample: the claim as worded is false at that input. *)
Lemma slot7_in_new_mask_is_not_enabled : ~ enables_every_new_slot.
Proof.
  intros Hclaim.
  specialize (Hclaim env0 1%nat (GLRInputLayout.mk 128 []) 0
                (mkShadow nullptr GL_TEXTURE0 0) (mkShadow nullptr GL_TEXTURE0 128)
                world_layout128 [] eq_refl eq_refl 7%nat eq_refl eq_refl).
  discriminate Hclaim.
Qed.

(** And with a runner whose [curFramebuffer_] happens to be set, a pass on
    the default target is not flipped: the test reads the member, not the
    pass. *)
Example default_pass_is_not_flipped_when_member_is_set (env : Env) :
  PerformRenderPass env nullptr [SCISSOR rc_0_10_100_50]
    (mkWorld (mkRunner (S754_zero false) 0 [] 0 0 480 200 (Some 2%nat)) heap_fb 0 []) =
  Ok tt (issue [glEnable GL_SCISSOR_TEST;
                glBindVertexArray 0;
                glBindBuffer GL_ARRAY_BUFFER 0;
                glBindBuffer GL_ELEMENT_ARRAY_BUFFER 0;
                glScissor 0 10 100 50;
                glBindBuffer GL_ARRAY_BUFFER 0;
                glBindBuffer GL_ELEMENT_ARRAY_BUFFER 0;
                glBindVertexArray 0;
                glDisable GL_SCISSOR_TEST]
           (mkWorld (mkRunner (S754_zero false) 0 [] 480 200 480 200 (Some 2%nat))
              heap_fb 0 [])).
Proof. vm_compute. reflexivity. Qed.

(** ** Copy steps *)

Lemma region_copy_calls_length cfg srcTex dstTex target srcRect dstPos :
  length (region_copy_calls cfg srcTex dstTex target srcRect dstPos)
  = (if copy_capable cfg then 1%nat else 0%nat).
Proof.
  unfold region_copy_calls, copy_capable.
  by destruct (USING_GLES2 cfg), (IOS cfg), (ARB_copy_image cfg), (NV_copy_image cfg).
Qed.

Lemma region_copy_calls_dstName cfg srcTex dstTex target srcRect dstPos :
  Forall (fun e => copy_dstName e = Some dstTex)
    (region_copy_calls cfg srcTex dstTex target srcRect dstPos).
Proof.
  unfold region_copy_calls.
  destruct (USING_GLES2 cfg), (IOS cfg), (ARB_copy_image cfg), (NV_copy_image cfg);
    repeat constructor.
Qed.

(** PerformCopy on a live source framebuffer [s], for the two aspects the
    switch handles: the step completes, and both texture names it passes to
    the region copy are read from [s]. *)
Lemma PerformCopy_color
    (env : Env) (a : loc) (s : GLRFramebuffer.t) (dst : ptr)
    (srcRect : GLRect2D.t) (dstPos : GLOffset2D.t) (w : World) :
  framebuffers (heap w) !! a = Some s ->
  PerformCopy env (Some a) dst srcRect dstPos GL_COLOR_BUFFER_BIT w
  = Ok tt (issue (region_copy_calls (config env) (GLRFramebuffer.color_texture s)
                    (GLRFramebuffer.color_texture s) GL_TEXTURE_2D srcRect dstPos) w).
Proof.
  intros Hs. unfold PerformCopy, region_copy_calls.
  destruct w as [r h g t]; cbn in Hs.
  run_with ltac:(rewrite ?Hs).
  by destruct (USING_GLES2 (config env)), (IOS (config env)),
    (ARB_copy_image (config env)), (NV_copy_image (config env)).
Qed.

Lemma PerformCopy_depth
    (env : Env) (a : loc) (s : GLRFramebuffer.t) (dst : ptr)
    (srcRect : GLRect2D.t) (dstPos : GLOffset2D.t) (w : World) :
  framebuffers (heap w) !! a = Some s ->
  PerformCopy env (Some a) dst srcRect dstPos GL_DEPTH_BUFFER_BIT w
  = Ok tt (issue (region_copy_calls (config env) (GLRFramebuffer.depth_texture s)
                    (GLRFramebuffer.depth_texture s) GL_RENDERBUFFER srcRect dstPos) w).
Proof.
  intros Hs. unfold PerformCopy, region_copy_calls.
  destruct w as [r h g t]; cbn in Hs.
  run_with ltac:(rewrite ?Hs).
  by destruct (USING_GLES2 (config env)), (IOS (config env)),
    (ARB_copy_image (config env)), (NV_copy_image (config env)).
Qed.

(** C4. A Copy step with the depth aspect, on a live source framebuffer:
    whatever the step's destination pointer is and whatever it points to, the
    destination name of the region-copy call (one call when a copy entry
    point is available) is the depth texture of the step's source. *)
Theorem depth_copy_destination_is_source_depth
    (env : Env) (a : loc) (s : GLRFramebuffer.t) (dst : ptr)
    (srcRect : GLRect2D.t) (dstPos : GLOffset2D.t) (w : World) :
  framebuffers (heap w) !! a = Some s ->
  exists es,
    PerformCopy env (Some a) dst srcRect dstPos GL_DEPTH_BUFFER_BIT w = Ok tt (issue es w) /\
    length es = (if copy_capable (config env) then 1%nat else 0%nat) /\
    Forall (fun e => copy_dstName e = Some (GLRFramebuffer.depth_texture s)) es.
Proof.
  intros Hs. eexists. split; [exact (PerformCopy_depth env a s dst srcRect dstPos w Hs)|].
  split; [apply region_copy_calls_length|apply region_copy_calls_dstName].
Qed.

Lemma depth_copy_destination_is_source_depth_witness :
  exists es,
    PerformCopy env0 (Some 2%nat) (Some 3%nat) rect0 pos0 GL_DEPTH_BUFFER_BIT world_copy
      = Ok tt (issue es world_copy) /\
    length es = 1%nat /\
    Forall (fun e => copy_dstName e = Some 6) es.
Proof.
  apply (depth_copy_destination_is_source_depth env0 2%nat
           (GLRFramebuffer.mk 300 200 5 6) (Some 3%nat) rect0 pos0 world_copy).
  reflexivity.
Defined.

(** C10. Copy steps, colour or depth aspect.  Take any two runs whose source
    pointers lead to the same framebuffer record [s]; their destination
    pointers and everything else in the two heaps (the destination records
    included) are arbitrary.  Both runs complete and issue the same calls, and
    the destination name of the region copy (one call when a copy entry point
    is available) is the texture of [s] for the selected aspect. *)
Theorem copy_destination_comes_from_source
    (env : Env) (s : GLRFramebuffer.t) (a1 a2 : loc) (dst1 dst2 : ptr)
    (srcRect : GLRect2D.t) (dstPos : GLOffset2D.t) (aspectMask : Z) (w1 w2 : World) :
  framebuffers (heap w1) !! a1 = Some s ->
  framebuffers (heap w2) !! a2 = Some s ->
  aspectMask = GL_COLOR_BUFFER_BIT \/ aspectMask = GL_DEPTH_BUFFER_BIT ->
  exists es,
    PerformCopy env (Some a1) dst1 srcRect dstPos aspectMask w1 = Ok tt (issue es w1) /\
    PerformCopy env (Some a2) dst2 srcRect dstPos aspectMask w2 = Ok tt (issue es w2) /\
    length es = (if copy_capable (config env) then 1%nat else 0%nat) /\
    Forall (fun e => copy_dstName e =
                     Some (if aspectMask =? GL_COLOR_BUFFER_BIT
                           then GLRFramebuffer.color_texture s
                           else GLRFramebuffer.depth_texture s)) es.
Proof.
  intros Hs1 Hs2 [-> | ->]; eexists.
  - split; [exact (PerformCopy_color env a1 s dst1 srcRect dstPos w1 Hs1)|].
    split; [exact (PerformCopy_color env a2 s dst2 srcRect dstPos w2 Hs2)|].
    split; [apply region_copy_calls_length|apply region_copy_calls_dstName].
  - split; [exact (PerformCopy_depth env a1 s dst1 srcRect dstPos w1 Hs1)|].
    split; [exact (PerformCopy_depth env a2 s dst2 srcRect dstPos w2 Hs2)|].
    split; [apply region_copy_calls_length|apply region_copy_calls_dstName].
Qed.

Lemma copy_destination_comes_from_source_witness :
  exists es,
    PerformCopy env0 (Some 2%nat) (Some 3%nat) rect0 pos0 GL_COLOR_BUFFER_BIT world_copy
      = Ok tt (issue es world_copy) /\
    PerformCopy env0 (Some 2%nat) nullptr rect0 pos0 GL_COLOR_BUFFER_BIT world_copy_other
      = Ok tt (issue es world_copy_other) /\
    length es = 1%nat /\
    Forall (fun e => copy_dstName e = Some 5) es.
Proof.
  apply (copy_destination_comes_from_source env0 (GLRFramebuffer.mk 300 200 5 6)
           2%nat 2%nat (Some 3%nat) nullptr rect0 pos0 GL_COLOR_BUFFER_BIT
           world_copy world_copy_other).
  - reflexivity.
  - reflexivity.
  - left; reflexivity.
Defined.

(** ** Init steps *)

(** C7. A BUFFER_SUBDATA step on an existing buffer completes and issues,
    in this order, the bind, the upload and, only when [deleteData] is set,
    the release of the payload: one upload; one [delete[]] when the flag is
    set and none when it is not; and whatever precedes a [delete[]] in the
    step's events contains the upload. *)
Theorem buffer_subdata_uploads_once_frees_iff_owned
    (env : Env) (a : loc) (buf : GLRBuffer.t) (offset size : Z) (data : ptr)
    (deleteData : bool) (w : World) :
  buffers (heap w) !! a = Some buf ->
  let es := [glBindBuffer GL_ARRAY_BUFFER (GLRBuffer.buffer buf);
             glBufferSubData GL_ARRAY_BUFFER offset size data]
            ++ (if deleteData then [delete_array data] else []) in
  RunInitStep env (BUFFER_SUBDATA (Some a) offset size data deleteData) w
    = Ok tt (issue es w) /\
  count_events is_upload es = 1%nat /\
  count_events is_delete_array es = (if deleteData then 1%nat else 0%nat) /\
  (forall before p after,
     es = before ++ delete_array p :: after -> count_events is_upload before = 1%nat).
Proof.
  intros Hbuf es; subst es. split; [|split; [|split]].
  - cbn. unfold bind, deref. rewrite Hbuf. destruct deleteData; reflexivity.
  - destruct deleteData; reflexivity.
  - destruct deleteData; reflexivity.
  - intros before p after Hsplit.
    destruct before as [|e1 [|e2 [|e3 before]]]; destruct deleteData;
      simplify_eq/=; try reflexivity.
    all: by destruct before.
Qed.

Lemma buffer_subdata_uploads_once_frees_iff_owned_witness :
  RunInitStep env0 (BUFFER_SUBDATA (Some 1%nat) 0 64 (Some 9%nat) true) world_buf
    = Ok tt (issue [glBindBuffer GL_ARRAY_BUFFER 7;
                    glBufferSubData GL_ARRAY_BUFFER 0 64 (Some 9%nat);
                    delete_array (Some 9%nat)] world_buf) /\
  RunInitStep env0 (BUFFER_SUBDATA (Some 1%nat) 0 64 (Some 9%nat) false) world_buf
    = Ok tt (issue [glBindBuffer GL_ARRAY_BUFFER 7;
                    glBufferSubData GL_ARRAY_BUFFER 0 64 (Some 9%nat)] world_buf).
Proof.
  split.
  - apply (buffer_subdata_uploads_once_frees_iff_owned env0 1%nat
             (GLRBuffer.mk 7 GL_ARRAY_BUFFER) 0 64 (Some 9%nat) true world_buf).
    reflexivity.
  - apply (buffer_subdata_uploads_once_frees_iff_owned env0 1%nat
             (GLRBuffer.mk 7 GL_ARRAY_BUFFER) 0 64 (Some 9%nat) false world_buf).
    reflexivity.
Defined.

(** C1 (the code on a failing compile).  When the device reports a failed
    compile for the shader a CREATE_SHADER step has just created, the step
    takes the failure branch (info log read, device shader deleted, error
    logged, [valid] set to false) and then runs the unconditional
    [valid = true] that follows the branch: the step completes and the
    shader record ends with [valid = true]. *)
Theorem failed_compile_leaves_shader_valid
    (env : Env) (a : loc) (s : GLRShader.t) (stage : GLenum) (code : ptr) (w : World) :
  let name := genName (device env) (generated w) in
  shaders (heap w) !! a = Some s ->
  compileStatus (device env) name = 0 ->
  exists w',
    RunInitStep env (CREATE_SHADER (Some a) stage code) w = Ok tt w' /\
    issued w' = issued w ++
      [glCreateShader stage; glShaderSource name code; delete_array code;
       glCompileShader name; glGetShaderiv name GL_COMPILE_STATUS;
       glGetShaderInfoLog name MAX_INFO_LOG_SIZE; glDeleteShader name;
       ILOG ((if stage =? GL_FRAGMENT_SHADER then "Fragment" else "Vertex")
             +:+ " Shader compile error:" +:+ nl +:+ shaderInfoLog (device env) name)] /\
    shaders (heap w') !! a = Some (GLRShader.mk name true).
Proof.
  intros name Hs Hfail; subst name.
  destruct w as [r h g t]; cbn in *.
  eexists; split; [|split].
  - unfold RunInitStep, gen_name, gen_names.
    run_with ltac:(rewrite ?Hs, ?Hfail, ?lookup_insert_eq).
    reflexivity.
  - unfold issued; cbn. rewrite <- !app_assoc. reflexivity.
  - cbn. apply lookup_insert_eq.
Qed.

Lemma failed_compile_leaves_shader_valid_witness :
  exists w',
    RunInitStep env_compile_fails
      (CREATE_SHADER (Some 1%nat) GL_FRAGMENT_SHADER (Some 9%nat)) world_shader = Ok tt w' /\
    issued w' = issued world_shader ++
      [glCreateShader GL_FRAGMENT_SHADER; glShaderSource 1 (Some 9%nat);
       delete_array (Some 9%nat); glCompileShader 1; glGetShaderiv 1 GL_COMPILE_STATUS;
       glGetShaderInfoLog 1 MAX_INFO_LOG_SIZE; glDeleteShader 1;
       ILOG ("Fragment" +:+ " Shader compile error:" +:+ nl +:+ "syntax error")] /\
    shaders (heap w') !! 1%nat = Some (GLRShader.mk 1 true).
Proof.
  apply (failed_compile_leaves_shader_valid env_compile_fails 1%nat
           (GLRShader.mk 0 false) GL_FRAGMENT_SHADER (Some 9%nat) world_shader);
    reflexivity.
Defined.

(** Whatever the compile status, a CREATE_SHADER step on a live shader
    record completes, leaves that record with the new handle and
    [valid = true], and touches nothing else: not the other shader records,
    not the other kinds of record, not the runner. *)
Lemma create_shader_ends_valid
    (env : Env) (a : loc) (s : GLRShader.t) (stage : GLenum) (code : ptr) (w : World) :
  shaders (heap w) !! a = Some s ->
  exists w',
    RunInitStep env (CREATE_SHADER (Some a) stage code) w = Ok tt w' /\
    shaders (heap w') !! a
      = Some (GLRShader.mk (genName (device env) (generated w)) true) /\
    (forall b, b <> a -> shaders (heap w') !! b = shaders (heap w) !! b) /\
    textures (heap w') = textures (heap w) /\
    buffers (heap w') = buffers (heap w) /\
    programs (heap w') = programs (heap w) /\
    ints (heap w') = ints (heap w) /\
    runner w' = runner w.
Proof.
  intros Hs. destruct w as [r h g t]; cbn in *.
  unfold RunInitStep, gen_name, gen_names.
  destruct (compileStatus (device env) (genName (device env) g) =? 0) eqn:Hstatus;
    run_with ltac:(rewrite ?Hs, ?Hstatus, ?lookup_insert_eq);
    (eexists; split; [reflexivity|]; cbn;
     split; [apply lookup_insert_eq|];
     split; [intros b Hb; by rewrite !lookup_insert_ne by done|done]).
Qed.

(** The batch goes on after a step that completes. *)
Lemma RunInitSteps_cons (env : Env) (step : GLRInitStep) (rest : list GLRInitStep)
    (w w1 : World) :
  RunInitStep env step w = Ok tt w1 ->
  RunInitSteps env (step :: rest) w = RunInitSteps env rest w1.
Proof. intros Hstep. unfold RunInitSteps; simpl. unfold bind. by rewrite Hstep. Qed.

(** X10. A failed link is not fatal.  A CREATE_PROGRAM step whose link
    fails, on a live program record with at least one shader, all of them
    live: the step completes (the batch is not aborted), the program record
    keeps the handle of the program that failed to link, and neither a
    shader record nor a uniform location cell is written. *)
Lemma link_failure_completes
    (env : Env) (a : loc) (prog : GLRProgram.t) (step_shaders : list loc)
    (support_dual_source : bool) (w : World) :
  programs (heap w) !! a = Some prog ->
  step_shaders <> [] ->
  Forall (fun s => is_Some (shaders (heap w) !! s)) step_shaders ->
  linkStatus (device env) (genName (device env) (generated w)) <> GL_TRUE ->
  exists w',
    RunInitStep env (CREATE_PROGRAM (Some a) (map Some step_shaders) support_dual_source) w
      = Ok tt w' /\
    programs (heap w') !! a
      = Some (GLRProgram.mk (genName (device env) (generated w)) (GLRProgram.semantics_ prog)
                (GLRProgram.queries_ prog) (GLRProgram.initialize_ prog)) /\
    shaders (heap w') = shaders (heap w) /\
    ints (heap w') = ints (heap w).
Proof.
  intros Hprog Hne Hlive Hlink. destruct w as [r h g t]; cbn in *.
  set (name := genName (device env) g).
  assert (Hstatus : (linkStatus (device env) name =? GL_TRUE) = false)
    by (by apply Z.eqb_neq).
  unfold RunInitStep, gen_name, gen_names.
  cbn -[genName for_each]. unfold bind at 1. unfold deref at 1. cbn [heap]. rewrite Hprog.
  unfold bind at 1. cbn [emit]. unfold bind at 1. unfold bind at 1.
  cbn [ret hd map seq generated issue runner heap trace].
  unfold bind at 1. unfold update at 1.  unfold bind at 1. unfold deref at 1.
  cbn [heap]. rewrite Hprog.
  unfold get_heap, put_heap. unfold bind at 1. cbn [heap runner generated trace].
  unfold bind at 1. unfold _assert_msg_ at 1.
  match goal with
  | |- context [if ?c then _ else _] => assert (Hcount : c = true); [|rewrite Hcount]
  end.
  { apply Z.ltb_lt. rewrite length_map. destruct step_shaders; [done|simpl; lia]. }
  cbv beta iota. fold name.
  set (w1 := mkWorld _ _ _ _).
  unfold bind at 1.
  rewrite (for_each_issue_in (A:=ptr) _
             (fun s : ptr =>
                match s with
                | Some l => match shaders h !! l with
                            | Some sh => [glAttachShader name (GLRShader.shader sh)]
                            | None => []
                            end
                | None => []
                end) _ w1).
  2:{ intros s w' Hin Hheap. apply list_elem_of_fmap in Hin as (l & -> & Hl).
      rewrite Forall_forall in Hlive. destruct (Hlive l Hl) as [sh Hsh].
      unfold bind, deref. rewrite Hheap. subst w1; cbn. rewrite Hsh. reflexivity. }
  unfold bind at 1.
  rewrite (for_each_issue _ (fun iter => [glBindAttribLocation name (Semantic.location iter)
                                            (Semantic.attrib iter)])) by reflexivity.
  assert (Hfrag : exists es, forall w', bind_frag_data env support_dual_source name w'
                                        = Ok tt (issue es w')).
  { unfold bind_frag_data, when.
    destruct (USING_GLES2 (config env)), support_dual_source,
      (VersionGEThan_3_3_0 (config env)), (IOS (config env)), (GLES3 (config env)),
      (GPU_SUPPORTS_DUALSOURCE_BLEND (config env)); cbn;
      first [ by (exists []; intros w'; unfold ret; rewrite issue_nil)
            | by (eexists [_]; intros w'; reflexivity)
            | by (eexists [_; _]; intros w'; reflexivity) ]. }
  destruct Hfrag as (es_frag & Hfrag). unfold bind at 1. rewrite Hfrag.
  unfold bind at 1. cbn [emit]. unfold bind at 1. cbn [emit]. rewrite Hstatus. cbn [negb].
  assert (Hfail : forall n, exists es, forall w',
            link_failed env name n w' = Ok tt (issue es w')).
  { intros n. unfold link_failed, when, bind, emit.
    destruct (negb (programInfoLogLength (device env) name =? 0)), (_WIN32 (config env));
      cbn; eexists; intros w'; unfold ret; rewrite ?issue_issue; reflexivity. }
  destruct (Hfail (Z.of_nat (length (map Some step_shaders)))) as (es_fail & Hfailed).
  eexists. split; [apply Hfailed|].
  subst w1; cbn. split; [apply lookup_insert_eq|done].
Qed.

Lemma link_failure_completes_witness :
  exists w',
    RunInitStep env_link_fails (CREATE_PROGRAM (Some 2%nat) (map Some [1%nat]) false)
      world_program = Ok tt w' /\
    programs (heap w') !! 2%nat
      = Some (GLRProgram.mk (genName (device env_link_fails) (generated world_program))
                (GLRProgram.semantics_ (GLRProgram.mk 0 [] [] []))
                (GLRProgram.queries_ (GLRProgram.mk 0 [] [] []))
                (GLRProgram.initialize_ (GLRProgram.mk 0 [] [] []))) /\
    shaders (heap w') = shaders (heap world_program) /\
    ints (heap w') = ints (heap world_program).
Proof.
  apply (link_failure_completes env_link_fails 2%nat (GLRProgram.mk 0 [] [] []) [1%nat]
           false world_program).
  - reflexivity.
  - discriminate.
  - repeat constructor. vm_compute. by eexists.
  - vm_compute. discriminate.
Defined.

(** ** The texture name allocator *)

(** One call on an empty pool: one [glGenTextures(16, ...)], the last name of
    the batch is returned, the other fifteen stay in the pool. *)
Lemma AllocTextureName_empty (env : Env) (w : World) :
  nameCache_ (runner w) = [] ->
  AllocTextureName env w
  = Ok (genName (device env) (generated w + 15))
       (mkWorld (set_nameCache_ (map (genName (device env)) (seq (generated w) 15)) (runner w))
          (heap w) (generated w + 16)
          (glGenTextures 16 :: trace w)).
Proof.
  intros Hempty. destruct w as [r h g t]; cbn in *.
  unfold AllocTextureName, gen_names.
  run_with ltac:(rewrite ?Hempty).
  rewrite (Nat.add_comm g 15). destruct r; reflexivity.
Qed.

(** One call on a pool that holds names: no device call, the last name
    leaves the pool. *)
Lemma AllocTextureName_nonempty (env : Env) (pool : list GLuint) (name : GLuint) (w : World) :
  nameCache_ (runner w) = pool ++ [name] ->
  AllocTextureName env w
  = Ok name (mkWorld (set_nameCache_ pool (runner w)) (heap w) (generated w) (trace w)).
Proof.
  intros Hpool. destruct w as [r h g t]; cbn in *.
  unfold AllocTextureName.
  assert (Hne : bool_decide (nameCache_ r = []) = false).
  { apply bool_decide_eq_false_2. rewrite Hpool. by destruct pool. }
  run_with ltac:(rewrite ?Hne).
  rewrite Hpool, last_snoc, removelast_last. cbn.
  destruct r; cbn in *. reflexivity.
Qed.

(** Draining a pool of [k] names and going on for [m] more calls: the pool
    is handed out from its last name to its first without any device call,
    and the remaining calls start from the empty pool. *)
Lemma AllocTextureNames_drain (env : Env) (m k : nat) :
  forall (w : World) (b : nat),
    nameCache_ (runner w) = map (genName (device env)) (seq b k) ->
    AllocTextureNames env (k + m) w
    = match AllocTextureNames env m
              (mkWorld (set_nameCache_ [] (runner w)) (heap w) (generated w) (trace w)) with
      | Ok rest w' => Ok (map (genName (device env)) (rev (seq b k)) ++ rest) w'
      | Crashed w' => Crashed w'
      | AssertFailed msg w' => AssertFailed msg w'
      | Undefined => Undefined
      end.
Proof.
  induction k as [|k IH]; intros w b Hpool.
  - simpl in Hpool. simpl.
    replace (mkWorld (set_nameCache_ [] (runner w)) (heap w) (generated w) (trace w)) with w
      by (destruct w as [[] ? ? ?]; simpl in *; by subst).
    by destruct (AllocTextureNames env m w).
  - rewrite seq_S, map_app in Hpool. simpl in Hpool.
    rewrite seq_S, rev_app_distr.
    change (S k + m)%nat with (S (k + m)). cbn [AllocTextureNames]. unfold bind at 1.
    rewrite (AllocTextureName_nonempty env _ _ w Hpool).
    unfold bind at 1. rewrite (IH _ b) by reflexivity.
    cbn [runner heap generated trace].
    by destruct (AllocTextureNames env m _).
Qed.

(** Seventeen calls on an empty pool: two [glGenTextures] calls; the first
    batch is handed out from its last name to its first, the seventeenth name
    is the last of the second batch. *)
Lemma AllocTextureNames_17 (env : Env) (w : World) :
  nameCache_ (runner w) = [] ->
  AllocTextureNames env 17 w
  = Ok (map (genName (device env))
          (rev (seq (generated w) 16) ++ [(generated w + 16 + 15)%nat]))
       (mkWorld (set_nameCache_ (map (genName (device env)) (seq (generated w + 16) 15))
                   (runner w))
          (heap w) (generated w + 16 + 16)
          (glGenTextures 16 :: glGenTextures 16 :: trace w)).
Proof.
  intros Hempty.
  change 17%nat with (S (15 + 1)). cbn [AllocTextureNames]. unfold bind at 1.
  rewrite (AllocTextureName_empty env w Hempty).
  unfold bind at 1.
  rewrite (AllocTextureNames_drain env 1 15 _ (generated w)) by reflexivity.
  cbn [AllocTextureNames]. unfold bind at 1.
  rewrite AllocTextureName_empty by reflexivity.
  cbn [runner heap generated trace]. unfold bind, ret.
  change (seq (generated w) 16) with (seq (generated w) (15 + 1)).
  rewrite seq_app, rev_app_distr. reflexivity.
Qed.

(** The pool invariant: the pool holds the names of the device indices
    [b .. b+k-1], all of them already generated.  From such a state any number
    of calls completes, and the names returned are those of pairwise distinct
    indices, each one either in the pool or not yet generated. *)
Lemma AllocTextureNames_indices (env : Env) (n : nat) :
  forall (w : World) (b k : nat),
    nameCache_ (runner w) = map (genName (device env)) (seq b k) ->
    (b + k <= generated w)%nat ->
    exists (idxs : list nat) (w' : World),
      AllocTextureNames env n w = Ok (map (genName (device env)) idxs) w' /\
      length idxs = n /\
      NoDup idxs /\
      Forall (fun i => (b <= i < b + k)%nat \/ (generated w <= i)%nat) idxs.
Proof.
  induction n as [|n IH]; intros w b k Hpool Hgen.
  - exists [], w. repeat split; [constructor|constructor].
  - destruct k as [|k].
    + (* empty pool: refill, hand out the last name of the batch *)
      pose proof (AllocTextureName_empty env w Hpool) as Hone.
      set (w1 := mkWorld _ _ _ _) in Hone.
      destruct (IH w1 (generated w) 15%nat) as (idxs & w' & Hrun & Hlen & Hnd & Hrange).
      { reflexivity. }
      { subst w1; simpl. lia. }
      exists ((generated w + 15)%nat :: idxs), w'.
      split; [|split; [|split]].
      * simpl. unfold bind. rewrite Hone, Hrun. reflexivity.
      * simpl. by rewrite Hlen.
      * constructor; [|exact Hnd].
        intros Hin. rewrite Forall_forall in Hrange.
        specialize (Hrange _ Hin). subst w1; simpl in Hrange. lia.
      * constructor; [lia|].
        eapply Forall_impl; [exact Hrange|].
        intros i Hi. subst w1; simpl in Hi. lia.
    + (* the pool holds names: hand out the last one *)
      rewrite seq_S, map_app in Hpool. simpl in Hpool.
      pose proof (AllocTextureName_nonempty env _ _ w Hpool) as Hone.
      set (w1 := mkWorld _ _ _ _) in Hone.
      destruct (IH w1 b k) as (idxs & w' & Hrun & Hlen & Hnd & Hrange).
      { reflexivity. }
      { subst w1; simpl. lia. }
      exists ((b + k)%nat :: idxs), w'.
      split; [|split; [|split]].
      * simpl. unfold bind. rewrite Hone, Hrun. reflexivity.
      * simpl. by rewrite Hlen.
      * constructor; [|exact Hnd].
        intros Hin. rewrite Forall_forall in Hrange.
        specialize (Hrange _ Hin). subst w1; simpl in Hrange. lia.
      * constructor; [lia|].
        eapply Forall_impl; [exact Hrange|].
        intros i Hi. subst w1; simpl in Hi. lia.
Qed.

(** C9. The texture name allocator, started on an empty pool.
    (1) One call issues exactly one [glGenTextures(16, ...)], returns a name
        of that batch (its last) and leaves the other fifteen in the pool.
    (2) Seventeen consecutive calls issue exactly two [glGenTextures] calls.
    (3) If the device never hands out the same name twice, then any number of
        consecutive calls completes and no name is returned twice. *)
Theorem texture_name_allocator (env : Env) (w : World) :
  nameCache_ (runner w) = [] ->
  AllocTextureName env w
    = Ok (genName (device env) (generated w + 15))
         (mkWorld (set_nameCache_ (map (genName (device env)) (seq (generated w) 15))
                     (runner w))
            (heap w) (generated w + 16) (glGenTextures 16 :: trace w)) /\
  (exists names w',
     AllocTextureNames env 17 w = Ok names w' /\
     length names = 17%nat /\
     issued w' = issued w ++ [glGenTextures 16; glGenTextures 16]) /\
  ((forall i j, genName (device env) i = genName (device env) j -> i = j) ->
   forall n, exists names w',
     AllocTextureNames env n w = Ok names w' /\
     length names = n /\
     NoDup names).
Proof.
  intros Hempty. split; [|split].
  - exact (AllocTextureName_empty env w Hempty).
  - eexists _, _. split; [exact (AllocTextureNames_17 env w Hempty)|]. split.
    + reflexivity.
    + unfold issued; simpl. rewrite <- app_assoc. reflexivity.
  - intros Hinj n.
    destruct (AllocTextureNames_indices env n w (generated w) 0)
      as (idxs & w' & Hrun & Hlen & Hnd & _); [exact Hempty|lia|].
    exists (map (genName (device env)) idxs), w'.
    split; [exact Hrun|]. split; [by rewrite length_map|].
    assert (Hinj' : Inj (=) (=) (genName (device env))) by (intros i j; apply Hinj).
    exact (NoDup_fmap_2 (genName (device env)) idxs Hnd).
Qed.

Lemma texture_name_allocator_witness :
  AllocTextureName env0 world0
    = Ok 16 (mkWorld (set_nameCache_ [1; 2; 3; 4; 5; 6; 7; 8; 9; 10; 11; 12; 13; 14; 15]
                        runner0)
               heap0 16 [glGenTextures 16]) /\
  (exists names w',
     AllocTextureNames env0 17 world0 = Ok names w' /\
     length names = 17%nat /\
     issued w' = issued world0 ++ [glGenTextures 16; glGenTextures 16]) /\
  (forall n, exists names w',
     AllocTextureNames env0 n world0 = Ok names w' /\
     length names = n /\
     NoDup names).
Proof.
  destruct (texture_name_allocator env0 world0 eq_refl) as (Hone & Hseventeen & Hdistinct).
  split; [exact Hone|]. split; [exact Hseventeen|].
  apply Hdistinct. intros i j Hij. simpl in Hij. lia.
Defined.

(** * Further properties *)

(** ** More observations *)

Lemma extends_trace_weaken (P Q : Event -> Prop) (w w' : World) :
  (forall e, P e -> Q e) -> extends_trace P w w' -> extends_trace Q w w'.
Proof.
  intros HPQ (es & Hes & HP). exists es. split; [done|].
  eapply Forall_impl; [exact HP|exact HPQ].
Qed.

Lemma steps_weaken {A} (P Q : Event -> Prop) (m : M A) :
  (forall e, P e -> Q e) -> steps (extends_trace P) m -> steps (extends_trace Q) m.
Proof. intros HPQ Hm w a w' Hrun. eapply extends_trace_weaken; [exact HPQ|eauto]. Qed.

Lemma omap_none {A B} (f : A -> option B) (l : list A) :
  Forall (fun a => f a = None) l -> omap f l = [].
Proof. induction 1 as [|a l Ha _ IH]; simpl; [done|]. by rewrite Ha. Qed.

(** A run that issues no event of a kind leaves the events of that kind as
    they were. *)
Lemma unchanged_omap {A B} (f : Event -> option B) (m : M A) (w : World) (a : A) (w' : World) :
  steps (extends_trace (fun e => f e = None)) m ->
  m w = Ok a w' ->
  omap f (issued w') = omap f (issued w).
Proof.
  intros Hm Hrun. destruct (Hm _ _ _ Hrun) as (es & -> & Hes).
  by rewrite omap_app, (omap_none f es Hes), app_nil_r.
Qed.

Lemma unchanged_count {A} (f : Event -> bool) (m : M A) (w : World) (a : A) (w' : World) :
  steps (extends_trace (fun e => f e = false)) m ->
  m w = Ok a w' ->
  count_events f (issued w') = count_events f (issued w).
Proof.
  intros Hm Hrun. destruct (Hm _ _ _ Hrun) as (es & -> & Hes).
  rewrite count_events_app, (count_events_none _ es Hes). lia.
Qed.

#[global] Instance init_untouched_observation : Observation init_untouched (fun _ => True).
Proof.
  split.
  - split.
    + by intros w.
    + intros w1 w2 w3 (Hr1 & Hl1 & Hf1) (Hr2 & Hl2 & Hf2).
      unfold init_untouched. by rewrite Hr2, Hl2, Hf2.
  - by intros e w _.
Qed.

#[global] Instance init_untouched_heap_blind : HeapBlind init_untouched.
Proof. by intros w w' Hr _ Hl Hf. Qed.

#[global] Instance only_dims_and_trace_observation :
  Observation only_dims_and_trace (fun _ => True).
Proof.
  split.
  - split.
    + intros w. split; [done|]. split; [done|].
      exists (curFBWidth_ (runner w)), (curFBHeight_ (runner w)). by destruct (runner w).
    + intros w1 w2 w3 (Hh1 & Hg1 & a1 & b1 & Hr1) (Hh2 & Hg2 & a2 & b2 & Hr2).
      split; [congruence|]. split; [congruence|].
      exists a2, b2. rewrite Hr2, Hr1. reflexivity.
  - intros e w _. split; [done|]. split; [done|].
    exists (curFBWidth_ (runner w)), (curFBHeight_ (runner w)).
    change (runner (issue [e] w)) with (runner w). by destruct (runner w).
Qed.

#[global] Instance only_dims_and_trace_dims_blind : DimsBlind only_dims_and_trace.
Proof. intros width height w. split; [done|]. split; [done|]. by exists width, height. Qed.

(** ** Render steps only read *)

(** Render commands issue device calls only. *)
Lemma PerformCommand_gl_calls (env : Env) (c : GLRRenderData) (sh : Shadow) :
  steps (extends_trace (fun e => is_gl_call e = true)) (PerformCommand env c sh).
Proof.
  destruct c; unfold PerformCommand, resolve_loc, attr_loop; steps_walk; reflexivity.
Qed.

Lemma PerformCommands_gl_calls (env : Env) (commands : list GLRRenderData) (sh : Shadow) :
  steps (extends_trace (fun e => is_gl_call e = true)) (PerformCommands env commands sh).
Proof.
  revert sh. induction commands as [|c rest IH]; intros sh; simpl.
  - steps_walk.
  - steps_walk; [apply PerformCommand_gl_calls|apply IH].
Qed.

Lemma RunStep_gl_calls (env : Env) (step : GLRStep) :
  steps (extends_trace (fun e => is_gl_call e = true)) (RunStep env step).
Proof.
  destruct step;
    unfold RunStep, PerformRenderPass, PerformCopy, PerformBlit, PerformReadback,
      PerformReadbackImage;
    steps_walk; try reflexivity.
  apply PerformCommands_gl_calls.
Qed.

Example steps_two_run : RunSteps env0 steps_two world_copy = Ok tt world_after_two.
Proof. vm_compute. reflexivity. Qed.

Example init_two_run : RunInitSteps env0 init_two world_buf = Ok tt world_after_init_two.
Proof. vm_compute. reflexivity. Qed.

(** X1. Render steps only read.  Whatever steps RunSteps runs, when it
    completes no resource record has changed, the device has handed out no
    name, and of the runner's members only the current framebuffer
    dimensions may differ: the name pool, the shared vertex array, the
    backbuffer size, [curFramebuffer_] and the anisotropy limit are as
    before. *)
Theorem RunSteps_only_reads (env : Env) (steps_ : list GLRStep) (w w' : World) :
  RunSteps env steps_ w = Ok tt w' ->
  heap w' = heap w /\
  generated w' = generated w /\
  nameCache_ (runner w') = nameCache_ (runner w) /\
  globalVAO_ (runner w') = globalVAO_ (runner w) /\
  targetWidth_ (runner w') = targetWidth_ (runner w) /\
  targetHeight_ (runner w') = targetHeight_ (runner w) /\
  curFramebuffer_ (runner w') = curFramebuffer_ (runner w) /\
  maxAnisotropyLevel_ (runner w') = maxAnisotropyLevel_ (runner w).
Proof.
  intros Hrun.
  destruct (RunSteps_from_steps only_dims_and_trace (fun _ => True) env 0 steps_
              (fun _ => I) w tt w' Hrun) as (Hheap & Hgen & width & height & Hrunner).
  rewrite Hrunner. by repeat split.
Qed.

Lemma RunSteps_only_reads_witness :
  heap world_after_two = heap world_copy /\
  generated world_after_two = generated world_copy /\
  nameCache_ (runner world_after_two) = nameCache_ (runner world_copy) /\
  globalVAO_ (runner world_after_two) = globalVAO_ (runner world_copy) /\
  targetWidth_ (runner world_after_two) = targetWidth_ (runner world_copy) /\
  targetHeight_ (runner world_after_two) = targetHeight_ (runner world_copy) /\
  curFramebuffer_ (runner world_after_two) = curFramebuffer_ (runner world_copy) /\
  maxAnisotropyLevel_ (runner world_after_two) = maxAnisotropyLevel_ (runner world_copy).
Proof.
  apply (RunSteps_only_reads env0 steps_two world_copy world_after_two).
  vm_compute. reflexivity.
Defined.

(** Steps run front to back, each released right after it ran. *)
Lemma RunSteps_from_deleted (env : Env) (steps_ : list GLRStep) :
  forall (i : nat) (w w' : World),
    RunSteps_from env i steps_ w = Ok tt w' ->
    omap deleted_step (issued w') = omap deleted_step (issued w) ++ seq i (length steps_).
Proof.
  induction steps_ as [|step rest IH]; intros i w w' Hrun; simpl in Hrun.
  - injection Hrun as <-. by rewrite app_nil_r.
  - apply bind_Ok in Hrun. destruct Hrun as ([] & w1 & Hstep & Hrun).
    apply bind_Ok in Hrun. destruct Hrun as ([] & w2 & Hdel & Hrun).
    injection Hdel as <-.
    apply IH in Hrun. rewrite Hrun, issued_issue, omap_app. simpl.
    assert (Hnone : steps (extends_trace (fun e => deleted_step e = None)) (RunStep env step)).
    { eapply steps_weaken; [|apply RunStep_gl_calls]. by intros []. }
    rewrite (unchanged_omap deleted_step _ _ _ _ Hnone Hstep).
    by rewrite <- app_assoc.
Qed.

(** X2. RunSteps releases every step exactly once and in order: when it
    completes on [n] steps, the [delete steps[i]] it has executed are those
    for i = 0, 1, ..., n-1, in that order. *)
Theorem RunSteps_releases_every_step_once
    (env : Env) (steps_ : list GLRStep) (w w' : World) :
  RunSteps env steps_ w = Ok tt w' ->
  omap deleted_step (issued w') = omap deleted_step (issued w) ++ seq 0 (length steps_).
Proof. exact (RunSteps_from_deleted env steps_ 0 w w'). Qed.

Lemma RunSteps_releases_every_step_once_witness :
  omap deleted_step (issued world_after_two)
  = omap deleted_step (issued world_copy) ++ seq 0 (length steps_two).
Proof.
  apply (RunSteps_releases_every_step_once env0 steps_two world_copy world_after_two).
  vm_compute. reflexivity.
Defined.

(** Running a batch that is two batches one after the other. *)
Lemma RunSteps_from_app (env : Env) (steps1 steps2 : list GLRStep) :
  forall (i : nat) (w : World),
    RunSteps_from env i (steps1 ++ steps2) w
    = bind (RunSteps_from env i steps1)
        (fun _ => RunSteps_from env (i + length steps1) steps2) w.
Proof.
  induction steps1 as [|step rest IH]; intros i w; simpl.
  - unfold bind, ret. by rewrite Nat.add_0_r.
  - unfold bind. destruct (RunStep env step w) as [[] w1| | |]; try done.
    cbn [emit]. rewrite IH. unfold bind. by rewrite Nat.add_succ_r.
Qed.

Lemma RunInitSteps_app (env : Env) (steps1 steps2 : list GLRInitStep) (w : World) :
  RunInitSteps env (steps1 ++ steps2) w
  = bind (RunInitSteps env steps1) (fun _ => RunInitSteps env steps2) w.
Proof.
  unfold RunInitSteps. revert w. induction steps1 as [|step rest IH]; intros w; simpl.
  - reflexivity.
  - unfold bind. by destruct (RunInitStep env step w) as [[] w1| | |].
Qed.

(** X3. An unrecognised step kind stops the run at once.  If the steps before
    it complete, the batch ends in the crash, in exactly the world those
    steps left: the unknown step is not released and no later step is run.
    This holds for RunSteps and for RunInitSteps. *)
Theorem unknown_step_crashes_at_once (env : Env) :
  (forall (before after : list GLRStep) (tag : Z) (w w1 : World),
     RunSteps env before w = Ok tt w1 ->
     RunSteps env (before ++ UNKNOWN_STEP tag :: after) w = Crashed w1) /\
  (forall (before after : list GLRInitStep) (tag : Z) (w w1 : World),
     RunInitSteps env before w = Ok tt w1 ->
     RunInitSteps env (before ++ UNKNOWN_INIT_STEP tag :: after) w = Crashed w1).
Proof.
  split; intros before after tag w w1 Hbefore.
  - unfold RunSteps in *. rewrite RunSteps_from_app. unfold bind. by rewrite Hbefore.
  - rewrite RunInitSteps_app. unfold bind. by rewrite Hbefore.
Qed.

Lemma unknown_step_crashes_at_once_witness :
  RunSteps env0 (steps_two ++ UNKNOWN_STEP 99 :: [BLIT]) world_copy
    = Crashed world_after_two /\
  RunInitSteps env0 (init_two ++ UNKNOWN_INIT_STEP 99 :: [TEXTURE_SUBDATA]) world_buf
    = Crashed world_after_init_two.
Proof.
  split.
  - apply (proj1 (unknown_step_crashes_at_once env0)). vm_compute. reflexivity.
  - apply (proj2 (unknown_step_crashes_at_once env0)). vm_compute. reflexivity.
Defined.

(** X4. Init steps never touch the runner, the input layouts or the
    framebuffers.  When RunInitSteps completes, every member of the runner
    (the texture name pool included: CREATE_TEXTURE asks the device itself)
    is as before, and so is every input-layout and framebuffer record:
    CREATE_INPUT_LAYOUT and CREATE_FRAMEBUFFER write nothing. *)
Theorem RunInitSteps_keeps_runner_and_layouts
    (env : Env) (steps_ : list GLRInitStep) (w w' : World) :
  RunInitSteps env steps_ w = Ok tt w' ->
  runner w' = runner w /\
  inputLayouts (heap w') = inputLayouts (heap w) /\
  framebuffers (heap w') = framebuffers (heap w).
Proof.
  intros Hrun.
  refine (steps_for_each init_untouched (fun _ => True) steps_ (RunInitStep env)
            _ w tt w' Hrun).
  intros step. by apply (RunInitStep_steps init_untouched (fun _ => True)).
Qed.

Lemma RunInitSteps_keeps_runner_and_layouts_witness :
  runner world_after_init_two = runner world_buf /\
  inputLayouts (heap world_after_init_two) = inputLayouts (heap world_buf) /\
  framebuffers (heap world_after_init_two) = framebuffers (heap world_buf).
Proof.
  apply (RunInitSteps_keeps_runner_and_layouts env0 init_two world_buf world_after_init_two).
  vm_compute. reflexivity.
Defined.

(** ** The shadow locals across a pass *)

Lemma returns_ret {A} (Q : A -> Prop) (a : A) : Q a -> returns Q (ret a).
Proof. by intros Ha w a' w' [= <- <-]. Qed.

Lemma returns_bind {A B} (Q' : A -> Prop) (Q : B -> Prop) (m : M A) (k : A -> M B) :
  returns Q' m -> (forall a, Q' a -> returns Q (k a)) -> returns Q (bind m k).
Proof.
  intros Hm Hk w b w' Hrun. apply bind_Ok in Hrun. destruct Hrun as (a & w1 & Hm' & Hk').
  exact (Hk a (Hm _ _ _ Hm') _ _ _ Hk').
Qed.

Lemma returns_any {A} (m : M A) : returns (fun _ => True) m.
Proof. by intros w a w' _. Qed.

Lemma returns_seq {A B} (Q : B -> Prop) (m : M A) (k : A -> M B) :
  (forall a, returns Q (k a)) -> returns Q (bind m k).
Proof. intros Hk. apply (returns_bind (fun _ => True)); [apply returns_any|by intros]. Qed.

Lemma returns_undefined {A} (Q : A -> Prop) : returns Q undefined.
Proof. by intros w a w'. Qed.

Lemma returns_Crash {A} (Q : A -> Prop) : returns Q Crash.
Proof. by intros w a w'. Qed.

(** Walk a command down to the shadow it returns. *)
Ltac returns_walk :=
  repeat lazymatch goal with
    | |- forall _, _ => intro
    | |- returns _ (if ?b then _ else _) => destruct b
    | |- returns _ (match ?x with _ => _ end) => destruct x
    | |- returns _ (bind _ _) => apply returns_seq
    | |- returns _ (ret _) => apply returns_ret
    | |- returns _ undefined => apply returns_undefined
    | |- returns _ Crash => apply returns_Crash
    end.

(** The three shadow locals change only through their own commands. *)
Lemma BINDTEXTURE_returns (env : Env) (slot : Z) (texture : ptr) (sh : Shadow) :
  returns (fun sh' => sh' = mkShadow (curProgram sh) slot (attrMask sh))
    (PerformCommand env (BINDTEXTURE slot texture) sh).
Proof.
  unfold PerformCommand.
  apply (returns_bind (fun sh' => sh' = mkShadow (curProgram sh) slot (attrMask sh))).
  - destruct (Z.eqb_spec slot (activeTexture sh)) as [->|_]; cbn [negb].
    + apply returns_ret. by destruct sh.
    + returns_walk. reflexivity.
  - intros sh' ->. returns_walk; reflexivity.
Qed.

Lemma PerformCommand_keeps_curProgram (env : Env) (c : GLRRenderData) (sh : Shadow) :
  is_bind_program c = false ->
  returns (fun sh' => curProgram sh' = curProgram sh) (PerformCommand env c sh).
Proof.
  intros Hc. destruct c; try discriminate;
    try (unfold PerformCommand; returns_walk; reflexivity).
  intros w sh' w' Hrun. by rewrite (BINDTEXTURE_returns env _ _ sh _ _ _ Hrun).
Qed.

Lemma PerformCommand_keeps_attrMask (env : Env) (c : GLRRenderData) (sh : Shadow) :
  is_bind_input_layout c = false ->
  returns (fun sh' => attrMask sh' = attrMask sh) (PerformCommand env c sh).
Proof.
  intros Hc. destruct c; try discriminate;
    try (unfold PerformCommand; returns_walk; reflexivity).
  intros w sh' w' Hrun. by rewrite (BINDTEXTURE_returns env _ _ sh _ _ _ Hrun).
Qed.

Lemma PerformCommand_keeps_activeTexture (env : Env) (c : GLRRenderData) (sh : Shadow) :
  is_bind_texture c = false ->
  returns (fun sh' => activeTexture sh' = activeTexture sh) (PerformCommand env c sh).
Proof.
  intros Hc. destruct c; try discriminate;
    unfold PerformCommand; returns_walk; reflexivity.
Qed.

(** With no program bound, resolving a uniform by name dereferences the null
    [curProgram]. *)
Lemma resolve_loc_without_program
    (env : Env) (sh : Shadow) (n : string) (loc : ptr) (w : World) (l : GLint) (w' : World) :
  curProgram sh = nullptr ->
  resolve_loc env sh (Some n) loc w <> Ok l w'.
Proof.
  intros Hcur Hrun. unfold resolve_loc in Hrun. rewrite Hcur in Hrun.
  apply bind_Ok in Hrun. destruct Hrun as (l0 & w0 & _ & Hrun).
  apply bind_Ok in Hrun. by destruct Hrun as (p & w1 & Hderef & _).
Qed.

Lemma uniform_by_name_without_program
    (env : Env) (c : GLRRenderData) (sh : Shadow) (w : World) (sh' : Shadow) (w' : World) :
  uniform_by_name c = true ->
  curProgram sh = nullptr ->
  PerformCommand env c sh w <> Ok sh' w'.
Proof.
  intros Hc Hcur Hrun.
  destruct c as [| | | | | |[n|] loc ? ?|[n|] loc ? ?|[n|] loc ?| | | | | | | | | | | | |];
    try discriminate;
    unfold PerformCommand in Hrun;
    apply bind_Ok in Hrun; destruct Hrun as (l & w1 & Hloc & _);
    exact (resolve_loc_without_program env sh n loc w l w1 Hcur Hloc).
Qed.

Lemma PerformCommands_uniform_by_name (env : Env) (before : list GLRRenderData) :
  forall (c : GLRRenderData) (after : list GLRRenderData) (sh : Shadow) (w : World)
         (sh' : Shadow) (w' : World),
    forallb (fun c => negb (is_bind_program c)) before = true ->
    uniform_by_name c = true ->
    curProgram sh = nullptr ->
    PerformCommands env (before ++ c :: after) sh w <> Ok sh' w'.
Proof.
  induction before as [|b before IH]; intros c after sh w sh' w' Hbefore Hc Hcur Hrun;
    simpl in Hrun; apply bind_Ok in Hrun; destruct Hrun as (sh1 & w1 & Hfirst & Hrest).
  - exact (uniform_by_name_without_program env c sh w sh1 w1 Hc Hcur Hfirst).
  - simpl in Hbefore. apply andb_true_iff in Hbefore as [Hb Hbefore].
    apply negb_true_iff in Hb.
    pose proof (PerformCommand_keeps_curProgram env b sh Hb _ _ _ Hfirst) as Hsame.
    simpl in Hsame.
    apply (IH c after sh1 w1 sh' w' Hbefore Hc); [congruence|exact Hrest].
Qed.

(** X5. The bound program does not carry over from one pass to the next.  A
    pass in which a by-name uniform upload (UNIFORM4F, UNIFORM4I or
    UNIFORMMATRIX with a name) comes before any BINDPROGRAM never completes:
    the upload resolves the name through [curProgram], which every pass
    starts as null. *)
Theorem uniform_by_name_needs_program_in_pass
    (env : Env) (framebuffer : ptr) (before : list GLRRenderData) (c : GLRRenderData)
    (after : list GLRRenderData) (w w' : World) :
  forallb (fun c => negb (is_bind_program c)) before = true ->
  uniform_by_name c = true ->
  PerformRenderPass env framebuffer (before ++ c :: after) w <> Ok tt w'.
Proof.
  intros Hbefore Hc Hrun. unfold PerformRenderPass in Hrun.
  destruct (before ++ c :: after) as [|c0 commands] eqn:Hcommands;
    [by destruct before|].
  cbv beta iota in Hrun. rewrite <- Hcommands in Hrun. clear Hcommands c0 commands.
  repeat (apply bind_Ok in Hrun; destruct Hrun as (? & ? & ? & Hrun)).
  match goal with
  | H : PerformCommands _ _ _ _ = Ok _ _ |- _ =>
      refine (PerformCommands_uniform_by_name env before c after _ _ _ _ Hbefore Hc _ H);
      reflexivity
  end.
Qed.

Lemma uniform_by_name_needs_program_in_pass_witness :
  PerformRenderPass env0 nullptr
    ([GENMIPS] ++ UNIFORM4F (Some "u_color") nullptr 4 [0; 0; 0; 0] :: [DRAW 4 0 3]) world0
  <> Ok tt world0.
Proof.
  apply (uniform_by_name_needs_program_in_pass env0 nullptr [GENMIPS]
           (UNIFORM4F (Some "u_color") nullptr 4 [0; 0; 0; 0]) [DRAW 4 0 3] world0 world0);
    reflexivity.
Defined.

(** ** Whole passes *)

Lemma seq_SEM_MAX_decide (i : nat) :
  bool_decide (i ∈ seq 0 SEM_MAX) = (i <? SEM_MAX)%nat.
Proof.
  destruct (Nat.ltb_spec i SEM_MAX).
  - apply bool_decide_eq_true_2, elem_of_seq. lia.
  - apply bool_decide_eq_false_2. rewrite elem_of_seq. lia.
Qed.

Lemma PerformCommand_no_attr_toggle (env : Env) (c : GLRRenderData) (sh : Shadow) :
  is_bind_input_layout c = false ->
  steps (extends_trace (fun e => is_attr_toggle e = false)) (PerformCommand env c sh).
Proof.
  intros Hc.
  destruct c; try discriminate; unfold PerformCommand, resolve_loc; steps_walk; reflexivity.
Qed.

Lemma no_attr_toggle_counts {A} (m : M A) (i : nat) (w : World) (a : A) (w' : World) :
  steps (extends_trace (fun e => is_attr_toggle e = false)) m ->
  m w = Ok a w' ->
  count_events (is_enable i) (issued w') = count_events (is_enable i) (issued w) /\
  count_events (is_disable i) (issued w') = count_events (is_disable i) (issued w).
Proof.
  intros Hm Hrun.
  split; (eapply unchanged_count; [|exact Hrun]); (eapply steps_weaken; [|exact Hm]);
    by intros [].
Qed.

(** The enables and disables of one layout switch, slot by slot. *)
Lemma layout_switch_counts (M N : Z) (offset : Z) (entries : list Entry.t) (i : nat) :
  let es := flat_map (slot_events (mask_bit (Z.land N (Z.lnot M)))
                        (mask_bit (Z.land (Z.lnot N) M))) (seq 0 SEM_MAX)
            ++ flat_map (fun e => [pointer_event offset e]) entries in
  (count_events (is_enable i) es + tracked i M
   = count_events (is_disable i) es + tracked i N)%nat.
Proof.
  intros es. unfold es, tracked.
  rewrite !count_events_app.
  rewrite count_enable_slot_events, count_disable_slot_events by apply NoDup_seq.
  rewrite !count_pointer_events by reflexivity.
  rewrite seq_SEM_MAX_decide, !mask_bit_testbit, !Z.land_spec, !Z.lnot_spec by lia.
  destruct (i <? SEM_MAX)%nat, (Z.testbit N (Z.of_nat i)), (Z.testbit M (Z.of_nat i));
    reflexivity.
Qed.

(** Each command keeps the books: what it enables, minus what it disables,
    is the change in what the shadow mask tracks. *)
Lemma PerformCommand_attr_balance
    (env : Env) (c : GLRRenderData) (i : nat) (sh : Shadow) (w : World)
    (sh' : Shadow) (w' : World) :
  PerformCommand env c sh w = Ok sh' w' ->
  (count_events (is_enable i) (issued w') + count_events (is_disable i) (issued w)
   + tracked i (attrMask sh)
   = count_events (is_enable i) (issued w) + count_events (is_disable i) (issued w')
     + tracked i (attrMask sh'))%nat.
Proof.
  intros Hrun. destruct (is_bind_input_layout c) eqn:Hc.
  - destruct c as [| | | | | | | | | | | | |[a|] offset| | | | | | | |]; try discriminate.
    destruct (inputLayouts (heap w) !! a) as [layout|] eqn:Hl.
    + rewrite (bind_input_layout_command env a layout offset sh w Hl) in Hrun.
      injection Hrun as <- <-. rewrite issued_issue, !(count_events_app _ (issued w)).
      pose proof (layout_switch_counts (attrMask sh) (GLRInputLayout.semanticsMask_ layout)
                    offset (GLRInputLayout.entries layout) i) as Hcounts.
      simpl in Hcounts. simpl attrMask. lia.
    + unfold PerformCommand, bind, deref in Hrun. by rewrite Hl in Hrun.
  - destruct (no_attr_toggle_counts _ i _ _ _ (PerformCommand_no_attr_toggle env c sh Hc) Hrun)
      as [-> ->].
    pose proof (PerformCommand_keeps_attrMask env c sh Hc _ _ _ Hrun) as Hmask.
    simpl in Hmask. rewrite Hmask. lia.
Qed.

Lemma PerformCommands_attr_balance (env : Env) (commands : list GLRRenderData) (i : nat) :
  forall (sh : Shadow) (w : World) (sh' : Shadow) (w' : World),
    PerformCommands env commands sh w = Ok sh' w' ->
    (count_events (is_enable i) (issued w') + count_events (is_disable i) (issued w)
     + tracked i (attrMask sh)
     = count_events (is_enable i) (issued w) + count_events (is_disable i) (issued w')
       + tracked i (attrMask sh'))%nat.
Proof.
  induction commands as [|c rest IH]; intros sh w sh' w' Hrun; simpl in Hrun.
  - by injection Hrun as <- <-.
  - apply bind_Ok in Hrun. destruct Hrun as (sh1 & w1 & Hc & Hrest).
    apply (PerformCommand_attr_balance env c i) in Hc. apply IH in Hrest. lia.
Qed.

(** The loop that ends a pass switches off what the shadow mask tracks. *)
Lemma pass_end_disables (mask : Z) (w : World) :
  for_each (seq 0 SEM_MAX) (fun i =>
    when (nonzero (Z.land mask (Z.shiftl 1 (Z.of_nat i))))
      (emit (glDisableVertexAttribArray (Z.of_nat i)))) w
  = Ok tt (issue (flat_map (slot_events (fun _ => false) (mask_bit mask)) (seq 0 SEM_MAX)) w).
Proof.
  apply for_each_issue. intros i w'. unfold slot_events, mask_bit, when.
  destruct (nonzero _); simpl; unfold emit, ret; rewrite ?issue_nil; reflexivity.
Qed.

Lemma pass_end_counts (mask : Z) (i : nat) (w w' : World) :
  for_each (seq 0 SEM_MAX) (fun i =>
    when (nonzero (Z.land mask (Z.shiftl 1 (Z.of_nat i))))
      (emit (glDisableVertexAttribArray (Z.of_nat i)))) w = Ok tt w' ->
  count_events (is_enable i) (issued w') = count_events (is_enable i) (issued w) /\
  count_events (is_disable i) (issued w')
  = (count_events (is_disable i) (issued w) + tracked i mask)%nat.
Proof.
  intros Hrun.
  assert (Hw : w' = issue (flat_map (slot_events (fun _ => false) (mask_bit mask))
                              (seq 0 SEM_MAX)) w)
    by (rewrite pass_end_disables in Hrun; congruence).
  rewrite Hw, issued_issue, !count_events_app.
  rewrite count_enable_slot_events, count_disable_slot_events by apply NoDup_seq.
  rewrite seq_SEM_MAX_decide, andb_false_r. unfold tracked. split; [lia|reflexivity].
Qed.

(** X6. A pass leaves no attribute array switched on.  Over every render
    pass that completes, and for every attribute slot, the pass issues as
    many glDisableVertexAttribArray calls for the slot as
    glEnableVertexAttribArray calls: whatever the layout switches enabled and
    not yet disabled, the closing loop disables. *)
Theorem render_pass_balances_attribute_arrays
    (env : Env) (framebuffer : ptr) (commands : list GLRRenderData) (i : nat)
    (w w' : World) :
  PerformRenderPass env framebuffer commands w = Ok tt w' ->
  (count_events (is_enable i) (issued w') + count_events (is_disable i) (issued w)
   = count_events (is_enable i) (issued w) + count_events (is_disable i) (issued w'))%nat.
Proof.
  unfold PerformRenderPass. destruct commands as [|c rest].
  - intros [= <-]. lia.
  - generalize (c :: rest); clear c rest; intros commands Hrun.
    repeat (apply bind_Ok in Hrun; destruct Hrun as (? & ? & ? & Hrun)).
    repeat match goal with u : unit |- _ => destruct u end.
    repeat match goal with
      | H : PerformCommands _ _ _ _ = Ok _ _ |- _ =>
          apply (PerformCommands_attr_balance env commands i) in H
      | H : for_each _ _ _ = Ok _ _ |- _ =>
          apply (pass_end_counts _ i) in H; destruct H
      | H : _ _ = Ok _ _ |- _ =>
          apply (no_attr_toggle_counts _ i) in H; [destruct H|by steps_walk]
      end.
    assert (Hzero : tracked i 0 = 0%nat).
    { unfold tracked, mask_bit. by rewrite Z.land_0_l, andb_false_r. }
    simpl attrMask in *. lia.
Qed.

Example pass_bind_draw_run :
  PerformRenderPass env0 nullptr pass_bind_draw world_layout6 = Ok tt world_after_pass.
Proof. vm_compute. reflexivity. Qed.

Lemma render_pass_balances_attribute_arrays_witness :
  (count_events (is_enable 1) (issued world_after_pass)
   + count_events (is_disable 1) (issued world_layout6)
   = count_events (is_enable 1) (issued world_layout6)
     + count_events (is_disable 1) (issued world_after_pass))%nat.
Proof.
  apply (render_pass_balances_attribute_arrays env0 nullptr pass_bind_draw 1
           world_layout6 world_after_pass).
  vm_compute. reflexivity.
Defined.

(** *** The active texture unit *)

Lemma selected_units_grow {A} (m : M A) (w : World) (a : A) (w' : World) :
  steps (extends_trace (fun _ => True)) m ->
  m w = Ok a w' ->
  exists us, omap selected_unit (issued w') = omap selected_unit (issued w) ++ us.
Proof.
  intros Hm Hrun. destruct (Hm _ _ _ Hrun) as (es & -> & _).
  exists (omap selected_unit es). apply omap_app.
Qed.

Lemma PerformCommand_no_unit_selected (env : Env) (c : GLRRenderData) (sh : Shadow) :
  is_bind_texture c = false ->
  steps (extends_trace (fun e => selected_unit e = None)) (PerformCommand env c sh).
Proof.
  intros Hc.
  destruct c; try discriminate; unfold PerformCommand, resolve_loc, attr_loop;
    steps_walk; reflexivity.
Qed.

(** A command either leaves the shadow slot and the device's unit alone, or
    leaves the shadow slot different from [GL_TEXTURE0]. *)
Lemma PerformCommand_unit
    (env : Env) (c : GLRRenderData) (sh : Shadow) (w : World) (sh' : Shadow) (w' : World) :
  Forall (fun slot => slot <> GL_TEXTURE0) (texture_slots [c]) ->
  PerformCommand env c sh w = Ok sh' w' ->
  exists us, omap selected_unit (issued w') = omap selected_unit (issued w) ++ us /\
    ((activeTexture sh' = activeTexture sh /\ us = []) \/ activeTexture sh' <> GL_TEXTURE0).
Proof.
  intros Hslots Hrun. destruct (is_bind_texture c) eqn:Hc.
  - destruct c as [| | | | | | | | | | |slot texture| | | | | | | | | |]; try discriminate.
    simpl in Hslots. apply Forall_cons_1 in Hslots as [Hslot _].
    destruct (Z.eqb_spec slot (activeTexture sh)) as [Heq|Hne].
    + exists []. rewrite app_nil_r.
      pose proof (BINDTEXTURE_returns env slot texture sh _ _ _ Hrun) as ->.
      split; [|by left].
      assert (Hsame : exists tgt name, w' = issue [glBindTexture tgt name] w).
      { destruct texture as [a|].
        - destruct (textures (heap w) !! a) as [tex|] eqn:Htex.
          + rewrite (bind_live_texture_command env slot a tex sh w Htex) in Hrun.
            rewrite <- Heq, Z.eqb_refl in Hrun. injection Hrun as <-. by eexists _, _.
          + unfold PerformCommand, bind, deref in Hrun.
            destruct (negb _); simpl in Hrun; by rewrite Htex in Hrun.
        - rewrite bind_null_texture_command in Hrun.
          rewrite <- Heq, Z.eqb_refl in Hrun. injection Hrun as <-. by eexists _, _. }
      destruct Hsame as (tgt & name & ->). by rewrite issued_issue, omap_app, app_nil_r.
    + destruct (selected_units_grow _ _ _ _
                  (PerformCommand_steps _ _ env (BINDTEXTURE slot texture) sh (fun _ => I)) Hrun)
        as (us & Hus).
      exists us. split; [exact Hus|right].
      by rewrite (BINDTEXTURE_returns env slot texture sh _ _ _ Hrun).
  - exists []. rewrite app_nil_r. split.
    + exact (unchanged_omap _ _ _ _ _ (PerformCommand_no_unit_selected env c sh Hc) Hrun).
    + left. split; [|done].
      exact (PerformCommand_keeps_activeTexture env c sh Hc _ _ _ Hrun).
Qed.

Lemma PerformCommands_unit (env : Env) (commands : list GLRRenderData) :
  forall (sh : Shadow) (w : World) (sh' : Shadow) (w' : World),
    Forall (fun slot => slot <> GL_TEXTURE0) (texture_slots commands) ->
    PerformCommands env commands sh w = Ok sh' w' ->
    exists us, omap selected_unit (issued w') = omap selected_unit (issued w) ++ us /\
      ((activeTexture sh' = activeTexture sh /\ us = []) \/ activeTexture sh' <> GL_TEXTURE0).
Proof.
  induction commands as [|c rest IH]; intros sh w sh' w' Hslots Hrun; simpl in Hrun.
  - injection Hrun as <- <-. exists []. rewrite app_nil_r. split; [done|by left].
  - apply bind_Ok in Hrun. destruct Hrun as (sh1 & w1 & Hc & Hrest).
    unfold texture_slots in Hslots. simpl in Hslots.
    apply Forall_app in Hslots as [Hc_slots Hrest_slots].
    assert (Hc_slots' : Forall (fun slot => slot <> GL_TEXTURE0) (texture_slots [c]))
      by (unfold texture_slots; simpl; by rewrite app_nil_r).
    destruct (PerformCommand_unit env c sh w sh1 w1 Hc_slots' Hc) as (us1 & Hus1 & Hsh1).
    destruct (IH sh1 w1 sh' w' Hrest_slots Hrest) as (us2 & Hus2 & Hsh').
    exists (us1 ++ us2). rewrite Hus2, Hus1, app_assoc. split; [done|].
    destruct Hsh' as [[Hact ->]|Hne]; [|by right].
    destruct Hsh1 as [[Hact1 ->]|Hne1]; [left|right]; [split; [congruence|done]|congruence].
Qed.

(** X7. A pass hands the texture unit back.  In every render pass that
    completes and binds textures only to slot indices other than the number
    0x84C0, either no glActiveTexture call is issued at all, or the last one
    issued selects GL_TEXTURE0. *)
Theorem render_pass_restores_texture_unit
    (env : Env) (framebuffer : ptr) (commands : list GLRRenderData) (w w' : World) :
  Forall (fun slot => slot <> GL_TEXTURE0) (texture_slots commands) ->
  PerformRenderPass env framebuffer commands w = Ok tt w' ->
  exists us, omap selected_unit (issued w') = omap selected_unit (issued w) ++ us /\
    (us = [] \/ last us = Some GL_TEXTURE0).
Proof.
  intros Hslots. unfold PerformRenderPass. destruct commands as [|c rest].
  - intros [= <-]. exists []. rewrite app_nil_r. by split; [|left].
  - revert Hslots. generalize (c :: rest); clear c rest; intros commands Hslots Hrun.
    repeat (apply bind_Ok in Hrun; destruct Hrun as (? & ? & ? & Hrun)).
    repeat match goal with u : unit |- _ => destruct u end.
    repeat match goal with
      | H : PerformCommands _ _ _ _ = Ok _ _ |- _ =>
          apply (PerformCommands_unit env commands _ _ _ _ Hslots) in H;
          destruct H as (us & Hus & Hsh)
      | H : when (negb (?x =? ?y)) _ _ = Ok _ _ |- _ =>
          unfold when in H; destruct (Z.eqb_spec x y) as [Hact|Hact]; cbn [negb] in H
      | H : emit (glActiveTexture _) _ = Ok _ _ |- _ =>
          unfold emit in H; injection H as H;
          apply (f_equal (fun w => omap selected_unit (issued w))) in H;
          rewrite issued_issue, omap_app in H; simpl omap in H
      | H : _ _ = Ok _ _ |- _ =>
          apply (unchanged_omap selected_unit) in H; [|by steps_walk]
      end.
    + destruct Hsh as [[_ ->]|Hne]; [|done].
      exists []. rewrite app_nil_r in *. split; [congruence|by left].
    + exists (us ++ [GL_TEXTURE0]). split; [|right; apply last_snoc].
      rewrite app_assoc. unfold GLenum in *. congruence.
Qed.

Lemma render_pass_restores_texture_unit_witness :
  exists us,
    omap selected_unit (issued world_after_pass)
    = omap selected_unit (issued world_layout6) ++ us /\
    (us = [] \/ last us = Some GL_TEXTURE0).
Proof.
  apply (render_pass_restores_texture_unit env0 nullptr pass_bind_draw
           world_layout6 world_after_pass).
  - repeat constructor; vm_compute; discriminate.
  - vm_compute. reflexivity.
Defined.

(** *** The scissor test *)

Lemma scissor_run_app (on : bool) (es1 es2 : list Event) :
  scissor_run on (es1 ++ es2)
  = match scissor_run on es1 with Some s => scissor_run s es2 | None => None end.
Proof.
  revert on. induction es1 as [|e es1 IH]; intros on; [reflexivity|].
  destruct e; simpl; try apply IH; by destruct on.
Qed.

Lemma scissor_run_neutral (on : bool) (es : list Event) :
  Forall (fun e => scissor_neutral e = true) es -> scissor_run on es = Some on.
Proof.
  induction 1 as [|e es He _ IH]; [reflexivity|].
  destruct e; simpl in *; try discriminate; try exact IH;
    apply negb_true_iff in He; by rewrite He.
Qed.

Lemma scissor_run_kept (es : list Event) :
  Forall (fun e => scissor_run true [e] = Some true) es -> scissor_run true es = Some true.
Proof.
  induction 1 as [|e es He _ IH]; [reflexivity|].
  change (e :: es) with ([e] ++ es). by rewrite scissor_run_app, He.
Qed.

Lemma scissor_moves_refl (a : bool) (w : World) : scissor_moves a a w w.
Proof. exists []. by rewrite app_nil_r. Qed.

Lemma scissor_moves_trans (a b c : bool) (w1 w2 w3 : World) :
  scissor_moves a b w1 w2 -> scissor_moves b c w2 w3 -> scissor_moves a c w1 w3.
Proof.
  intros (es1 & H1 & Hab) (es2 & H2 & Hbc). exists (es1 ++ es2).
  rewrite H2, H1, app_assoc, scissor_run_app, Hab. by split.
Qed.

Lemma scissor_moves_neutral {A} (a : bool) (m : M A) (w : World) (x : A) (w' : World) :
  steps (extends_trace (fun e => scissor_neutral e = true)) m ->
  m w = Ok x w' -> scissor_moves a a w w'.
Proof.
  intros Hm Hrun. destruct (Hm _ _ _ Hrun) as (es & Hes & Hneutral).
  exists es. split; [exact Hes|by apply scissor_run_neutral].
Qed.

Lemma scissor_moves_issue (a b : bool) (es : list Event) (w : World) :
  scissor_run a es = Some b -> scissor_moves a b w (issue es w).
Proof. intros Hes. exists es. by rewrite issued_issue. Qed.

(** What one CLEAR command does. *)
Lemma clear_command
    (env : Env) (clearMask clearColor : Z) (clearZ : float) (clearStencil : Z)
    (sh : Shadow) (w : World) :
  PerformCommand env (CLEAR clearMask clearColor clearZ clearStencil) sh w
  = Ok sh (issue ([glDisable GL_SCISSOR_TEST; glColorMask GL_TRUE GL_TRUE GL_TRUE GL_TRUE]
                  ++ (if nonzero (Z.land clearMask GL_COLOR_BUFFER_BIT)
                      then [glClearColor (Uint8x4ToFloat4 env clearColor)] else [])
                  ++ (if nonzero (Z.land clearMask GL_DEPTH_BUFFER_BIT)
                      then [if USING_GLES2 (config env) then glClearDepthf clearZ
                            else glClearDepth clearZ]
                      else [])
                  ++ (if nonzero (Z.land clearMask GL_STENCIL_BUFFER_BIT)
                      then [glClearStencil clearStencil] else [])
                  ++ [glClear clearMask; glEnable GL_SCISSOR_TEST]) w).
Proof.
  unfold PerformCommand, bind, when, emit, ret.
  destruct (nonzero (Z.land clearMask GL_COLOR_BUFFER_BIT)),
    (nonzero (Z.land clearMask GL_DEPTH_BUFFER_BIT)),
    (nonzero (Z.land clearMask GL_STENCIL_BUFFER_BIT)),
    (USING_GLES2 (config env));
    rewrite ?issue_issue; reflexivity.
Qed.

Lemma PerformCommand_scissor_kept (env : Env) (c : GLRRenderData) (sh : Shadow) :
  is_clear c = false ->
  steps (extends_trace (fun e => scissor_run true [e] = Some true)) (PerformCommand env c sh).
Proof.
  intros Hc.
  destruct c; try discriminate; unfold PerformCommand, resolve_loc, attr_loop;
    steps_walk; reflexivity.
Qed.

Lemma PerformCommand_scissor
    (env : Env) (c : GLRRenderData) (sh : Shadow) (w : World) (sh' : Shadow) (w' : World) :
  PerformCommand env c sh w = Ok sh' w' -> scissor_moves true true w w'.
Proof.
  intros Hrun. destruct (is_clear c) eqn:Hc.
  - destruct c; try discriminate. rewrite clear_command in Hrun. injection Hrun as _ <-.
    apply scissor_moves_issue.
    destruct (nonzero (Z.land clearMask GL_COLOR_BUFFER_BIT)),
      (nonzero (Z.land clearMask GL_DEPTH_BUFFER_BIT)),
      (nonzero (Z.land clearMask GL_STENCIL_BUFFER_BIT)),
      (USING_GLES2 (config env)); reflexivity.
  - destruct (PerformCommand_scissor_kept env c sh Hc _ _ _ Hrun) as (es & Hes & Hkept).
    exists es. split; [exact Hes|by apply scissor_run_kept].
Qed.

Lemma PerformCommands_scissor (env : Env) (commands : list GLRRenderData) :
  forall (sh : Shadow) (w : World) (sh' : Shadow) (w' : World),
    PerformCommands env commands sh w = Ok sh' w' -> scissor_moves true true w w'.
Proof.
  induction commands as [|c rest IH]; intros sh w sh' w' Hrun; simpl in Hrun.
  - injection Hrun as _ <-. apply scissor_moves_refl.
  - apply bind_Ok in Hrun. destruct Hrun as (sh1 & w1 & Hc & Hrest).
    eapply scissor_moves_trans; [exact (PerformCommand_scissor env c sh w sh1 w1 Hc)|].
    exact (IH sh1 w1 sh' w' Hrest).
Qed.

Lemma PerformRenderPass_scissor_moves
    (env : Env) (framebuffer : ptr) (commands : list GLRRenderData) (on : bool)
    (w w' : World) :
  commands <> [] ->
  PerformRenderPass env framebuffer commands w = Ok tt w' ->
  scissor_moves on false w w'.
Proof.
  intros Hne. unfold PerformRenderPass. destruct commands as [|c rest]; [done|].
  clear Hne. generalize (c :: rest); clear c rest; intros commands Hrun.
  repeat (apply bind_Ok in Hrun; destruct Hrun as (? & ? & ? & Hrun)).
  repeat match goal with u : unit |- _ => destruct u end.
  repeat match goal with
    | H : PerformBindFramebufferAsRenderTarget _ _ = Ok _ _ |- _ =>
        apply (scissor_moves_neutral on) in H; [|by steps_walk]
    | H : emit (glEnable GL_SCISSOR_TEST) ?w0 = Ok _ _ |- _ =>
        injection H as <-;
        pose proof (scissor_moves_issue on true [glEnable GL_SCISSOR_TEST] w0 eq_refl)
    | H : emit (glDisable GL_SCISSOR_TEST) ?w0 = Ok _ _ |- _ =>
        injection H as <-;
        pose proof (scissor_moves_issue true false [glDisable GL_SCISSOR_TEST] w0 eq_refl)
    | H : PerformCommands _ _ _ _ = Ok _ _ |- _ => apply PerformCommands_scissor in H
    | H : _ _ = Ok _ _ |- _ =>
        apply (scissor_moves_neutral true) in H; [|by steps_walk]
    end.
  repeat (eapply scissor_moves_trans; [eassumption|]).
  apply scissor_moves_refl.
Qed.

(** X8. Clears run unscissored, draws run scissored.  Over every render
    pass with at least one command that completes, replaying the calls the
    pass issues against the device's scissor-test switch, from either
    starting position: every glClear is reached with the test off, every
    glDrawArrays and glDrawElements with the test on, and the pass ends with
    the test off. *)
Theorem render_pass_scissor_discipline
    (env : Env) (framebuffer : ptr) (commands : list GLRRenderData) (w w' : World) :
  commands <> [] ->
  PerformRenderPass env framebuffer commands w = Ok tt w' ->
  exists es, issued w' = issued w ++ es /\ forall on, scissor_run on es = Some false.
Proof.
  intros Hne Hrun.
  destruct (PerformRenderPass_scissor_moves env framebuffer commands true w w' Hne Hrun)
    as (es & Hes & _).
  exists es. split; [exact Hes|]. intros on.
  destruct (PerformRenderPass_scissor_moves env framebuffer commands on w w' Hne Hrun)
    as (es' & Hes' & Hrun').
  rewrite Hes in Hes'. by apply app_inv_head in Hes' as ->.
Qed.

Lemma render_pass_scissor_discipline_witness :
  exists es, issued world_after_pass = issued world_layout6 ++ es /\
             forall on, scissor_run on es = Some false.
Proof.
  apply (render_pass_scissor_discipline env0 nullptr pass_bind_draw
           world_layout6 world_after_pass).
  - discriminate.
  - vm_compute. reflexivity.
Defined.

(** ** Init batches *)

Lemma RunInitStep_frees (env : Env) (step : GLRInitStep) (w w' : World) :
  RunInitStep env step w = Ok tt w' ->
  omap freed (issued w') = omap freed (issued w) ++ payloads [step].
Proof.
  intros Hrun.
  destruct step as [| |buffer offset size data deleteData| | | | | | |];
    first
      [ (* a step that frees nothing *)
        rewrite app_nil_r; revert Hrun; apply unchanged_omap;
        unfold RunInitStep, link_failed, bind_frag_data, run_query, run_initializer;
        by steps_walk
      | (* a step with a payload *)
        unfold RunInitStep in Hrun;
        repeat match type of Hrun with
          | bind _ _ _ = _ => apply bind_Ok in Hrun; destruct Hrun as (? & ? & ? & Hrun)
          end;
        repeat match goal with u : unit |- _ => destruct u end;
        repeat match goal with
          | H : when ?b (emit (delete_array _)) _ = Ok _ _ |- _ =>
              destruct b; unfold when in H
          | H : emit (delete_array _) _ = Ok _ _ |- _ =>
              apply (f_equal (fun o => match o with
                                       | Ok _ w0 => omap freed (issued w0)
                                       | _ => []
                                       end)) in H;
              unfold emit in H; rewrite issued_issue, omap_app in H; simpl in H
          | H : _ _ = Ok _ _ |- _ =>
              apply (unchanged_omap freed) in H; [|by steps_walk]
          end;
        simpl payloads; rewrite ?app_nil_r; congruence ].
Qed.

Lemma payloads_cons (step : GLRInitStep) (rest : list GLRInitStep) :
  payloads (step :: rest) = payloads [step] ++ payloads rest.
Proof. unfold payloads. simpl. by rewrite app_nil_r. Qed.

(** X11. Every payload is freed once.  Over an init batch that completes,
    the arrays freed are exactly the arrays the steps own, each once and in
    step order: the code of every CREATE_SHADER, the pixels of every
    TEXTURE_IMAGE, and the data of the BUFFER_SUBDATA steps that set
    [deleteData]; the data of the other BUFFER_SUBDATA steps is never
    freed.  (The scratch buffer a failed link allocates and frees within the
    step is not a payload and is not counted.) *)
Theorem RunInitSteps_frees_each_payload_once
    (env : Env) (steps_ : list GLRInitStep) (w w' : World) :
  RunInitSteps env steps_ w = Ok tt w' ->
  omap freed (issued w') = omap freed (issued w) ++ payloads steps_.
Proof.
  revert w. induction steps_ as [|step rest IH]; intros w Hrun.
  - injection Hrun as <-. by rewrite app_nil_r.
  - unfold RunInitSteps in Hrun; simpl in Hrun.
    apply bind_Ok in Hrun. destruct Hrun as ([] & w1 & Hstep & Hrest).
    rewrite payloads_cons, app_assoc, <- (RunInitStep_frees env step w w1 Hstep).
    exact (IH w1 Hrest).
Qed.

Lemma RunInitSteps_frees_each_payload_once_witness :
  omap freed (issued world_after_init_two)
  = omap freed (issued world_buf) ++ payloads init_two.
Proof.
  apply (RunInitSteps_frees_each_payload_once env0 init_two world_buf world_after_init_two).
  vm_compute. reflexivity.
Defined.

(** ** The name pool over its life *)

Lemma deleted_textures_app (es1 es2 : list Event) :
  deleted_textures (es1 ++ es2) = deleted_textures es1 ++ deleted_textures es2.
Proof. apply flat_map_app. Qed.

(** Any number of allocations, from any pool: all complete, and the names
    handed out together with the pool left are the pool found together with
    the names the device generated meanwhile. *)
Lemma AllocTextureNames_ledger (env : Env) (n : nat) :
  forall w : World, exists (names : list GLuint) (w' : World),
    AllocTextureNames env n w = Ok names w' /\
    length names = n /\
    (generated w <= generated w')%nat /\
    names ++ nameCache_ (runner w')
      ≡ₚ nameCache_ (runner w)
         ++ map (genName (device env))
              (seq (generated w) (generated w' - generated w)) /\
    heap w' = heap w /\
    globalVAO_ (runner w') = globalVAO_ (runner w) /\
    deleted_textures (issued w') = deleted_textures (issued w).
Proof.
  induction n as [|n IH]; intros w.
  - exists [], w. rewrite Nat.sub_diag. simpl. by rewrite app_nil_r.
  - destruct (decide (nameCache_ (runner w) = [])) as [Hpool|Hpool].
    + pose proof (AllocTextureName_empty env w Hpool) as Hone.
      set (w1 := mkWorld _ _ _ _) in Hone.
      destruct (IH w1) as (rest & w' & Hrun & Hlen & Hgen & Hperm & Hheap & Hvao & Hdel).
      subst w1. unfold set_nameCache_ in Hperm, Hvao.
      cbn [runner generated nameCache_ heap globalVAO_] in Hgen, Hperm, Hheap, Hvao.
      exists (genName (device env) (generated w + 15) :: rest), w'.
      split; [simpl; unfold bind; by rewrite Hone, Hrun|].
      split; [simpl; by rewrite Hlen|].
      split; [lia|].
      split; [|split; [done|split; [by destruct (runner w)|]]].
      * rewrite Hpool. cbn [app].
        replace (generated w' - generated w)%nat
          with (15 + S (generated w' - (generated w + 16)))%nat by lia.
        rewrite seq_app, <- (cons_seq (generated w' - (generated w + 16)) (generated w + 15)).
        rewrite map_app, map_cons.
        replace (S (generated w + 15)) with (generated w + 16)%nat by lia.
        rewrite <- Permutation_middle. by rewrite Hperm.
      * rewrite Hdel. unfold issued. simpl. by rewrite deleted_textures_app, app_nil_r.
    + destruct (exists_last Hpool) as (pool & name & Hsnoc).
      pose proof (AllocTextureName_nonempty env pool name w Hsnoc) as Hone.
      set (w1 := mkWorld _ _ _ _) in Hone.
      destruct (IH w1) as (rest & w' & Hrun & Hlen & Hgen & Hperm & Hheap & Hvao & Hdel).
      subst w1. unfold set_nameCache_ in Hperm, Hvao.
      cbn [runner generated nameCache_ heap globalVAO_] in Hgen, Hperm, Hheap, Hvao.
      exists (name :: rest), w'.
      split; [simpl; unfold bind; by rewrite Hone, Hrun|].
      split; [simpl; by rewrite Hlen|].
      split; [lia|].
      split; [|split; [done|split; [by destruct (runner w)|exact Hdel]]].
      rewrite Hsnoc. cbn [app]. rewrite Hperm, <- app_assoc. cbn [app].
      by rewrite <- Permutation_middle.
Qed.

(** X12. The name pool conserves names.  Any number of consecutive
    AllocTextureName calls, started on any pool, all complete (the
    empty-vector pop is never reached), and no name is lost or made up: the
    names handed out together with the names left in the pool are, up to
    order, the names the pool held before together with the names the device
    generated during the calls.  No texture name is deleted on the way. *)
Theorem AllocTextureName_conserves_names (env : Env) (n : nat) (w : World) :
  exists (names : list GLuint) (w' : World),
    AllocTextureNames env n w = Ok names w' /\
    length names = n /\
    (generated w <= generated w')%nat /\
    names ++ nameCache_ (runner w')
      ≡ₚ nameCache_ (runner w)
         ++ map (genName (device env))
              (seq (generated w) (generated w' - generated w)) /\
    deleted_textures (issued w') = deleted_textures (issued w).
Proof.
  destruct (AllocTextureNames_ledger env n w)
    as (names & w' & Hrun & Hlen & Hgen & Hperm & _ & _ & Hdel).
  by exists names, w'.
Qed.

(** What DestroyDeviceObjects does to a runner. *)
Lemma DestroyDeviceObjects_run (w : World) :
  exists w',
    DestroyDeviceObjects w = Ok tt w' /\
    nameCache_ (runner w') = [] /\
    deleted_textures (issued w') = deleted_textures (issued w) ++ nameCache_ (runner w) /\
    last (issued w') = Some (glDeleteVertexArrays [globalVAO_ (runner w)]).
Proof.
  unfold DestroyDeviceObjects, bind, when, get_runner, put_runner, emit, ret.
  destruct (decide (nameCache_ (runner w) = [])) as [Hpool|Hpool].
  - rewrite (bool_decide_eq_true_2 _ Hpool). simpl. eexists. split; [reflexivity|].
    rewrite issued_issue, deleted_textures_app, last_snoc, Hpool. simpl.
    by rewrite app_nil_r.
  - rewrite (bool_decide_eq_false_2 _ Hpool). simpl. eexists. split; [reflexivity|].
    unfold issued. simpl. rewrite !deleted_textures_app, last_snoc. simpl.
    by rewrite !app_nil_r.
Qed.

(** X13. Names handed out outlive the pool.  On a runner whose pool is
    empty and a device that never hands out the same name twice: after any
    number of AllocTextureName calls, DestroyDeviceObjects completes, deletes
    exactly the names still in the pool, leaves the pool empty, and ends with
    the deletion of the runner's vertex array object; no name handed out is
    among the names deleted, and no name is handed out or deleted twice. *)
Theorem returned_names_outlive_DestroyDeviceObjects (env : Env) (n : nat) (w : World) :
  nameCache_ (runner w) = [] ->
  (forall i j, genName (device env) i = genName (device env) j -> i = j) ->
  exists (names deleted : list GLuint) (w1 w2 : World),
    AllocTextureNames env n w = Ok names w1 /\
    DestroyDeviceObjects w1 = Ok tt w2 /\
    deleted = nameCache_ (runner w1) /\
    deleted_textures (issued w2) = deleted_textures (issued w) ++ deleted /\
    NoDup (names ++ deleted) /\
    nameCache_ (runner w2) = [] /\
    last (issued w2) = Some (glDeleteVertexArrays [globalVAO_ (runner w)]).
Proof.
  intros Hpool Hinj.
  destruct (AllocTextureNames_ledger env n w)
    as (names & w1 & Hrun & _ & _ & Hperm & _ & Hvao & Hdel).
  destruct (DestroyDeviceObjects_run w1) as (w2 & Hdestroy & Hempty & Hdel2 & Hlast).
  exists names, (nameCache_ (runner w1)), w1, w2.
  split; [exact Hrun|]. split; [exact Hdestroy|]. split; [reflexivity|].
  split; [by rewrite Hdel2, Hdel|]. split; [|split; [exact Hempty|by rewrite Hlast, Hvao]].
  rewrite Hperm, Hpool. simpl.
  assert (Hinj' : Inj (=) (=) (genName (device env))) by (intros i j; apply Hinj).
  apply (NoDup_fmap_2 (genName (device env))), NoDup_seq.
Qed.

Lemma returned_names_outlive_DestroyDeviceObjects_witness :
  exists (names deleted : list GLuint) (w1 w2 : World),
    AllocTextureNames env0 2 world0 = Ok names w1 /\
    DestroyDeviceObjects w1 = Ok tt w2 /\
    deleted = nameCache_ (runner w1) /\
    deleted_textures (issued w2) = deleted_textures (issued world0) ++ deleted /\
    NoDup (names ++ deleted) /\
    nameCache_ (runner w2) = [] /\
    last (issued w2) = Some (glDeleteVertexArrays [globalVAO_ (runner world0)]).
Proof.
  apply (returned_names_outlive_DestroyDeviceObjects env0 2 world0).
  - reflexivity.
  - intros i j Hij. simpl in Hij. lia.
Defined.

(** ** Copies outside the two aspects *)

(** X14. A copy with an aspect mask the switch does not know.  When the
    aspect mask is neither exactly the colour bit nor exactly the depth bit
    (both bits together, for one), PerformCopy reads neither framebuffer --
    null or dangling pointers do not matter -- and still goes through the
    capability cascade: the region copy is issued from texture name 0 to
    texture name 0, as a GL_TEXTURE_2D. *)
Theorem copy_with_other_aspect_copies_name_zero
    (env : Env) (src dst : ptr) (srcRect : GLRect2D.t) (dstPos : GLOffset2D.t)
    (aspectMask : Z) (w : World) :
  aspectMask <> GL_COLOR_BUFFER_BIT ->
  aspectMask <> GL_DEPTH_BUFFER_BIT ->
  PerformCopy env src dst srcRect dstPos aspectMask w
  = Ok tt (issue (region_copy_calls (config env) 0 0 GL_TEXTURE_2D srcRect dstPos) w).
Proof.
  intros Hcolor Hdepth. unfold PerformCopy, region_copy_calls.
  apply Z.eqb_neq in Hcolor, Hdepth. rewrite Hcolor, Hdepth.
  unfold bind, ret, when, emit.
  destruct (USING_GLES2 (config env)), (IOS (config env)),
    (ARB_copy_image (config env)), (NV_copy_image (config env));
    simpl; rewrite ?issue_nil; reflexivity.
Qed.

Lemma copy_with_other_aspect_copies_name_zero_witness :
  PerformCopy env0 nullptr nullptr rect0 pos0 (GL_COLOR_BUFFER_BIT + GL_DEPTH_BUFFER_BIT) world0
  = Ok tt (issue (region_copy_calls (config env0) 0 0 GL_TEXTURE_2D rect0 pos0) world0).
Proof.
  apply (copy_with_other_aspect_copies_name_zero env0 nullptr nullptr rect0 pos0
           (GL_COLOR_BUFFER_BIT + GL_DEPTH_BUFFER_BIT) world0);
    vm_compute; discriminate.
Defined.

(** ** Linking programs *)

Lemma bind_run {A B} (m : M A) (k : A -> M B) (w : World) (a : A) (w1 : World) :
  m w = Ok a w1 -> bind m k w = k a w1.
Proof. intros Hm. unfold bind. by rewrite Hm. Qed.

Lemma deref_run {A} (sel : Heap -> gmap loc A) (a : loc) (r : A) (w : World) :
  sel (heap w) !! a = Some r -> deref sel (Some a) w = Ok r w.
Proof. intros Hr. unfold deref. by rewrite Hr. Qed.

Lemma update_run {A} (sel : Heap -> gmap loc A) (store : loc -> A -> Heap -> Heap)
    (a : loc) (f : A -> A) (r : A) (w : World) :
  sel (heap w) !! a = Some r ->
  update sel store (Some a) f w
  = Ok tt (mkWorld (runner w) (store a (f r) (heap w)) (generated w) (trace w)).
Proof. intros Hr. unfold update, bind, deref, get_heap, put_heap. by rewrite Hr. Qed.

Lemma bind_frag_data_run (env : Env) (dual : bool) (name : GLuint) (w : World) :
  bind_frag_data env dual name w = Ok tt (issue (frag_data_calls (config env) dual name) w).
Proof.
  unfold bind_frag_data, frag_data_calls, when, bind, emit, ret.
  destruct (USING_GLES2 (config env)), dual,
    (VersionGEThan_3_3_0 (config env)), (IOS (config env)), (GLES3 (config env)),
    (GPU_SUPPORTS_DUALSOURCE_BLEND (config env)); cbn;
    rewrite ?issue_issue, ?issue_nil; reflexivity.
Qed.

Lemma attach_calls (name : GLuint) (cells : gmap loc GLRShader.t) (step_shaders : list loc)
    (shader_records : list GLRShader.t) :
  Forall2 (fun s sh => cells !! s = Some sh) step_shaders shader_records ->
  flat_map (fun s : ptr =>
              match s with
              | Some l => match cells !! l with
                          | Some sh => [glAttachShader name (GLRShader.shader sh)]
                          | None => []
                          end
              | None => []
              end) (map Some step_shaders)
  = map (fun sh => glAttachShader name (GLRShader.shader sh)) shader_records.
Proof.
  induction 1 as [|s sh ss shs Hs _ IH]; [reflexivity|].
  simpl. rewrite Hs. simpl. by rewrite IH.
Qed.

(** CREATE_PROGRAM from its start to the test of the link status. *)
Lemma CREATE_PROGRAM_until_link
    (env : Env) (a : loc) (prog : GLRProgram.t) (step_shaders : list loc)
    (shader_records : list GLRShader.t) (dual : bool) (w : World) :
  programs (heap w) !! a = Some prog ->
  step_shaders <> [] ->
  Forall2 (fun s sh => shaders (heap w) !! s = Some sh) step_shaders shader_records ->
  let name := genName (device env) (generated w) in
  RunInitStep env (CREATE_PROGRAM (Some a) (map Some step_shaders) dual) w
  = (if negb (linkStatus (device env) name =? GL_TRUE)
     then link_failed env name (Z.of_nat (length (map Some step_shaders)))
     else bind (emit (glUseProgram name)) (fun _ =>
          bind (for_each (GLRProgram.queries_ prog) (run_query env name)) (fun _ =>
          for_each (GLRProgram.initialize_ prog) run_initializer)))
    (issue (program_setup_calls (config env) dual name shader_records
              (GLRProgram.semantics_ prog))
       (mkWorld (runner w)
          (store_program a
             (GLRProgram.mk name (GLRProgram.semantics_ prog)
                (GLRProgram.queries_ prog) (GLRProgram.initialize_ prog))
             (heap w))
          (generated w + 1) (trace w))).
Proof.
  intros Hprog Hne Hlive name.
  unfold RunInitStep.
  rewrite (bind_run _ _ w prog w (deref_run programs a prog w Hprog)).
  rewrite (bind_run (emit glCreateProgram) _ w tt (issue [glCreateProgram] w) eq_refl).
  rewrite (bind_run (gen_name env) _ (issue [glCreateProgram] w) name
             (mkWorld (runner w) (heap w) (generated w + 1) (glCreateProgram :: trace w))
             eq_refl).
  rewrite (bind_run _ _ _ tt _
             (update_run programs store_program a _ prog
                (mkWorld (runner w) (heap w) (generated w + 1) (glCreateProgram :: trace w))
                Hprog)).
  cbn [runner heap generated trace]. cbv zeta.
  set (w2 := mkWorld _ _ _ _).
  match goal with
  | |- context [_assert_msg_ ?c ?msg] =>
      assert (Hcount : c = true)
        by (apply Z.ltb_lt; rewrite length_map; destruct step_shaders; [done|simpl; lia]);
      rewrite (bind_run (_assert_msg_ c msg) _ w2 tt w2)
        by (unfold _assert_msg_; by rewrite Hcount)
  end.
  rewrite (bind_run (for_each (map Some step_shaders) _) _ w2 tt
             (issue (flat_map (fun s : ptr =>
                       match s with
                       | Some l => match shaders (heap w) !! l with
                                   | Some sh => [glAttachShader name (GLRShader.shader sh)]
                                   | None => []
                                   end
                       | None => []
                       end) (map Some step_shaders)) w2)).
  2:{ apply (for_each_issue_in (A:=ptr)).
      intros s w' Hin Hheap. apply list_elem_of_fmap in Hin as (l & -> & Hl).
      assert (Hsome : Forall (fun s => is_Some (shaders (heap w) !! s)) step_shaders).
      { clear -Hlive. induction Hlive; constructor; eauto. }
      rewrite Forall_forall in Hsome. destruct (Hsome l Hl) as [sh Hsh].
      unfold bind, deref. rewrite Hheap. subst w2; cbn. rewrite Hsh. reflexivity. }
  rewrite (attach_calls name _ _ _ Hlive).
  rewrite (bind_run (for_each (GLRProgram.semantics_ prog) _) _ _ tt _
             (for_each_issue _ (fun iter => [glBindAttribLocation name (Semantic.location iter)
                                               (Semantic.attrib iter)]) _ _
                (fun _ _ => eq_refl))).
  rewrite (bind_run (bind_frag_data env dual name) _ _ tt _ (bind_frag_data_run _ _ _ _)).
  rewrite (bind_run (emit (glLinkProgram name)) _ _ tt _ eq_refl).
  rewrite (bind_run (emit (glGetProgramiv name GL_LINK_STATUS)) _ _ tt _ eq_refl).
  rewrite !issue_issue. subst w2.
  assert (Hmap : forall (l : list Semantic.t),
            flat_map (fun iter => [glBindAttribLocation name (Semantic.location iter)
                                     (Semantic.attrib iter)]) l
            = map (fun iter => glBindAttribLocation name (Semantic.location iter)
                                 (Semantic.attrib iter)) l).
  { induction l as [|x l IH]; simpl; [done|by rewrite IH]. }
  rewrite Hmap. reflexivity.
Qed.

Lemma for_each_run_query (env : Env) (name : GLuint) (queries : list UniformLocQuery.t) :
  forall w : World,
    Forall (fun q => cell_is_live (ints (heap w)) (UniformLocQuery.dest q)) queries ->
    exists w',
      for_each queries (run_query env name) w = Ok tt w' /\
      ints (heap w') = query_locations (device env) name queries (ints (heap w)) /\
      programs (heap w') = programs (heap w) /\
      shaders (heap w') = shaders (heap w) /\
      textures (heap w') = textures (heap w) /\
      buffers (heap w') = buffers (heap w) /\
      runner w' = runner w /\
      issued w' = issued w
                  ++ map (fun q => glGetUniformLocation name (UniformLocQuery.name q)) queries.
Proof.
  induction queries as [|q queries IH]; intros w Hlive.
  - exists w. rewrite app_nil_r. by repeat split.
  - apply Forall_cons_1 in Hlive as [(c & Hdest & [v Hv]) Hlive].
    set (l := uniformLocation (device env) name (UniformLocQuery.name q)).
    set (w1 := mkWorld (runner w) (store_int c l (heap w)) (generated w)
                 (glGetUniformLocation name (UniformLocQuery.name q) :: trace w)).
    assert (Hone : run_query env name q w = Ok tt w1).
    { unfold run_query.
      rewrite (bind_run (emit _) _ w tt _ eq_refl), Hdest.
      by rewrite (update_run ints store_int c _ v
                    (issue [glGetUniformLocation name (UniformLocQuery.name q)] w) Hv). }
    destruct (IH w1) as (w' & Hrun & Hints & Hprogs & Hshaders & Htex & Hbuf & Hrunner & Htrace).
    { eapply Forall_impl; [exact Hlive|].
      intros q' (c' & Hdest' & Hc'). exists c'. split; [exact Hdest'|].
      subst w1; cbn. by apply lookup_insert_is_Some'; right. }
    exists w'. split; [simpl; by rewrite (bind_run _ _ _ _ _ Hone)|].
    split; [rewrite Hints; simpl; by rewrite Hdest|].
    repeat split; try done.
    rewrite Htrace. subst w1. unfold issued; simpl. by rewrite <- app_assoc.
Qed.

Lemma for_each_run_initializer (inits : list Initializer.t) (w : World) :
  Forall (fun init => cell_is_live (ints (heap w)) (Initializer.uniform init)) inits ->
  for_each inits run_initializer w
  = Ok tt (issue (initializer_calls (ints (heap w)) inits) w).
Proof.
  intros Hlive. apply for_each_issue_in. intros init w' Hin Hheap.
  rewrite Forall_forall in Hlive. destruct (Hlive init Hin) as (c & Hc & [u Hu]).
  unfold run_initializer. cbv beta. rewrite Hc, Hu.
  rewrite (bind_run _ _ w' u w') by (apply deref_run; by rewrite Hheap).
  unfold when, emit, ret.
  destruct (negb (u =? -1)), (Initializer.type init =? 0); simpl;
    rewrite ?issue_nil; reflexivity.
Qed.

(** X15. A program that links resolves its uniforms, then initializes them.
    A CREATE_PROGRAM step on a live program record, with at least one
    shader, all live, whose link succeeds, and whose queries and initializers
    point to live location cells: the step completes; the record holds the
    new handle; every query has written the location the device reports into
    its cell, later queries overwriting earlier ones on the same cell; and
    the calls are, in this order, the setup calls (create, one attach per
    shader, one attribute binding per semantic, the fragment-output bindings
    of the build, link, status query), glUseProgram, one
    glGetUniformLocation per query, and then the initializers' glUniform1i
    calls.  The initializers read the cells as the queries left them: an
    initializer issues its call exactly when its cell, after the queries,
    is not -1 and its type is 0. *)
Theorem create_program_resolves_then_initializes
    (env : Env) (a : loc) (prog : GLRProgram.t) (step_shaders : list loc)
    (shader_records : list GLRShader.t) (support_dual_source : bool) (w : World) :
  let name := genName (device env) (generated w) in
  programs (heap w) !! a = Some prog ->
  step_shaders <> [] ->
  Forall2 (fun s sh => shaders (heap w) !! s = Some sh) step_shaders shader_records ->
  linkStatus (device env) name = GL_TRUE ->
  Forall (fun q => cell_is_live (ints (heap w)) (UniformLocQuery.dest q))
    (GLRProgram.queries_ prog) ->
  Forall (fun init => cell_is_live (ints (heap w)) (Initializer.uniform init))
    (GLRProgram.initialize_ prog) ->
  exists w',
    RunInitStep env (CREATE_PROGRAM (Some a) (map Some step_shaders) support_dual_source) w
      = Ok tt w' /\
    programs (heap w') !! a
      = Some (GLRProgram.mk name (GLRProgram.semantics_ prog) (GLRProgram.queries_ prog)
                (GLRProgram.initialize_ prog)) /\
    ints (heap w')
      = query_locations (device env) name (GLRProgram.queries_ prog) (ints (heap w)) /\
    issued w'
      = issued w
        ++ program_setup_calls (config env) support_dual_source name shader_records
             (GLRProgram.semantics_ prog)
        ++ [glUseProgram name]
        ++ map (fun q => glGetUniformLocation name (UniformLocQuery.name q))
             (GLRProgram.queries_ prog)
        ++ initializer_calls (ints (heap w')) (GLRProgram.initialize_ prog).
Proof.
  intros name Hprog Hne Hshaders Hlink Hqueries Hinits.
  rewrite (CREATE_PROGRAM_until_link env a prog step_shaders shader_records
             support_dual_source w Hprog Hne Hshaders).
  fold name. rewrite Hlink, Z.eqb_refl. cbn [negb].
  set (w1 := issue _ _).
  rewrite (bind_run (emit (glUseProgram name)) _ w1 tt _ eq_refl).
  destruct (for_each_run_query env name (GLRProgram.queries_ prog) (issue [glUseProgram name] w1))
    as (w2 & Hrun & Hints & Hprogs & _ & _ & _ & _ & Htrace); [exact Hqueries|].
  rewrite (bind_run _ _ _ tt w2 Hrun).
  assert (Hinits2 : Forall (fun init => cell_is_live (ints (heap w2)) (Initializer.uniform init))
                      (GLRProgram.initialize_ prog)).
  { eapply Forall_impl; [exact Hinits|]. intros init (c & Hc & Hlive). exists c.
    split; [exact Hc|]. rewrite Hints. clear -Hlive. subst w1. cbn.
    revert Hlive. generalize (ints (heap w)).
    induction (GLRProgram.queries_ prog) as [|q qs IH]; intros cells Hlive; [exact Hlive|].
    simpl. apply IH. destruct (UniformLocQuery.dest q); [|exact Hlive].
    by apply lookup_insert_is_Some'; right. }
  rewrite (for_each_run_initializer _ w2 Hinits2).
  eexists. split; [reflexivity|].
  cbn [heap issue]. split; [|split].
  - rewrite Hprogs. subst w1. cbn. apply lookup_insert_eq.
  - rewrite Hints. reflexivity.
  - rewrite issued_issue, Htrace, !issued_issue. subst w1. rewrite issued_issue.
    rewrite <- !app_assoc. reflexivity.
Qed.

Lemma create_program_resolves_then_initializes_witness :
  exists w',
    RunInitStep env_uniforms (CREATE_PROGRAM (Some 2%nat) (map Some [1%nat]) false)
      world_program_tex = Ok tt w' /\
    programs (heap w') !! 2%nat
      = Some (GLRProgram.mk (genName (device env_uniforms) (generated world_program_tex))
                (GLRProgram.semantics_ prog_tex) (GLRProgram.queries_ prog_tex)
                (GLRProgram.initialize_ prog_tex)) /\
    ints (heap w')
      = query_locations (device env_uniforms)
          (genName (device env_uniforms) (generated world_program_tex))
          (GLRProgram.queries_ prog_tex) (ints (heap world_program_tex)) /\
    issued w'
      = issued world_program_tex
        ++ program_setup_calls (config env_uniforms) false
             (genName (device env_uniforms) (generated world_program_tex))
             [GLRShader.mk 7 true] (GLRProgram.semantics_ prog_tex)
        ++ [glUseProgram (genName (device env_uniforms) (generated world_program_tex))]
        ++ map (fun q => glGetUniformLocation
                           (genName (device env_uniforms) (generated world_program_tex))
                           (UniformLocQuery.name q))
             (GLRProgram.queries_ prog_tex)
        ++ initializer_calls (ints (heap w')) (GLRProgram.initialize_ prog_tex).
Proof.
  apply (create_program_resolves_then_initializes env_uniforms 2%nat prog_tex [1%nat]
           [GLRShader.mk 7 true] false world_program_tex).
  - reflexivity.
  - discriminate.
  - repeat constructor.
  - reflexivity.
  - repeat constructor; eexists; (split; [reflexivity|vm_compute; by eexists]).
  - repeat constructor; eexists; (split; [reflexivity|vm_compute; by eexists]).
Defined.

(** The same step, run: the cell at 5 held -1 and the cell at 6 held 0
    before; the query of [u_tex] makes the first initializer fire, the query
    of the unknown [u_missing] silences the second, and the third has a type
    the switch does not handle. *)
Example program_tex_run :
  exists w',
    RunInitStep env_uniforms (CREATE_PROGRAM (Some 2%nat) [Some 1%nat] false)
      world_program_tex = Ok tt w' /\
    ints (heap w') = {[5%nat := 4; 6%nat := -1]} /\
    issued w' = [glCreateProgram; glAttachShader 1 7;
                 glBindAttribLocation 1 0 "a_position";
                 glBindFragDataLocation 1 0 "fragColor0";
                 glLinkProgram 1; glGetProgramiv 1 GL_LINK_STATUS; glUseProgram 1;
                 glGetUniformLocation 1 "u_tex"; glGetUniformLocation 1 "u_missing";
                 glUniform1i 4 3].
Proof. eexists. split; [vm_compute; reflexivity|]. split; vm_compute; reflexivity. Qed.

(** ** The current framebuffer dimensions over a run *)

Lemma RunStep_steps R P `{!Observation R P} `{!DimsBlind R} (env : Env) (step : GLRStep) :
  (forall e, P e) -> steps R (RunStep env step).
Proof.
  intros HP.
  destruct step; unfold RunStep, PerformBlit, PerformReadback, PerformReadbackImage;
    steps_walk.
  - by apply (PerformRenderPass_steps R P).
  - by apply (PerformCopy_steps R P).
Qed.

Lemma PerformBindFramebufferAsRenderTarget_dims (framebuffer : ptr) (w w' : World) :
  PerformBindFramebufferAsRenderTarget framebuffer w = Ok tt w' ->
  target_dims framebuffer w = Some (cur_dims w').
Proof.
  unfold PerformBindFramebufferAsRenderTarget, bind, get_runner, put_runner, deref,
    target_dims.
  destruct framebuffer as [a|]; simpl.
  - destruct (framebuffers (heap w) !! a) as [fb|] eqn:Hfb; [|discriminate].
    by intros [= <-].
  - by intros [= <-].
Qed.

(** A run that leaves the runner alone. *)
Lemma runner_kept {A} (m : M A) (w : World) (a : A) (w' : World) :
  steps init_untouched m -> m w = Ok a w' -> runner w' = runner w.
Proof. intros Hm Hrun. by destruct (Hm _ _ _ Hrun) as [? _]. Qed.

Lemma PerformRenderPass_dims
    (env : Env) (framebuffer : ptr) (commands : list GLRRenderData) (w w' : World) :
  commands <> [] ->
  PerformRenderPass env framebuffer commands w = Ok tt w' ->
  target_dims framebuffer w = Some (cur_dims w').
Proof.
  intros Hne. unfold PerformRenderPass. destruct commands as [|c rest]; [done|].
  clear Hne. generalize (c :: rest); clear c rest; intros commands Hrun.
  repeat (apply bind_Ok in Hrun; destruct Hrun as (? & ? & ? & Hrun)).
  repeat match goal with u : unit |- _ => destruct u end.
  repeat match goal with
    | H : PerformBindFramebufferAsRenderTarget _ _ = Ok _ ?w0 |- _ =>
        apply PerformBindFramebufferAsRenderTarget_dims in H;
        rewrite H; clear H; f_equal; unfold cur_dims;
        assert (Hrunner : runner w' = runner w0); [|by rewrite Hrunner]
    | H : PerformCommands _ _ _ _ = Ok _ _ |- _ =>
        apply runner_kept in H;
        [|by apply (PerformCommands_steps init_untouched (fun _ => True))]
    | H : _ _ = Ok _ _ |- _ => apply runner_kept in H; [|by steps_walk]
    end.
  congruence.
Qed.

Lemma RunStep_dims (env : Env) (step : GLRStep) (w w' : World) :
  RunStep env step w = Ok tt w' ->
  match render_targets [step] with
  | [] => cur_dims w' = cur_dims w
  | framebuffer :: _ => target_dims framebuffer w = Some (cur_dims w')
  end.
Proof.
  intros Hrun. destruct step as [framebuffer [|c rest]| | | | |];
    try (simpl; unfold cur_dims; apply runner_kept in Hrun;
         [by rewrite Hrun
         |unfold RunStep, PerformRenderPass, PerformBlit, PerformReadback,
            PerformReadbackImage;
          first [by steps_walk | by apply (PerformCopy_steps init_untouched (fun _ => True))]]).
  exact (PerformRenderPass_dims env framebuffer (c :: rest) w w' ltac:(discriminate) Hrun).
Qed.

Lemma target_dims_kept (framebuffer : ptr) (w w' : World) :
  only_dims_and_trace w w' -> target_dims framebuffer w' = target_dims framebuffer w.
Proof.
  intros (Hheap & _ & width & height & Hrunner).
  unfold target_dims. by rewrite Hheap, Hrunner.
Qed.

Lemma RunSteps_from_dims (env : Env) (steps_ : list GLRStep) :
  forall (i : nat) (w w' : World),
    RunSteps_from env i steps_ w = Ok tt w' ->
    match last (render_targets steps_) with
    | None => cur_dims w' = cur_dims w
    | Some framebuffer => target_dims framebuffer w = Some (cur_dims w')
    end.
Proof.
  induction steps_ as [|step steps_ IH] using rev_ind; intros i w w' Hrun.
  - by injection Hrun as <-.
  - rewrite RunSteps_from_app in Hrun.
    apply bind_Ok in Hrun. destruct Hrun as ([] & w1 & Hfirst & Hrun).
    simpl in Hrun.
    apply bind_Ok in Hrun. destruct Hrun as ([] & w2 & Hstep & Hrun).
    apply bind_Ok in Hrun. destruct Hrun as ([] & w3 & Hdel & Hrun).
    injection Hdel as <-. injection Hrun as <-.
    pose proof (RunSteps_from_steps only_dims_and_trace (fun _ => True) env i steps_
                  (fun _ => I) _ _ _ Hfirst) as Hkept.
    apply IH in Hfirst. apply RunStep_dims in Hstep.
    change (cur_dims (issue [delete_step (i + length steps_)] w2)) with (cur_dims w2).
    unfold render_targets in *. rewrite flat_map_app.
    destruct (flat_map _ [step]) as [|framebuffer targets] eqn:Hlast.
    + rewrite app_nil_r. destruct (last _); by rewrite Hstep.
    + assert (targets = []) as ->.
      { simpl in Hlast. rewrite app_nil_r in Hlast.
        by destruct step as [? [|? ?]| | | | |]; simplify_eq. }
      rewrite last_snoc, <- Hstep. symmetry. by apply target_dims_kept.
Qed.

(** X16. The current framebuffer dimensions follow the last pass.  After a
    run of steps that completes, the runner's current framebuffer dimensions
    are those of the target of the last render pass that has commands: the
    width and height of its framebuffer record, or the runner's target
    dimensions when the pass renders to the default target.  A run with no
    such pass leaves the dimensions as they were: passes without commands and
    the other kinds of step do not touch them. *)
Theorem RunSteps_dims_follow_last_pass (env : Env) (steps_ : list GLRStep) (w w' : World) :
  RunSteps env steps_ w = Ok tt w' ->
  match last (render_targets steps_) with
  | None => cur_dims w' = cur_dims w
  | Some framebuffer => target_dims framebuffer w = Some (cur_dims w')
  end.
Proof. exact (RunSteps_from_dims env steps_ 0 w w'). Qed.

Lemma RunSteps_dims_follow_last_pass_witness :
  match last (render_targets steps_three) with
  | None => cur_dims world_after_three = cur_dims world_copy
  | Some framebuffer => target_dims framebuffer world_copy = Some (cur_dims world_after_three)
  end.
Proof.
  apply (RunSteps_dims_follow_last_pass env0 steps_three world_copy world_after_three).
  vm_compute. reflexivity.
Defined.

(** ** The vertex array object over its life *)

#[global] Instance vao_quiet_observation :
  Observation vao_quiet (fun e => bound_vao e = None).
Proof.
  split.
  - split.
    + by intros w.
    + intros w1 w2 w3 [Hv1 Ht1] [Hv2 Ht2]. split; congruence.
  - intros e w He. split; [done|].
    rewrite issued_issue, omap_app. simpl. by rewrite He, app_nil_r.
Qed.

#[global] Instance vao_quiet_heap_blind : HeapBlind vao_quiet.
Proof. intros w w' Hr Ht _ _. unfold vao_quiet, issued. by rewrite Hr, Ht. Qed.

#[global] Instance vao_quiet_dims_blind : DimsBlind vao_quiet.
Proof. by intros width height w. Qed.

Lemma PerformCommand_vao_quiet (env : Env) (c : GLRRenderData) (sh : Shadow) :
  steps vao_quiet (PerformCommand env c sh).
Proof.
  destruct c; unfold PerformCommand, resolve_loc, attr_loop; steps_walk; reflexivity.
Qed.

Lemma PerformCommands_vao_quiet (env : Env) (commands : list GLRRenderData) :
  forall sh : Shadow, steps vao_quiet (PerformCommands env commands sh).
Proof.
  induction commands as [|c rest IH]; intros sh; simpl.
  - steps_walk.
  - steps_walk; [apply PerformCommand_vao_quiet|apply IH].
Qed.

Lemma bind_vao_run (v : GLuint) (w w' : World) :
  emit (glBindVertexArray v) w = Ok tt w' ->
  globalVAO_ (runner w') = globalVAO_ (runner w) /\
  omap bound_vao (issued w') = omap bound_vao (issued w) ++ [v].
Proof. intros [= <-]. by rewrite issued_issue, omap_app. Qed.

(** A pass with commands binds the runner's vertex array object first and
    unbinds it last; nothing in between binds another. *)
Lemma PerformRenderPass_vao
    (env : Env) (framebuffer : ptr) (commands : list GLRRenderData) (w w' : World) :
  commands <> [] ->
  PerformRenderPass env framebuffer commands w = Ok tt w' ->
  globalVAO_ (runner w') = globalVAO_ (runner w) /\
  omap bound_vao (issued w')
  = omap bound_vao (issued w) ++ [globalVAO_ (runner w); 0].
Proof.
  intros Hne. unfold PerformRenderPass. destruct commands as [|c rest]; [done|].
  clear Hne. generalize (c :: rest); clear c rest; intros commands Hrun.
  repeat (apply bind_Ok in Hrun; destruct Hrun as (? & ? & ? & Hrun)).
  repeat match goal with u : unit |- _ => destruct u end.
  repeat match goal with
    | H : get_runner _ = Ok _ _ |- _ => injection H as <- <-
    | H : emit (glBindVertexArray _) _ = Ok _ _ |- _ =>
        apply bind_vao_run in H; destruct H
    | H : PerformCommands _ _ _ _ = Ok _ _ |- _ =>
        apply PerformCommands_vao_quiet in H; destruct H
    | H : _ _ = Ok _ _ |- _ =>
        lazymatch type of H with
        | ?m _ = _ =>
            let Hm := fresh in
            assert (Hm : steps vao_quiet m) by (by steps_walk);
            apply Hm in H; destruct H; clear Hm
        end
    end.
  split; [congruence|].
  repeat match goal with
    | H : omap bound_vao (issued ?a) = _ |- context [omap bound_vao (issued ?a)] =>
        rewrite H; clear H
    end.
  match goal with
  | |- (_ ++ [?v]) ++ _ = _ =>
      assert (Hv : v = globalVAO_ (runner w)) by congruence; rewrite Hv
  end.
  by rewrite <- app_assoc.
Qed.

Lemma RunStep_vao (env : Env) (step : GLRStep) (w w' : World) :
  RunStep env step w = Ok tt w' ->
  globalVAO_ (runner w') = globalVAO_ (runner w) /\
  omap bound_vao (issued w')
  = omap bound_vao (issued w) ++ vao_binds (globalVAO_ (runner w)) [step].
Proof.
  intros Hrun. destruct step as [framebuffer [|c rest]| | | | |];
    try (match type of Hrun with
         | RunStep _ ?s _ = _ =>
             assert (Hquiet : steps vao_quiet (RunStep env s))
               by (unfold RunStep, PerformRenderPass, PerformCopy, PerformBlit,
                     PerformReadback, PerformReadbackImage; by steps_walk)
         end;
         destruct (Hquiet _ _ _ Hrun) as [Hvao Hbinds];
         simpl; by rewrite app_nil_r).
  exact (PerformRenderPass_vao env framebuffer (c :: rest) w w' ltac:(discriminate) Hrun).
Qed.

Lemma RunSteps_from_vao (env : Env) (steps_ : list GLRStep) :
  forall (i : nat) (w w' : World),
    RunSteps_from env i steps_ w = Ok tt w' ->
    globalVAO_ (runner w') = globalVAO_ (runner w) /\
    omap bound_vao (issued w')
    = omap bound_vao (issued w) ++ vao_binds (globalVAO_ (runner w)) steps_.
Proof.
  induction steps_ as [|step rest IH]; intros i w w' Hrun; simpl in Hrun.
  - injection Hrun as <-. by rewrite app_nil_r.
  - apply bind_Ok in Hrun. destruct Hrun as ([] & w1 & Hstep & Hrun).
    apply bind_Ok in Hrun. destruct Hrun as ([] & w2 & Hdel & Hrun).
    injection Hdel as <-.
    apply RunStep_vao in Hstep as [Hvao1 Hbinds1].
    apply IH in Hrun as [Hvao Hbinds].
    cbn [runner issue] in Hvao, Hbinds.
    rewrite issued_issue, omap_app in Hbinds. simpl in Hbinds.
    rewrite app_nil_r in Hbinds.
    split; [congruence|].
    rewrite Hbinds, Hbinds1, Hvao1, <- app_assoc. unfold vao_binds. simpl.
    by rewrite app_nil_r.
Qed.

Lemma RunInitSteps_vao_quiet (env : Env) (steps_ : list GLRInitStep) :
  steps vao_quiet (RunInitSteps env steps_).
Proof.
  unfold RunInitSteps. steps_walk.
  destruct a; unfold RunInitStep, link_failed, bind_frag_data, run_query, run_initializer;
    steps_walk; reflexivity.
Qed.

Lemma CreateDeviceObjects_vao (env : Env) (w w' : World) :
  CreateDeviceObjects env w = Ok tt w' ->
  globalVAO_ (runner w') = genName (device env) (generated w) /\
  omap bound_vao (issued w') = omap bound_vao (issued w).
Proof.
  intros [= <-]. split; [reflexivity|].
  unfold issued; simpl. by rewrite !omap_app, !app_nil_r.
Qed.

Lemma DestroyDeviceObjects_vao (w w' : World) :
  DestroyDeviceObjects w = Ok tt w' ->
  omap bound_vao (issued w') = omap bound_vao (issued w) /\
  last (issued w') = Some (glDeleteVertexArrays [globalVAO_ (runner w)]).
Proof.
  unfold DestroyDeviceObjects, bind, when, get_runner, put_runner, emit, ret.
  destruct (negb _); intros [= <-]; unfold issued; simpl;
    rewrite ?omap_app, ?app_nil_r, ?last_snoc; by simpl; rewrite ?app_nil_r.
Qed.

(** X17. One vertex array object, from creation to deletion.  Take a runner
    through its life: CreateDeviceObjects, an init batch, a run of steps,
    DestroyDeviceObjects.  When all four complete, the vertex array object
    CreateDeviceObjects generated is the only one ever bound: each render
    pass with commands binds it and then binds 0, nothing else binds a vertex
    array (not the init steps, not a command, not a pass without commands),
    and the last call of DestroyDeviceObjects deletes that same object. *)
Theorem vertex_array_object_lifecycle
    (env : Env) (inits : list GLRInitStep) (steps_ : list GLRStep) (w w' : World) :
  bind (CreateDeviceObjects env) (fun _ =>
  bind (RunInitSteps env inits) (fun _ =>
  bind (RunSteps env steps_) (fun _ =>
  DestroyDeviceObjects))) w = Ok tt w' ->
  let vao := genName (device env) (generated w) in
  omap bound_vao (issued w') = omap bound_vao (issued w) ++ vao_binds vao steps_ /\
  last (issued w') = Some (glDeleteVertexArrays [vao]).
Proof.
  intros Hrun vao.
  apply bind_Ok in Hrun. destruct Hrun as ([] & w1 & Hcreate & Hrun).
  apply bind_Ok in Hrun. destruct Hrun as ([] & w2 & Hinit & Hrun).
  apply bind_Ok in Hrun. destruct Hrun as ([] & w3 & Hsteps & Hdestroy).
  destruct (CreateDeviceObjects_vao env w w1 Hcreate) as [Hvao1 Hbinds1].
  destruct (RunInitSteps_vao_quiet env inits w1 tt w2 Hinit) as [Hvao2 Hbinds2].
  destruct (RunSteps_from_vao env steps_ 0 w2 w3 Hsteps) as [Hvao3 Hbinds3].
  destruct (DestroyDeviceObjects_vao w3 w' Hdestroy) as [Hbinds4 Hlast].
  subst vao. split.
  - rewrite Hbinds4, Hbinds3, Hbinds2, Hbinds1. congruence.
  - rewrite Hlast. congruence.
Qed.

Lemma vertex_array_object_lifecycle_witness :
  omap bound_vao (issued world_after_life)
  = omap bound_vao (issued world_buf)
    ++ vao_binds (genName (device env0) (generated world_buf)) steps_two /\
  last (issued world_after_life)
  = Some (glDeleteVertexArrays [genName (device env0) (generated world_buf)]).
Proof.
  apply (vertex_array_object_lifecycle env0 init_two steps_two world_buf world_after_life).
  vm_compute. reflexivity.
Defined.
